(** * OmegaDLG: a shallow embedding of the fetch-and-assemble pipeline

    The definitions below follow [main.py] function by function.  A Python
    [str] is the string of the bytes of its UTF-8 encoding ([string]), a
    Python [int] is a [Z] (or a [nat] for counters that start at zero and
    only grow), exceptions are explicit results, and the file system, the
    console and the network appear as explicit state, traces and oracles.
    The layout rule is given twice: on exact rationals ([Layout]), and on
    floats with their range, infinities and NaN ([FloatLayout]), rounding
    within the range left aside in both.  Paths are POSIX paths,
    directories exist as soon as a file lies in them (so [os.makedirs] has
    nothing to do), and writing a file succeeds.  The size probes of the
    first thread pool run concurrently, in an order that the scheduler
    decides; the download jobs of the second pool write to different files
    and are run one after the other, in the order in which they were
    submitted. *)

From Stdlib Require Import ZArith QArith Qabs Lia List Bool Ascii String.
From Stdlib Require Import DecimalString Sorted.
From Stdlib Require DecimalPos DecimalZ.
From stdpp Require Import base option gmap strings.
Import ListNotations.

Local Open Scope string_scope.
Local Open Scope list_scope.

(** ** Python string primitives *)

Module PyStr.

(** [str.lower()] on the ASCII range: only [A]..[Z] change. *)
Definition lower_ascii (c : ascii) : ascii :=
  let n := nat_of_ascii c in
  if (65 <=? n)%nat && (n <=? 90)%nat then ascii_of_nat (n + 32) else c.

Fixpoint lower (s : string) : string :=
  match s with
  | EmptyString => EmptyString
  | String c r => String (lower_ascii c) (lower r)
  end.

(** [s.startswith(p)] *)
Definition startswith (s p : string) : bool := String.prefix p s.

Fixpoint rev_string (s : string) : string :=
  match s with
  | EmptyString => EmptyString
  | String c r => rev_string r +:+ String c EmptyString
  end.

(** [s.endswith(p)] *)
Definition endswith (s p : string) : bool :=
  String.prefix (rev_string p) (rev_string s).

(** [s.endswith((p1, ..., pn))] *)
Definition endswith_any (s : string) (ps : list string) : bool :=
  existsb (endswith s) ps.

(** [s.startswith((p1, ..., pn))] *)
Definition startswith_any (s : string) (ps : list string) : bool :=
  existsb (startswith s) ps.

(** [x in [s1, ..., sn]] for strings *)
Definition str_in (x : string) (l : list string) : bool :=
  existsb (String.eqb x) l.

(** [s.rstrip(chars)]: drop every trailing character that satisfies [p]. *)
Fixpoint rstrip_by (p : ascii -> bool) (s : string) : string :=
  match s with
  | EmptyString => EmptyString
  | String c r =>
      match rstrip_by p r with
      | EmptyString => if p c then EmptyString else String c EmptyString
      | r' => String c r'
      end
  end.

(** [s.lstrip(chars)] *)
Fixpoint lstrip_by (p : ascii -> bool) (s : string) : string :=
  match s with
  | EmptyString => EmptyString
  | String c r => if p c then lstrip_by p r else s
  end.

(** Every character of [s] satisfies [p]. *)
Fixpoint all_chars (p : ascii -> bool) (s : string) : bool :=
  match s with
  | EmptyString => true
  | String c r => p c && all_chars p r
  end.

Definition is_slash (c : ascii) : bool := Ascii.eqb c "/"%char.

(** [str.isspace] on the ASCII range: TAB, LF, VT, FF, CR, FS, GS, RS, US
    and the space. *)
Definition is_space (c : ascii) : bool :=
  let n := nat_of_ascii c in
  ((9 <=? n)%nat && (n <=? 13)%nat) || ((28 <=? n)%nat && (n <=? 32)%nat).

(** [s.strip()] for a string of ASCII characters. *)
Definition strip (s : string) : string := lstrip_by is_space (rstrip_by is_space s).

Definition byte_is (n : nat) (c : ascii) : bool := (nat_of_ascii c =? n)%nat.

(** The white space of [str.isspace] beyond ASCII, by the bytes of its
    UTF-8 encoding: U+0085 and U+00A0 take two bytes, U+1680, U+2000 to
    U+200A, U+2028, U+2029, U+202F, U+205F and U+3000 three. *)
Definition is_space2 (c d : ascii) : bool :=
  byte_is 194 c && (byte_is 133 d || byte_is 160 d).

Definition is_space3 (c d e : ascii) : bool :=
  (byte_is 225 c && byte_is 154 d && byte_is 128 e)
  || (byte_is 226 c && byte_is 128 d
      && (((128 <=? nat_of_ascii e)%nat && (nat_of_ascii e <=? 138)%nat)
          || byte_is 168 e || byte_is 169 e || byte_is 175 e))
  || (byte_is 226 c && byte_is 129 d && byte_is 159 e)
  || (byte_is 227 c && byte_is 128 d && byte_is 128 e).

(** The number of bytes of the white-space character at the start of [s],
    [0] when [s] starts with none. *)
Definition space_width (s : string) : nat :=
  match s with
  | String c (String d (String e _)) =>
      if is_space c then 1 else if is_space2 c d then 2
      else if is_space3 c d e then 3 else 0
  | String c (String d EmptyString) =>
      if is_space c then 1 else if is_space2 c d then 2 else 0
  | String c EmptyString => if is_space c then 1 else 0
  | EmptyString => 0
  end.

(** The same at the end of a string, read backwards. *)
Definition space_width_rev (s : string) : nat :=
  match s with
  | String e (String d (String c _)) =>
      if is_space e then 1 else if is_space2 d e then 2
      else if is_space3 c d e then 3 else 0
  | String e (String d EmptyString) =>
      if is_space e then 1 else if is_space2 d e then 2 else 0
  | String e EmptyString => if is_space e then 1 else 0
  | EmptyString => 0
  end.

(** Drop white-space characters from the start of [s], as long as there
    are any; [fuel] bounds their number. *)
Fixpoint lstrip_spaces (width : string -> nat) (fuel : nat) (s : string) : string :=
  match fuel with
  | O => s
  | S fuel' =>
      match width s with
      | O => s
      | S k => lstrip_spaces width fuel'
                 (String.substring (S k) (String.length s - S k) s)
      end
  end.

(** [s.strip()] for any string: white space is that of Unicode. *)
Definition strip_unicode (s : string) : string :=
  let r := rev_string s in
  let s' := rev_string (lstrip_spaces space_width_rev (String.length r) r) in
  lstrip_spaces space_width (String.length s') s'.

(** [str(i)] for an [int]. *)
Definition str_Z (z : Z) : string := NilZero.string_of_int (Z.to_int z).

(** [str(i)] for a counter. *)
Definition str_nat (n : nat) : string := str_Z (Z.of_nat n).

Fixpoint zeros (k : nat) : string :=
  match k with
  | O => EmptyString
  | S k' => String "0"%char (zeros k')
  end.

(** [s.zfill(w)] for a string without sign. *)
Definition zfill (w : nat) (s : string) : string :=
  zeros (w - String.length s) +:+ s.

(** The format [f"{i:03d}"]: sign first, then zeros up to a total width
    of three characters. *)
Definition fmt_03d (z : Z) : string :=
  if (z <? 0)%Z then String "-"%char (zfill 2 (str_Z (Z.abs z)))
  else zfill 3 (str_Z z).

(** Python's [or] on strings: the left operand unless it is empty. *)
Definition str_or (a b : string) : string :=
  match a with
  | EmptyString => b
  | _ => a
  end.

(** [a < b] on [str]: lexicographic order on the characters. *)
Definition str_ltb (a b : string) : bool := String.ltb a b.
Definition str_leb (a b : string) : bool := String.leb a b.
Definition str_lt (a b : string) : Prop := str_ltb a b = true.

End PyStr.

(** ** Chapter enumeration ([generate_chapter_urls], and the labels that
    [run_bulk] attaches with [enumerate(chapter_urls, 1)]) *)

Module Enumerator.
Import PyStr.

(** [range(1, n + 1)] *)
Definition range1 (n : Z) : list Z :=
  map (fun k => Z.of_nat k) (seq 1 (Z.to_nat n)).

Definition generate_chapter_urls (base_url : string) (total_chapters : Z) : list string :=
  let base := rstrip_by is_slash base_url in
  map (fun i => base +:+ "/chapter-" +:+ str_Z i) (range1 total_chapters).

(** [enumerate(l, 1)] *)
Fixpoint enumerate_from {A : Type} (start : nat) (l : list A) : list (nat * A) :=
  match l with
  | [] => []
  | x :: r => (start, x) :: enumerate_from (S start) r
  end.

(** The (label, address) pairs that the loop of [run_bulk] walks through. *)
Definition labelled_chapters (series_url : string) (total : Z) : list (string * string) :=
  map (fun p => (str_nat (fst p), snd p))
      (enumerate_from 1 (generate_chapter_urls series_url total)).

End Enumerator.

(** ** Series names ([SAFE_NAME_RE], [sanitize_name]) *)

Module Names.
Import PyStr.

Definition in_range (lo hi : nat) (c : ascii) : bool :=
  let n := nat_of_ascii c in (lo <=? n)%nat && (n <=? hi)%nat.

(** The characters of the class [[A-Za-z0-9 _-]]. *)
Definition is_safe (c : ascii) : bool :=
  in_range 65 90 c || in_range 97 122 c || in_range 48 57 c
  || Ascii.eqb c " "%char || Ascii.eqb c "_"%char || Ascii.eqb c "-"%char.

(** [SAFE_NAME_RE.sub("_", s)] with [SAFE_NAME_RE = [^A-Za-z0-9 _-]+]: the
    scan emits one underscore when it enters a match and nothing for the
    further characters of the same match; [in_match] tells whether the
    previous character was consumed by a match. *)
Fixpoint sub_unsafe (in_match : bool) (s : string) : string :=
  match s with
  | EmptyString => EmptyString
  | String c r =>
      if is_safe c then String c (sub_unsafe false r)
      else if in_match then sub_unsafe true r
      else String "_"%char (sub_unsafe true r)
  end.

Definition SAFE_NAME_RE_sub (s : string) : string := sub_unsafe false s.

Definition sanitize_name (s : string) : string :=
  str_or (strip (SAFE_NAME_RE_sub s)) "series".

End Names.

(** ** Page geometry on rationals ([layout_fun_fixed_width]) *)

Module Layout.
Local Open Scope Q_scope.

(** The [ndpi] argument: [None], or a pair whose components may be [None]. *)
Definition dpi_pair : Type := option (option Q * option Q).

Record geometry := Geometry {
  page_w : Q; page_h : Q; img_w : Q; img_h : Q
}.

(** Truth value of a number. *)
Definition truthy (x : Q) : bool := negb (Qeq_bool x 0).

(** [x > 0] *)
Definition positive (x : Q) : bool := Qle_bool 0 x && negb (Qeq_bool x 0).

(** True division; [None] stands for [ZeroDivisionError]. *)
Definition true_div (a b : Q) : option Q :=
  if Qeq_bool b 0 then None else Some (a / b).

(** [d if ndpi and d and d > 0 else 96] for one component [d] of [ndpi]. *)
Definition dpi_or_default (d : option Q) : Q :=
  match d with
  | Some x => if truthy x && positive x then x else 96
  | None => 96
  end.

Definition dpi_x_of (ndpi : dpi_pair) : Q :=
  match ndpi with
  | Some (dx, _) => dpi_or_default dx
  | None => 96
  end.

Definition dpi_y_of (ndpi : dpi_pair) : Q :=
  match ndpi with
  | Some (_, dy) => dpi_or_default dy
  | None => 96
  end.

Definition page_width_pt : Q := 720.

Definition layout_fun_fixed_width (imgwidthpx imgheightpx : Z) (ndpi : dpi_pair)
  : option geometry :=
  let dpi_x := dpi_x_of ndpi in
  let dpi_y := dpi_y_of ndpi in
  img_w_in ← true_div (inject_Z imgwidthpx) dpi_x;
  img_h_in ← true_div (inject_Z imgheightpx) dpi_y;
  let img_w_pt := img_w_in * 72 in
  let img_h_pt := img_h_in * 72 in
  scale ← (if truthy img_w_pt then true_div page_width_pt img_w_pt else Some 1);
  let scaled_h_pt := img_h_pt * scale in
  Some (Geometry page_width_pt scaled_h_pt page_width_pt scaled_h_pt).

End Layout.

(** ** Page geometry on floats ([layout_fun_fixed_width]) *)

Module FloatLayout.
Local Open Scope Q_scope.

(** A Python [float]: a rational within the range of the doubles, an
    infinity or NaN.  Rounding within the range is left aside. *)
Inductive float :=
| Fin (q : Q)
| Inf (negative : bool)
| NaN.

(** A number as the function may receive it. *)
Inductive number :=
| Int (z : Z)
| Flt (x : float).

Inductive error :=
| ZeroDivisionError
| OverflowError.

Inductive outcome (A : Type) :=
| Done (a : A)
| Raised (e : error).
Arguments Done {A} a.
Arguments Raised {A} e.

Definition and_then {A B} (o : outcome A) (k : A -> outcome B) : outcome B :=
  match o with
  | Done a => k a
  | Raised e => Raised e
  end.

(** The [ndpi] argument: [None], or a pair whose components may be [None]. *)
Definition dpi_pair : Type := option (option number * option number).

(** The page as the function returns it: the widths are the [int] 720,
    the heights are floats. *)
Record geometry := Geometry {
  page_w : Z; page_h : float; img_w : Z; img_h : float
}.

(** A magnitude from [2^1024 - 2^970] on rounds beyond the largest double,
    and one of at most [2^-1075] rounds to zero. *)
Definition overflow_from : Q := inject_Z (2 ^ 1024 - 2 ^ 970).
Definition underflow_to : Q := 1 # (2 ^ 1075).

Definition is_negative (q : Q) : bool := negb (Qle_bool 0 q).

(** The double nearest to [q], as far as the range goes. *)
Definition round (q : Q) : float :=
  if Qle_bool overflow_from (Qabs q) then Inf (is_negative q)
  else if negb (Qeq_bool q 0) && Qle_bool (Qabs q) underflow_to then Fin 0
  else Fin q.

(** [float(z)] for an [int]. *)
Definition of_int (z : Z) : outcome float :=
  if Qle_bool overflow_from (Qabs (inject_Z z)) then Raised OverflowError
  else Done (Fin (inject_Z z)).

Definition to_float (n : number) : outcome float :=
  match n with
  | Int z => of_int z
  | Flt x => Done x
  end.

Definition is_zero (x : float) : bool :=
  match x with
  | Fin q => Qeq_bool q 0
  | _ => false
  end.

(** The sign of a float that is neither zero nor NaN. *)
Definition sign (x : float) : bool :=
  match x with
  | Fin q => is_negative q
  | Inf s => s
  | NaN => false
  end.

(** [x * y] on floats *)
Definition mul (x y : float) : float :=
  match x, y with
  | NaN, _ | _, NaN => NaN
  | Fin a, Fin b => round (a * b)
  | _, _ => if is_zero x || is_zero y then NaN else Inf (xorb (sign x) (sign y))
  end.

(** [x / y] on floats *)
Definition div (x y : float) : outcome float :=
  if is_zero y then Raised ZeroDivisionError
  else match x, y with
       | NaN, _ | _, NaN => Done NaN
       | Fin a, Fin b => Done (round (a / b))
       | Fin _, Inf _ => Done (Fin 0)
       | Inf s, Fin _ => Done (Inf (xorb s (sign y)))
       | Inf _, Inf _ => Done NaN
       end.

(** [a / b] on numbers: two [int]s are divided exactly and the quotient
    is rounded, a quotient beyond the doubles being an [OverflowError];
    otherwise both are converted first. *)
Definition true_div (a b : number) : outcome float :=
  match a, b with
  | Int x, Int y =>
      if (y =? 0)%Z then Raised ZeroDivisionError
      else match round (inject_Z x / inject_Z y) with
           | Inf _ => Raised OverflowError
           | q => Done q
           end
  | _, _ =>
      and_then (to_float a) (fun x => and_then (to_float b) (fun y => div x y))
  end.

(** Truth value of a number. *)
Definition truthy (n : number) : bool :=
  match n with
  | Int z => negb (z =? 0)%Z
  | Flt x => negb (is_zero x)
  end.

(** [n > 0] *)
Definition positive (n : number) : bool :=
  match n with
  | Int z => (0 <? z)%Z
  | Flt (Fin q) => Qle_bool 0 q && negb (Qeq_bool q 0)
  | Flt (Inf s) => negb s
  | Flt NaN => false
  end.

(** [d if ndpi and d and d > 0 else 96] for one component [d] of [ndpi]. *)
Definition dpi_or_default (d : option number) : number :=
  match d with
  | Some n => if truthy n && positive n then n else Int 96
  | None => Int 96
  end.

Definition dpi_x_of (ndpi : dpi_pair) : number :=
  match ndpi with
  | Some (dx, _) => dpi_or_default dx
  | None => Int 96
  end.

Definition dpi_y_of (ndpi : dpi_pair) : number :=
  match ndpi with
  | Some (_, dy) => dpi_or_default dy
  | None => Int 96
  end.

Definition page_width_pt : Z := 720.

Definition layout_fun_fixed_width (imgwidthpx imgheightpx : Z) (ndpi : dpi_pair)
  : outcome geometry :=
  let dpi_x := dpi_x_of ndpi in
  let dpi_y := dpi_y_of ndpi in
  and_then (true_div (Int imgwidthpx) dpi_x) (fun img_w_in =>
  and_then (true_div (Int imgheightpx) dpi_y) (fun img_h_in =>
  let img_w_pt := mul img_w_in (Fin 72) in
  let img_h_pt := mul img_h_in (Fin 72) in
  and_then (if negb (is_zero img_w_pt)
            then div (Fin (inject_Z page_width_pt)) img_w_pt
            else Done (Fin 1)) (fun scale =>
  let scaled_h_pt := mul img_h_pt scale in
  Done (Geometry page_width_pt scaled_h_pt page_width_pt scaled_h_pt)))).

(** *** The link with the rule on rationals *)

(** The rational that a finite number stands for. *)
Definition exact (n : number) : option Q :=
  match n with
  | Int z => Some (inject_Z z)
  | Flt (Fin q) => Some q
  | Flt _ => None
  end.

Definition exact_component (d : option number) : option (option Q) :=
  match d with
  | None => Some None
  | Some n => Some <$> exact n
  end.

(** The [ndpi] argument as the rule on rationals takes it, when its
    components are finite. *)
Definition exact_dpi (ndpi : dpi_pair) : option Layout.dpi_pair :=
  match ndpi with
  | None => Some None
  | Some (dx, dy) =>
      qx ← exact_component dx; qy ← exact_component dy; Some (Some (qx, qy))
  end.

(** A resolution that is absent, not positive, or between [2^-64] and
    [2^64]. *)
Definition moderate (d : option Q) : Prop :=
  match d with
  | None => True
  | Some q => q <= 0 \/ (/ inject_Z (2 ^ 64) <= q /\ q <= inject_Z (2 ^ 64))
  end.

(** Pixel sizes of at most [2^64] and moderate resolutions. *)
Definition image_sized (w h : Z) (ndpi : Layout.dpi_pair) : Prop :=
  (Z.abs w <= 2 ^ 64)%Z /\ (Z.abs h <= 2 ^ 64)%Z
  /\ match ndpi with
     | None => True
     | Some (dx, dy) => moderate dx /\ moderate dy
     end.

End FloatLayout.


(** ** The environment: exceptions, the network, library calls, files *)

Module Env.

(** Python exceptions, as far as the code tells them apart: the handlers
    are [except requests.RequestException] and [except Exception]. *)
Inductive exn :=
| RequestException (msg : string)
| ValueError (msg : string)
| TypeError (msg : string)
| OtherError (msg : string).

(** [str(e)] *)
Definition exn_str (e : exn) : string :=
  match e with
  | RequestException m | ValueError m | TypeError m | OtherError m => m
  end.

Definition is_request_exception (e : exn) : bool :=
  match e with
  | RequestException _ => true
  | _ => false
  end.

(** The result of [urllib.parse.urlparse]. *)
Record ParseResult := {
  scheme : string; netloc : string; path : string;
  params : string; query : string; fragment : string
}.

(** A [requests.Response] to a request made with [stream=True]: [chunks]
    is what [iter_content] yields, [stream_error] the exception that ends
    the stream after the last chunk, if any, and [text] the decoded body
    of a stream that ends well. *)
Record Response := {
  status : nat;
  reason : string;
  text : string;
  chunks : list string;
  stream_error : option exn
}.

Inductive get_result :=
| Responded (r : Response)
| GetRaised (e : exn).

Inductive head_result :=
| HeadHeaders (content_length : option string)
| HeadRaised (e : exn).

(** Console output, by kind rather than by markup. *)
Inductive message :=
| MsgSetup (series_dir : string)
| MsgStatus (what : string)
| MsgFetchError (what : string)
| MsgNoContentDiv (url : string)
| MsgNoTotal
| MsgTotal (n : Z)
| MsgSkipExists (label pdf_path : string)
| MsgProcessing (label url : string)
| MsgProcessingSingle (label url : string)
| MsgNoImagesForChapter (label : string)
| MsgNoImagesFound
| MsgImageList (lines : list (string * string))
| MsgResultsTable (rows : list (string * string * nat * bool * option string))
| MsgFilesProcessed (n : nat) (out_dir : string)
| MsgNoImagesIn (folder : string)
| MsgNoConvertible (folder : string)
| MsgPdfSaved (pdf_path : string).

Inductive event :=
| EvGet (url : string)
| EvHead (url : string)
| EvSleep (seconds : Q)
| EvAdvance (nbytes : nat)
| EvPrint (m : message).

(** What lies outside [main.py]: the URL parser, the remote hosts, the
    HTML parser, the image libraries, the Unicode tables of the
    interpreter and the scheduler of the threads. *)
Record Oracle := {
  (** [urlparse(u)]; [None] when it raises [ValueError] *)
  urlparse : string -> option ParseResult;
  (** [session.get(url, stream=True)]: the answer to the [n]-th request for
      [url] made by one fetch (a page fetch, or one download job) *)
  session_get : string -> nat -> get_result;
  (** [session.head(url, allow_redirects=True)] *)
  session_head : string -> head_result;
  (** the stripped texts of the [span] children of every
      [div class="flex justify-between"] of a page, in document order *)
  soup_total_divs : string -> list (list string);
  (** [int(s)]; [None] when it raises [ValueError] *)
  py_int : string -> option Z;
  (** the [data-src] and [src] attributes of every [img] below
      [div id="content"], in document order; [None] without such a [div] *)
  soup_content_imgs : string -> option (list (option string * option string));
  (** [Image.open], alpha flattening or [convert("RGB")], and the JPEG
      encoding of the result; [None] when any of them raises *)
  pil_to_jpeg : string -> option string;
  (** what [img2pdf] reads from an input file: pixel width, pixel height
      and the [ndpi] pair; [None] when it rejects the file *)
  img2pdf_read : string -> option (Z * Z * Layout.dpi_pair);
  (** the check that [img2pdf] makes on the page size that the layout
      function returns; [false] when it raises, as it does for a page of
      more than 14400 points (200 inches) *)
  img2pdf_page_ok : Layout.geometry -> bool;
  (** group 1 of the leftmost match of the chapter pattern in an address
      that has characters outside ASCII, [None] without a match; there
      [\d] and [re.IGNORECASE] follow the Unicode tables *)
  re_search_label : string -> option string;
  (** the chronological order of the events of the tasks that one thread
      pool runs concurrently, from the events of each task in the order of
      submission *)
  pool_events : list (list event) -> list event
}.

(** A page of an assembled document: the input file and its geometry. *)
Record page := { page_file : string; page_geom : Layout.geometry }.

(** File contents: raw bytes, or a document written by [img2pdf]. *)
Inductive content :=
| Raw (bytes : string)
| Pdf (pages : list page).

(** The state that the program changes: the files (by full path) and the
    chronological trace of requests, sleeps and console output. *)
Record world := World {
  fs : gmap string content;
  trace : list event
}.

(** Computations that change the world and return or raise. *)
Inductive result (A : Type) :=
| Ok (a : A)
| Exc (e : exn).
Arguments Ok {A} a.
Arguments Exc {A} e.

Definition M (A : Type) : Type := world -> result A * world.

Definition ret {A} (a : A) : M A := fun w => (Ok a, w).
Definition raise {A} (e : exn) : M A := fun w => (Exc e, w).
Definition bind {A B} (m : M A) (k : A -> M B) : M B :=
  fun w => match m w with
           | (Ok a, w') => k a w'
           | (Exc e, w') => (Exc e, w')
           end.

(** [try: m except <handled> as e: h e]; other exceptions pass through. *)
Definition try_except {A} (m : M A) (handled : exn -> bool) (h : exn -> M A) : M A :=
  fun w => match m w with
           | (Ok a, w') => (Ok a, w')
           | (Exc e, w') => if handled e then h e w' else (Exc e, w')
           end.

Definition emit (e : event) : M unit :=
  fun w => (Ok tt, World (fs w) (trace w ++ [e])).
Definition print (m : message) : M unit := emit (EvPrint m).
Definition sleep (seconds : Q) : M unit := emit (EvSleep seconds).
Definition get_fs : M (gmap string content) := fun w => (Ok (fs w), w).
Definition put_file (p : string) (c : content) : M unit :=
  fun w => (Ok tt, World (<[p := c]> (fs w)) (trace w)).

(** [os.path.exists(p)] for a file path. *)
Definition path_exists (p : string) : M bool :=
  fun w => (Ok (bool_decide (is_Some (fs w !! p))), w).

Definition is_network (e : event) : bool :=
  match e with
  | EvGet _ | EvHead _ => true
  | _ => false
  end.

(** The requests among the events. *)
Definition network_calls (t : list event) : list event := List.filter is_network t.

#[global] Instance M_ret : MRet M := @ret.
#[global] Instance M_bind : MBind M := fun A B k m => bind m k.

End Env.

(** ** Paths and addresses ([os.path], [_is_valid_image_url]) *)

Module Url.
Import PyStr Env.

Fixpoint rfind_from (c : ascii) (s : string) (i : nat) : option nat :=
  match s with
  | EmptyString => None
  | String a r =>
      match rfind_from c r (S i) with
      | Some j => Some j
      | None => if Ascii.eqb a c then Some i else None
      end
  end.

(** [s.rfind(c)]: the last index of [c], or [-1]. *)
Definition rfind (c : ascii) (s : string) : Z :=
  match rfind_from c s 0 with
  | Some j => Z.of_nat j
  | None => (-1)%Z
  end.

(** [s[i:j]] for [0 <= i] *)
Definition slice (i j : Z) (s : string) : string :=
  String.substring (Z.to_nat i) (Z.to_nat (j - i)) s.

(** [s[i:]] for [0 <= i] *)
Definition slice_from (i : Z) (s : string) : string :=
  String.substring (Z.to_nat i) (String.length s - Z.to_nat i) s.

Fixpoint all_dots (s : string) : bool :=
  match s with
  | EmptyString => true
  | String c r => Ascii.eqb c "."%char && all_dots r
  end.

(** [os.path.splitext(p)] (POSIX): the extension starts at the last dot of
    the last component, unless only dots precede it there. *)
Definition splitext (p : string) : string * string :=
  let sepIndex := rfind "/"%char p in
  let dotIndex := rfind "."%char p in
  if (dotIndex >? sepIndex)%Z then
    let filenameIndex := (sepIndex + 1)%Z in
    if all_dots (slice filenameIndex dotIndex p) then (p, EmptyString)
    else (slice 0 dotIndex p, slice_from dotIndex p)
  else (p, EmptyString).

(** [os.path.basename(p)] *)
Definition basename (p : string) : string :=
  slice_from (rfind "/"%char p + 1) p.

(** [os.path.join(a, b)] *)
Definition path_join (a b : string) : string :=
  if startswith b "/" then b
  else if String.eqb a EmptyString || endswith a "/" then a +:+ b
  else a +:+ "/" +:+ b.

Section WithOracle.
Context (O : Oracle).

(** [None] when [urlparse] raises. *)
Definition _is_valid_image_url (u : string) : option bool :=
  parsed ← urlparse O u;
  if negb (str_in (lower (scheme parsed)) ["http"; "https"]) then Some false
  else if endswith_any (lower (path parsed)) [".svg"; ".ico"] then Some false
  else Some true.

End WithOracle.

(** *** A parser for plain addresses

    [urlparse_plain] follows [urllib.parse.urlsplit] and [urlparse] on
    addresses made of printable ASCII characters whose authority has no
    bracket; on those the library neither normalises nor rejects anything.
    It is the parser of the worked examples. *)

Fixpoint find_char (c : ascii) (s : string) : option nat :=
  match s with
  | EmptyString => None
  | String a r => if Ascii.eqb a c then Some 0 else S <$> find_char c r
  end.

(** [s.split(c, 1)] as (before, after); the whole of [s] when [c] is absent. *)
Definition split_first (c : ascii) (s : string) : string * string :=
  match find_char c s with
  | Some i => (String.substring 0 i s, String.substring (S i) (String.length s - S i) s)
  | None => (s, EmptyString)
  end.

Definition is_alpha (c : ascii) : bool :=
  Names.in_range 65 90 c || Names.in_range 97 122 c.

Definition is_scheme_char (c : ascii) : bool :=
  is_alpha c || Names.in_range 48 57 c
  || Ascii.eqb c "+"%char || Ascii.eqb c "-"%char || Ascii.eqb c "."%char.

(** The scheme and the rest, when the text before the first colon is a
    scheme. *)
Definition split_scheme (url : string) : string * string :=
  match url, find_char ":"%char url with
  | String c0 _, Some (S i) =>
      if is_alpha c0 && all_chars is_scheme_char (String.substring 0 (S i) url)
      then (lower (String.substring 0 (S i) url),
            String.substring (S (S i)) (String.length url - S (S i)) url)
      else (EmptyString, url)
  | _, _ => (EmptyString, url)
  end.

Definition is_netloc_end (c : ascii) : bool :=
  Ascii.eqb c "/"%char || Ascii.eqb c "?"%char || Ascii.eqb c "#"%char.

Fixpoint take_until (p : ascii -> bool) (s : string) : string * string :=
  match s with
  | EmptyString => (EmptyString, EmptyString)
  | String c r =>
      if p c then (EmptyString, s)
      else let '(a, b) := take_until p r in (String c a, b)
  end.

(** [_splitparams]: the parameters start at the first semicolon of the last
    path component. *)
Definition split_params (p : string) : string * string :=
  let i := rfind "/"%char p in
  let head := slice 0 (i + 1) p in
  let last := slice_from (i + 1) p in
  match find_char ";"%char last with
  | Some _ => let '(a, b) := split_first ";"%char last in (head +:+ a, b)
  | None => (p, EmptyString)
  end.

Definition urlparse_plain (u : string) : option ParseResult :=
  let '(sch, rest) := split_scheme u in
  let '(loc, rest) :=
    if String.prefix "//" rest
    then take_until is_netloc_end (String.substring 2 (String.length rest - 2) rest)
    else (EmptyString, rest) in
  let '(rest, frag) := split_first "#"%char rest in
  let '(rest, qry) := split_first "?"%char rest in
  let '(pth, prm) :=
    if str_in sch [""; "ftp"; "hdl"; "prospero"; "http"; "imap"; "https"; "shttp";
                   "rtsp"; "rtsps"; "rtspu"; "sip"; "sips"; "mms"; "sftp"; "tel"]
    then split_params rest else (rest, EmptyString) in
  Some {| scheme := sch; netloc := loc; path := pth;
          params := prm; query := qry; fragment := frag |}.

End Url.

(** ** The HTTP client ([get_with_retries]) *)

Module Net.
Import PyStr Env.
Local Open Scope Q_scope.

(** [0.6 * attempt] *)
Definition backoff (attempt : nat) : Q := (6 # 10) * inject_Z (Z.of_nat attempt).

(** [resp.raise_for_status()]: the [HTTPError] for a 4xx or 5xx status. *)
Definition raise_for_status (url : string) (resp : Response) : option exn :=
  let code := status resp in
  if (400 <=? code)%nat && (code <? 500)%nat then
    Some (RequestException
            (str_nat code +:+ " Client Error: " +:+ reason resp +:+ " for url: " +:+ url))
  else if (500 <=? code)%nat && (code <? 600)%nat then
    Some (RequestException
            (str_nat code +:+ " Server Error: " +:+ reason resp +:+ " for url: " +:+ url))
  else None.

(** One pass through the [try] block: the request, then the status check. *)
Definition request_once (get : nat -> get_result) (url : string) (attempt : nat)
  : M Response :=
  emit (EvGet url);;
  match get attempt with
  | GetRaised e => raise e
  | Responded resp =>
      match raise_for_status url resp with
      | Some e => raise e
      | None => mret resp
      end
  end.

(** The [for attempt in range(1, retries + 1)] loop over the attempts that
    are left; [raise last_err] ends it, and raising [None] is a
    [TypeError]. *)
Fixpoint retry_loop (get : nat -> get_result) (url : string)
    (attempts : list nat) (last_err : option exn) : M Response :=
  match attempts with
  | [] =>
      match last_err with
      | Some e => raise e
      | None => raise (TypeError "exceptions must derive from BaseException")
      end
  | attempt :: rest =>
      try_except (request_once get url attempt) is_request_exception
        (fun e => sleep (backoff attempt);; retry_loop get url rest (Some e))
  end.

(** [get_with_retries(session, url, retries=..., timeout=...)]; [get n] is
    what the session answers to the [n]-th request of this call. *)
Definition get_with_retries (get : nat -> get_result) (url : string) (retries : Z)
  : M Response :=
  retry_loop get url (seq 1 (Z.to_nat retries)) None.

(** [response.text]: the body of a streamed response is read at this
    point, and the read raises what the stream raises. *)
Definition response_text (resp : Response) : M string :=
  match stream_error resp with
  | Some e => raise e
  | None => mret (text resp)
  end.

End Net.

(** ** The concurrent downloader ([download_images_threaded]) *)

Module Downloader.
Import PyStr Env Url Net.

(** An entry [(idx, u, dest)] of [jobs]. *)
Record job := Job { job_idx : nat; job_url : string; job_dest : string }.

(** An entry [(i, dest, ok, written, err)] of [results]. *)
Record job_result := JobResult {
  res_idx : nat; res_dest : string; res_ok : bool;
  res_written : nat; res_err : option string
}.

(** What a call hands back to its caller. *)
Inductive pyvalue :=
| PyNone
| PyResults (rs : list job_result).

(** [sorted(l, key=...)] by insertion, stable. *)
Fixpoint insert_by {A : Type} (leb : A -> A -> bool) (x : A) (l : list A) : list A :=
  match l with
  | [] => [x]
  | y :: r => if leb x y then x :: l else y :: insert_by leb x r
  end.

Fixpoint sort_by {A : Type} (leb : A -> A -> bool) (l : list A) : list A :=
  match l with
  | [] => []
  | x :: r => insert_by leb x (sort_by leb r)
  end.

(** The extension of a destination file, from the path of the address. *)
Definition dest_ext (url_path : string) : string :=
  let ext := lower (snd (splitext url_path)) in
  if str_in ext [".jpg"; ".jpeg"; ".png"; ".webp"] then ext else ".jpg".

Definition is_digit (c : ascii) : bool := Names.in_range 48 57 c.

(** [cl.isdigit()] *)
Definition isdigit (s : string) : bool :=
  negb (String.eqb s EmptyString) && all_chars is_digit s.

Section WithOracle.
Context (O : Oracle).

(** The loop that fills [jobs], from the counter value [idx]; [None] when
    [urlparse] raises on an address. *)
Fixpoint build_jobs (out_dir : string) (idx : nat) (image_urls : list string)
  : option (list job) :=
  match image_urls with
  | [] => Some []
  | u :: rest =>
      valid ← _is_valid_image_url O u;
      if negb valid then build_jobs out_dir idx rest
      else
        let idx := S idx in
        parsed ← urlparse O u;
        let filename := fmt_03d (Z.of_nat idx) +:+ dest_ext (path parsed) in
        let dest := path_join out_dir filename in
        tail ← build_jobs out_dir idx rest;
        Some (Job idx u dest :: tail)
  end.

(** [_head_content_length(url)]; the validity test stands outside the
    [try], the rest inside. *)
Definition _head_content_length (url : string) : M nat :=
  match _is_valid_image_url O url with
  | None => raise (ValueError "urlparse")
  | Some false => mret 0%nat
  | Some true =>
      emit (EvHead url);;
      match session_head O url with
      | HeadRaised _ => mret 0%nat
      | HeadHeaders None => mret 0%nat
      | HeadHeaders (Some cl) =>
          if isdigit cl then
            match py_int O cl with
            | Some n => mret (Z.to_nat n)
            | None => mret 0%nat
            end
          else mret 0%nat
      end
  end.

(** [ThreadPoolExecutor(max_workers=workers)] *)
Definition new_pool (workers : Z) : M unit :=
  if (workers <=? 0)%Z then raise (ValueError "max_workers must be greater than 0")
  else mret tt.

(** The [for size in pool.map(...)] loop: the results are read in the
    order of submission, and a task that raised raises here. *)
Fixpoint sum_sizes (sizes : list (result nat)) (total_est : nat) : result nat :=
  match sizes with
  | [] => Ok total_est
  | Ok size :: rest => sum_sizes rest (total_est + size)
  | Exc e :: _ => Exc e
  end.

(** The first pool: [total_est] after [pool.map(_head_content_length, ...)].
    The probes touch no file and run concurrently, each from the files as
    they are; their requests reach the trace in the order of the
    scheduler. *)
Definition pool_map_sizes (jobs : list job) : M nat :=
  fun w =>
    let probes :=
      map (fun j => _head_content_length (job_url j) (World (fs w) [])) jobs in
    (sum_sizes (map fst probes) 0,
     World (fs w) (trace w ++ pool_events O (map (fun p => trace (snd p)) probes))).

Definition estimate_total (workers : Z) (jobs : list job) : M nat :=
  new_pool workers;;
  pool_map_sizes jobs.

(** [f.write(chunk)] on a file opened with ["wb"]. *)
Definition append_file (dest chunk : string) : M unit :=
  fun w =>
    let old := match fs w !! dest with
               | Some (Raw b) => b
               | _ => EmptyString
               end in
    (Ok tt, World (<[dest := Raw (old +:+ chunk)]> (fs w)) (trace w)).

(** The [for chunk in resp.iter_content(...)] loop. *)
Fixpoint write_chunks (dest : string) (cs : list string) (written : nat) : M nat :=
  match cs with
  | [] => mret written
  | chunk :: rest =>
      if String.eqb chunk EmptyString then write_chunks dest rest written
      else
        append_file dest chunk;;
        emit (EvAdvance (String.length chunk));;
        write_chunks dest rest (written + String.length chunk)
  end.

(** One pass through the [try] block of [_wrap_download]: the new value of
    [written], and the exception that left the block, if any. *)
Definition download_attempt (j : job) (attempt written : nat) : M (nat * option exn) :=
  fun w =>
    match get_with_retries (fun k => session_get O (job_url j) (attempt + k - 1))
            (job_url j) 1 w with
    | (Exc e, w1) => (Ok (written, Some e), w1)
    | (Ok resp, w1) =>
        (put_file (job_dest j) (Raw EmptyString);;
         written' ← write_chunks (job_dest j) (chunks resp) written;
         mret (written', stream_error resp)) w1
    end.

(** The [for attempt in range(1, max_retries + 1)] loop over the attempts
    that are left: [(ok, written, last_err)] at its end. *)
Fixpoint attempt_loop (j : job) (attempts : list nat) (written : nat)
    (last_err : option exn) : M (bool * nat * option exn) :=
  match attempts with
  | [] => mret (false, written, last_err)
  | attempt :: rest =>
      r ← download_attempt j attempt written;
      match snd r with
      | None => mret (true, fst r, last_err)
      | Some e => sleep (backoff attempt);; attempt_loop j rest (fst r) (Some e)
      end
  end.

(** [str(last_err)] *)
Definition last_err_str (last_err : option exn) : string :=
  match last_err with
  | Some e => exn_str e
  | None => "None"
  end.

Definition _wrap_download (max_retries : Z) (j : job) : M job_result :=
  r ← attempt_loop j (seq 1 (Z.to_nat max_retries)) 0 None;
  let '(ok, written, last_err) := (r : bool * nat * option exn) in
  let err := if ok then None else Some (last_err_str last_err) in
  mret (JobResult (job_idx j) (job_dest j) ok written err).

(** The second pool, built with the same [workers] as the first:
    [results] after every future has completed.  The jobs write to
    different files, so they are run here one after the other, in the
    order of [jobs]. *)
Fixpoint run_jobs (max_retries : Z) (jobs : list job) : M (list job_result) :=
  match jobs with
  | [] => mret []
  | j :: rest =>
      r ← _wrap_download max_retries j;
      rs ← run_jobs max_retries rest;
      mret (r :: rs)
  end.

Definition result_row (r : job_result) : string * string * nat * bool * option string :=
  (fmt_03d (Z.of_nat (res_idx r)), basename (res_dest r), res_written r, res_ok r,
   if res_ok r then None else res_err r).

(** The function has no [return] statement: its value is [None]. *)
Definition download_images_threaded (image_urls : list string) (out_dir : string)
    (workers max_retries : Z) (verbose : bool) : M pyvalue :=
  jobs ← match build_jobs out_dir 0 image_urls with
         | Some js => mret js
         | None => raise (ValueError "urlparse")
         end;
  (if verbose && negb (bool_decide (jobs = []))
   then print (MsgImageList
                 (map (fun j => (fmt_03d (Z.of_nat (job_idx j)), job_url j)) jobs))
   else mret tt);;
  total_est ← estimate_total workers jobs;
  results ← run_jobs max_retries jobs;
  (if verbose && negb (bool_decide (results = []))
   then print (MsgResultsTable
                 (map result_row
                      (sort_by (fun a b => (res_idx a <=? res_idx b)%nat) results)))
   else mret tt);;
  print (MsgFilesProcessed (length results) out_dir);;
  mret PyNone.

End WithOracle.

End Downloader.

(** ** The document assembler ([images_to_pdf]) *)

Module Assembler.
Import PyStr Env Url Downloader.

Definition has_image_ext (f : string) : bool :=
  endswith_any (lower f) [".jpg"; ".jpeg"; ".png"; ".webp"].

Fixpoint has_char (c : ascii) (s : string) : bool :=
  match s with
  | EmptyString => false
  | String a r => Ascii.eqb a c || has_char c r
  end.

(** The prefix that [os.path.join(folder, name)] puts before [name]. *)
Definition folder_prefix (folder : string) : string :=
  if String.eqb folder EmptyString || endswith folder "/" then folder
  else folder +:+ "/".

(** [p] without the prefix [pre], when it starts with it. *)
Fixpoint strip_prefix (pre p : string) : option string :=
  match pre, p with
  | EmptyString, _ => Some p
  | String a pre', String b p' =>
      if Ascii.eqb a b then strip_prefix pre' p' else None
  | String _ _, EmptyString => None
  end.

(** The name under which [folder] lists the file [p], if it does. *)
Definition child_name (folder p : string) : option string :=
  match strip_prefix (folder_prefix folder) p with
  | Some name =>
      if String.eqb name EmptyString || has_char "/"%char name then None
      else Some name
  | None => None
  end.

(** [os.listdir(folder)], in the order in which the file system yields the
    names. *)
Definition listdir (files : gmap string content) (folder : string) : list string :=
  omap (child_name folder) (elements (dom files)).

(** [sorted(...)] on strings *)
Definition py_sorted (l : list string) : list string := sort_by str_leb l.

Definition src_files_of (files : gmap string content) (image_folder : string)
  : list string :=
  py_sorted (map (path_join image_folder)
                 (List.filter has_image_ext (listdir files image_folder))).

Section WithOracle.
Context (O : Oracle).

(** The loop that fills [out_files]: JPEG and PNG files pass as they are,
    the others are converted into [convert_dir], and a file whose
    conversion raises is left out. *)
Fixpoint normalize (convert_dir : string) (src_files : list string) : M (list string) :=
  match src_files with
  | [] => mret []
  | p :: rest =>
      let ext := lower (snd (splitext p)) in
      if str_in ext [".jpg"; ".jpeg"; ".png"] then
        out ← normalize convert_dir rest; mret (p :: out)
      else
        files ← get_fs;
        match (match files !! p with
               | Some (Raw b) => pil_to_jpeg O b
               | _ => None
               end) with
        | Some jpeg =>
            let dest := path_join convert_dir (fst (splitext (basename p)) +:+ ".jpg") in
            put_file dest (Raw jpeg);;
            out ← normalize convert_dir rest; mret (dest :: out)
        | None => normalize convert_dir rest
        end
  end.

(** [img2pdf.convert(out_files, layout_fun=layout_fun_fixed_width, ...)]:
    one page per input file; [None] when it raises, on a file that it
    cannot read or on a page size that it refuses.  The sizes read from a
    file are those of an image, on which the layout rule on floats
    returns the page of the rule on rationals
    ([FloatLayoutFacts.layout_image_sized]); the latter is used here. *)
Fixpoint img2pdf_convert (files : gmap string content) (out_files : list string)
  : option (list page) :=
  match out_files with
  | [] => Some []
  | f :: rest =>
      b ← (match files !! f with Some (Raw b) => Some b | _ => None end);
      info ← img2pdf_read O b;
      let '(w, h, ndpi) := (info : Z * Z * Layout.dpi_pair) in
      g ← Layout.layout_fun_fixed_width w h ndpi;
      if img2pdf_page_ok O g then
        pages ← img2pdf_convert files rest;
        Some ({| page_file := f; page_geom := g |} :: pages)
      else None
  end.

Definition images_to_pdf (image_folder output_pdf : string) : M bool :=
  files ← get_fs;
  let src_files := src_files_of files image_folder in
  if bool_decide (src_files = []) then
    print (MsgNoImagesIn image_folder);; mret false
  else
    let convert_dir := path_join image_folder "_converted" in
    out_files ← normalize convert_dir src_files;
    if bool_decide (out_files = []) then
      print (MsgNoConvertible image_folder);; mret false
    else
      print (MsgStatus output_pdf);;
      put_file output_pdf (Raw EmptyString);;
      files' ← get_fs;
      match img2pdf_convert files' out_files with
      | None => raise (OtherError "img2pdf")
      | Some pages =>
          put_file output_pdf (Pdf pages);;
          print (MsgPdfSaved output_pdf);;
          mret true
      end.

End WithOracle.

End Assembler.

(** ** The run orchestrator ([run_bulk], [run_single]) *)

Module Orchestrator.
Import PyStr Env Url Net Names Enumerator Downloader Assembler.

(** [chapter_dir(root, label)] *)
Definition chapter_dir (root label : string) : string :=
  path_join (path_join root "Images") ("chapter-" +:+ label).

(** [chapter_pdf(root, label)] *)
Definition chapter_pdf (root label : string) : string :=
  path_join (path_join root "Chapters") ("chapter-" +:+ label +:+ ".pdf").

(** [needle in s] *)
Fixpoint contains (needle s : string) : bool :=
  String.prefix needle s ||
  match s with
  | EmptyString => false
  | String _ r => contains needle r
  end.

Fixpoint span_digits (s : string) : string * string :=
  match s with
  | EmptyString => (EmptyString, EmptyString)
  | String c r =>
      if is_digit c then let '(d, t) := span_digits r in (String c d, t)
      else (EmptyString, s)
  end.

(** [[-_/]?(\d+)(?:/|$)] at the start of [s]: the digits, when it matches. *)
Definition match_number (s : string) : option string :=
  let s' := match s with
            | String c r =>
                if Ascii.eqb c "-"%char || Ascii.eqb c "_"%char || Ascii.eqb c "/"%char
                then r else s
            | EmptyString => s
            end in
  let '(digits, rest) := span_digits s' in
  if String.eqb digits EmptyString then None
  else if String.eqb rest EmptyString || String.prefix "/" rest
          || String.eqb rest (String (ascii_of_nat 10) EmptyString)
  then Some digits else None.

(** [word] at the start of [s], whatever the case, and what follows it. *)
Definition match_word (word s : string) : option string :=
  strip_prefix word (lower (String.substring 0 (String.length word) s))
  ≫= fun _ => Some (String.substring (String.length word)
                        (String.length s - String.length word) s).

(** [(?:chapter|chap|ch)[-_/]?(\d+)(?:/|$)] at the start of [s]. *)
Definition match_label (s : string) : option string :=
  match match_word "chapter" s ≫= match_number with
  | Some d => Some d
  | None =>
      match match_word "chap" s ≫= match_number with
      | Some d => Some d
      | None => match_word "ch" s ≫= match_number
      end
  end.

(** The leftmost match of the whole pattern: at the start of the string
    the word may come first, elsewhere a slash precedes it. *)
Fixpoint search_label (at_start : bool) (s : string) : option string :=
  match (if at_start then match_label s else None) with
  | Some d => Some d
  | None =>
      match s with
      | EmptyString => None
      | String c r =>
          match (if Ascii.eqb c "/"%char then match_label r else None) with
          | Some d => Some d
          | None => search_label false r
          end
      end
  end.

(** The addresses on which the pattern is read here: on ASCII characters
    [\d] is [0] to [9] and [re.IGNORECASE] is the case of [A] to [Z]. *)
Definition is_ascii (s : string) : bool :=
  all_chars (fun c => (nat_of_ascii c <? 128)%nat) s.

(** Python's truth value of an optional string. *)
Definition nonempty (o : option string) : option string :=
  match o with
  | Some EmptyString => None
  | _ => o
  end.

Section WithOracle.
Context (O : Oracle).

Definition chapter_label_from_url (chapter_url : string) : option string :=
  if is_ascii chapter_url then search_label true chapter_url
  else re_search_label O chapter_url.

(** [None] when [urlparse] raises. *)
Definition derive_series_name (any_url : string) (override : option string)
  : option string :=
  match nonempty override with
  | Some name => Some (sanitize_name name)
  | None =>
      parsed ← urlparse O any_url;
      let p := rstrip_by is_slash (path parsed) in
      let name := str_or (basename p) "series" in
      Some (sanitize_name name)
  end.

Definition derive_series_name_M (any_url : string) (override : option string) : M string :=
  match derive_series_name any_url override with
  | Some d => mret d
  | None => raise (ValueError "urlparse")
  end.

(** The first [div] whose first [span] mentions the field and whose second
    [span] is an integer. *)
Fixpoint total_from_divs (divs : list (list string)) : option Z :=
  match divs with
  | [] => None
  | spans :: rest =>
      match spans with
      | s0 :: s1 :: _ =>
          if contains "Total chapters" s0 then
            match py_int O s1 with
            | Some n => Some n
            | None => total_from_divs rest
            end
          else total_from_divs rest
      | _ => total_from_divs rest
      end
  end.

(** [get_with_retries(session, url)] under [console.status], inside
    [try: ... except requests.RequestException]: the response, or [None]
    once the error has been printed.  The callers read [response.text]
    after it, outside the [try]. *)
Definition fetch_page (url : string) : M (option Response) :=
  try_except
    (print (MsgStatus url);;
     response ← get_with_retries (session_get O url) url 3;
     mret (Some response))
    is_request_exception
    (fun e => print (MsgFetchError (exn_str e));; mret None).

Definition get_total_chapters (url : string) : M (option Z) :=
  fetched ← fetch_page url;
  match fetched with
  | None => mret None
  | Some response =>
      html ← response_text response;
      mret (total_from_divs (soup_total_divs O html))
  end.

(** The loop over the [img] elements of the content container. *)
Fixpoint image_urls_of (imgs : list (option string * option string)) : list string :=
  match imgs with
  | [] => []
  | (data_src, src) :: rest =>
      let src := strip_unicode (match nonempty data_src, nonempty src with
                        | Some a, _ => a
                        | None, Some b => b
                        | None, None => EmptyString
                        end) in
      if String.eqb src EmptyString then image_urls_of rest
      else if startswith_any (lower src) ["http://"; "https://"]
      then src :: image_urls_of rest
      else image_urls_of rest
  end.

Definition extract_chapter_images (chapter_url : string) : M (list string) :=
  fetched ← fetch_page chapter_url;
  match fetched with
  | None => mret []
  | Some response =>
      html ← response_text response;
      match soup_content_imgs O html with
      | None => print (MsgNoContentDiv chapter_url);; mret []
      | Some imgs => mret (image_urls_of imgs)
      end
  end.

(** The body of the [for idx, chapter_url in enumerate(chapter_urls, 1)]
    loop of [run_bulk]. *)
Definition bulk_chapter (series_dir : string) (force : bool) (workers max_retries : Z)
    (verbose : bool) (idx : nat) (chapter_url : string) : M unit :=
  let label := str_nat idx in
  let pdf_path := chapter_pdf series_dir label in
  present ← path_exists pdf_path;
  if present && negb force then
    print (MsgSkipExists label pdf_path)
  else
    print (MsgProcessing label chapter_url);;
    images ← extract_chapter_images chapter_url;
    if bool_decide (images = []) then
      print (MsgNoImagesForChapter label)
    else
      let img_dir := chapter_dir series_dir label in
      download_images_threaded O images img_dir workers max_retries verbose;;
      images_to_pdf O img_dir pdf_path;;
      mret tt.

Fixpoint bulk_loop (series_dir : string) (force : bool) (workers max_retries : Z)
    (verbose : bool) (chapters : list (nat * string)) : M unit :=
  match chapters with
  | [] => mret tt
  | (idx, chapter_url) :: rest =>
      bulk_chapter series_dir force workers max_retries verbose idx chapter_url;;
      bulk_loop series_dir force workers max_retries verbose rest
  end.

Definition run_bulk (series_url : string) (series_name : option string) (force : bool)
    (workers max_retries : Z) (verbose : bool) : M unit :=
  series_dir ← derive_series_name_M series_url series_name;
  print (MsgSetup series_dir);;
  total ← get_total_chapters (rstrip_by is_slash series_url);
  match total with
  | None | Some 0%Z => print MsgNoTotal
  | Some total =>
      print (MsgTotal total);;
      let chapter_urls := generate_chapter_urls series_url total in
      bulk_loop series_dir force workers max_retries verbose
                (enumerate_from 1 chapter_urls)
  end.

(** [chapter_num or chapter_label_from_url(chapter_url) or "custom"] *)
Definition single_label (chapter_num : option string) (chapter_url : string) : string :=
  match nonempty chapter_num with
  | Some l => l
  | None =>
      match nonempty (chapter_label_from_url chapter_url) with
      | Some l => l
      | None => "custom"
      end
  end.

Definition run_single (chapter_url : string) (series_name chapter_num : option string)
    (force : bool) (workers max_retries : Z) (verbose : bool) : M unit :=
  series_dir ← derive_series_name_M chapter_url series_name;
  let label := single_label chapter_num chapter_url in
  let pdf_path := chapter_pdf series_dir label in
  present ← path_exists pdf_path;
  if present && negb force then
    print (MsgSkipExists label pdf_path)
  else
    print (MsgProcessingSingle label chapter_url);;
    images ← extract_chapter_images chapter_url;
    if bool_decide (images = []) then
      print MsgNoImagesFound
    else
      let img_dir := chapter_dir series_dir label in
      download_images_threaded O images img_dir workers max_retries verbose;;
      images_to_pdf O img_dir pdf_path;;
      mret tt.

End WithOracle.

End Orchestrator.

(** * A worked scenario

    One chapter page with five [img] elements: a PNG that downloads, an
    icon given by a relative path, a JPEG whose body breaks off after its
    header at every attempt, an SVG, and a JPEG whose host never answers.
    Image bytes are written as text: a file starts with a header that
    names the format and the pixel size.  The image library reads the size
    of a JPEG from the header alone and takes the rest as it is, so that
    it accepts a JPEG that is cut after the header; a PNG must be whole. *)

Module Scenario.
Import PyStr Env Url.

Definition chapter_url : string := "https://site.example/series/one/chapter-5".
Definition good_png : string := "https://cdn.example/p/a.PNG".
Definition cut_jpg : string := "https://cdn.example/p/b.jpg".
Definition dead_jpg : string := "https://cdn.example/p/c.jpg".

Definition jpeg_header : string := "JPEG 800x1200;".
Definition png_header : string := "PNG 800x1200;".
Definition png_rest : string := "IDAT;IEND".

Definition answer (body : list string) (err : option exn) : get_result :=
  Responded {| status := 200; reason := "OK"; text := "chapter page";
               chunks := body; stream_error := err |}.

(** A file that starts with [jpeg_header], or the whole PNG. *)
Definition read_image (b : string) : option (Z * Z * Layout.dpi_pair) :=
  if String.prefix jpeg_header b || String.eqb b (png_header +:+ png_rest)
  then Some (800%Z, 1200%Z, None) else None.

(** Pages of 3 to 14400 points pass. *)
Definition page_ok (g : Layout.geometry) : bool :=
  Qle_bool 3 (Layout.page_w g) && Qle_bool (Layout.page_w g) 14400
  && Qle_bool 3 (Layout.page_h g) && Qle_bool (Layout.page_h g) 14400.

Definition oracle : Oracle := {|
  urlparse := urlparse_plain;
  session_get := fun url _ =>
    if String.eqb url chapter_url then answer [] None
    else if String.eqb url good_png then answer [png_header; ""; png_rest] None
    else if String.eqb url cut_jpg
         then answer [jpeg_header] (Some (RequestException "Connection broken"))
    else GetRaised (RequestException "Read timed out");
  session_head := fun _ => HeadHeaders (Some "5");
  soup_total_divs := fun _ => [["Total chapters"; "5"]];
  py_int := fun _ => Some 5%Z;
  soup_content_imgs := fun _ =>
    Some [(Some good_png, None); (None, Some "/icon.png"); (Some "", Some cut_jpg);
          (None, Some "https://cdn.example/p/logo.svg"); (None, Some dead_jpg)];
  pil_to_jpeg := fun b =>
    if String.prefix jpeg_header b || String.prefix png_header b
    then Some (jpeg_header +:+ "recoded") else None;
  img2pdf_read := read_image;
  img2pdf_page_ok := page_ok;
  re_search_label := fun _ => None;
  pool_events := fun evs => concat (rev evs)
|}.

(** The addresses that [extract_chapter_images] keeps, followed by the
    relative one that it drops. *)
Definition image_urls : list string :=
  [good_png; cut_jpg; "https://cdn.example/p/logo.svg"; dead_jpg; "/icon.png"].

Definition empty_world : world := World ∅ [].



End Scenario.

(** * Properties *)

(** ** Strings *)

Module StrFacts.
#[local] Arguments String.append !_ _ / : simpl nomatch.

Lemma append_nil_r (s : string) : s +:+ "" = s.
Proof. induction s; simpl; congruence. Qed.

Lemma append_assoc (a b c : string) : (a +:+ b) +:+ c = a +:+ (b +:+ c).
Proof. induction a; simpl; congruence. Qed.

Lemma length_append (a b : string) :
  String.length (a +:+ b) = String.length a + String.length b.
Proof. induction a; simpl; congruence. Qed.

End StrFacts.

(** ** Chapter enumeration *)

Module EnumeratorFacts.
Import PyStr Enumerator StrFacts.
#[local] Arguments String.append !_ _ / : simpl nomatch.

Lemma rstrip_by_decomp p s :
  exists t, s = rstrip_by p s +:+ t /\ all_chars p t = true.
Proof.
  induction s as [|c r [t [Hr Ht]]]; simpl.
  - exists ""; auto.
  - destruct (rstrip_by p r) as [|b r'] eqn:E; simpl in Hr.
    + destruct (p c) eqn:Hc.
      * exists (String c t). simpl. rewrite Hc, Ht. by subst.
      * exists t. simpl. by subst.
    + exists t. split; auto. simpl. simpl in Hr. congruence.
Qed.

Lemma rstrip_by_last p s t c :
  rstrip_by p s = t +:+ String c "" -> p c = false.
Proof.
  revert t. induction s as [|a r IH]; intros t H; simpl in H.
  - destruct t; discriminate.
  - destruct (rstrip_by p r) as [|b r'] eqn:E.
    + destruct (p a) eqn:Ha.
      * destruct t; discriminate.
      * destruct t as [|x t]; simpl in H.
        -- congruence.
        -- destruct t; discriminate.
    + destruct t as [|x t]; simpl in H.
      * discriminate.
      * injection H as -> H. eapply IH. eassumption.
Qed.

Lemma enumerate_from_lookup {A} (l : list A) s k :
  enumerate_from s l !! k = (fun x => (s + k, x)) <$> l !! k.
Proof.
  revert s k. induction l as [|x l IH]; intros s k; simpl.
  - by destruct k.
  - destruct k as [|k]; simpl.
    + by rewrite Nat.add_0_r.
    + rewrite IH. destruct (l !! k); simpl; f_equal. f_equal. lia.
Qed.

Lemma length_enumerate_from {A} (l : list A) s : length (enumerate_from s l) = length l.
Proof. revert s; induction l; intros; simpl; auto. Qed.

Lemma length_generate base n : length (generate_chapter_urls base n) = Z.to_nat n.
Proof. unfold generate_chapter_urls, range1. by rewrite !length_map, length_seq. Qed.

Lemma generate_lookup base n k :
  k < Z.to_nat n ->
  generate_chapter_urls base n !! k
  = Some (rstrip_by is_slash base +:+ "/chapter-" +:+ str_nat (S k)).
Proof.
  intros Hk. unfold generate_chapter_urls, range1.
  rewrite !list_lookup_fmap. rewrite lookup_seq_lt by done. reflexivity.
Qed.

(** C6: for a positive total [N], the chapters that [run_bulk] walks
    through are exactly [N] pairs; the [i]-th one (from 1) carries the
    label [str(i)] and the address made of the base without its trailing
    slashes, ["/chapter-"] and [str(i)]. *)
Theorem enumerate_chapters (base : string) (N : Z) :
  (0 < N)%Z ->
  let stem := rstrip_by is_slash base in
  Z.of_nat (length (labelled_chapters base N)) = N
  /\ (forall i : nat, 1 <= i -> (Z.of_nat i <= N)%Z ->
        labelled_chapters base N !! (i - 1)
        = Some (str_nat i, stem +:+ "/chapter-" +:+ str_nat i))
  /\ (exists slashes, base = stem +:+ slashes /\ all_chars is_slash slashes = true)
  /\ (forall t, stem <> t +:+ "/").
Proof.
  intros HN stem. repeat split.
  - unfold labelled_chapters. rewrite length_map, length_enumerate_from, length_generate. lia.
  - intros i Hi HiN. unfold labelled_chapters.
    rewrite list_lookup_fmap, enumerate_from_lookup, generate_lookup by lia.
    simpl. replace (S (i - 1)) with i by lia. reflexivity.
  - apply rstrip_by_decomp.
  - intros t Ht. apply rstrip_by_last in Ht. discriminate.
Qed.

Lemma enumerate_chapters_witness :
  (0 < 3)%Z
  /\ labelled_chapters "https://site.example/series/one//" 3
     = [("1", "https://site.example/series/one/chapter-1");
        ("2", "https://site.example/series/one/chapter-2");
        ("3", "https://site.example/series/one/chapter-3")]
  /\ Z.of_nat (length (labelled_chapters "https://site.example/series/one//" 3)) = 3%Z.
Proof.
  split; [lia|]. split; [reflexivity|].
  apply (enumerate_chapters "https://site.example/series/one//" 3). lia.
Defined.

End EnumeratorFacts.

(** ** Series names *)

Module NamesFacts.
Import PyStr Names.
#[local] Arguments String.append !_ _ / : simpl nomatch.

Definition is_unsafe (c : ascii) : bool := negb (is_safe c).

(** The rule read character by character: every character outside the class becomes an
    underscore of its own. *)
Fixpoint replace_each_char (s : string) : string :=
  match s with
  | EmptyString => EmptyString
  | String c r => String (if is_safe c then c else "_"%char) (replace_each_char r)
  end.

Definition starts_safe (s : string) : Prop :=
  match s with
  | EmptyString => True
  | String c _ => is_safe c = true
  end.

(** [collapsed s t]: [t] is [s] with every maximal run of characters
    outside the class replaced by one underscore. *)
Inductive collapsed : string -> string -> Prop :=
| collapsed_nil : collapsed "" ""
| collapsed_safe c s t :
    is_safe c = true -> collapsed s t -> collapsed (String c s) (String c t)
| collapsed_run c run s t :
    all_chars is_unsafe (String c run) = true -> starts_safe s -> collapsed s t ->
    collapsed (String c run +:+ s) (String "_"%char t).

Lemma sub_unsafe_after_run run s :
  all_chars is_unsafe run = true -> starts_safe s ->
  sub_unsafe true (run +:+ s) = sub_unsafe false s.
Proof.
  induction run as [|c run IH]; simpl; intros Hrun Hs.
  - destruct s as [|a s]; simpl in *; [done | by rewrite Hs].
  - apply andb_prop in Hrun as [Hc Hrun]. unfold is_unsafe in Hc.
    apply negb_true_iff in Hc. rewrite Hc. auto.
Qed.

Lemma collapsed_sub s t : collapsed s t -> sub_unsafe false s = t.
Proof.
  induction 1 as [|c s t Hc _ IH|c run s t Hrun Hs _ IH]; simpl.
  - done.
  - by rewrite Hc, IH.
  - simpl in Hrun. apply andb_prop in Hrun as [Hc Hrun].
    unfold is_unsafe in Hc. apply negb_true_iff in Hc. rewrite Hc.
    by rewrite sub_unsafe_after_run, IH.
Qed.

Lemma collapsed_total s : exists t, collapsed s t.
Proof.
  induction s as [|c s [t Ht]].
  - exists "". constructor.
  - destruct (is_safe c) eqn:Hc.
    + exists (String c t). by constructor.
    + assert (Hu : is_unsafe c = true) by (unfold is_unsafe; by rewrite Hc).
      inversion Ht as [|a s' t' Ha Hs'|a run s' t' Hrun Hs' Hc']; subst.
      * exists "_". apply (collapsed_run c "" "" ""); simpl; auto using collapsed_nil.
        by rewrite Hu.
      * exists (String "_"%char (String a t')).
        apply (collapsed_run c "" (String a s')); simpl; auto.
        by rewrite Hu.
      * exists (String "_"%char t').
        apply (collapsed_run c (String a run) s' t'); auto.
        simpl. simpl in Hrun. by rewrite Hu, Hrun.
Qed.

Lemma all_safe_sub b s : all_chars is_safe (sub_unsafe b s) = true.
Proof.
  revert b. induction s as [|c s IH]; intros b; simpl; [done|].
  destruct (is_safe c) eqn:Hc; simpl.
  - by rewrite Hc, IH.
  - destruct b; simpl; auto.
Qed.

Lemma all_chars_lstrip p q s : all_chars p s = true -> all_chars p (lstrip_by q s) = true.
Proof.
  induction s as [|c s IH]; simpl; [done|]. intros H.
  apply andb_prop in H as [Hc Hs]. destruct (q c); simpl; [auto | by rewrite Hc, Hs].
Qed.

Lemma all_chars_rstrip p q s : all_chars p s = true -> all_chars p (rstrip_by q s) = true.
Proof.
  induction s as [|c s IH]; simpl; [done|]. intros H.
  apply andb_prop in H as [Hc Hs]. specialize (IH Hs).
  destruct (rstrip_by q s) eqn:E.
  - destruct (q c); simpl; [done | by rewrite Hc].
  - simpl. simpl in IH. by rewrite Hc, IH.
Qed.

(** C9, as amended: [sanitize_name] replaces every maximal run of
    characters outside [[A-Za-z0-9 _-]] by a single underscore, strips the
    white space at both ends, and falls back to ["series"] when nothing is
    left; the name it returns is never empty and has no character outside
    the class. *)
Theorem sanitize_name_runs (s : string) :
  exists t,
    collapsed s t
    /\ (forall t', collapsed s t' -> t' = t)
    /\ sanitize_name s = str_or (strip t) "series"
    /\ all_chars is_safe (sanitize_name s) = true
    /\ (1 <= String.length (sanitize_name s))%nat.
Proof.
  destruct (collapsed_total s) as [t Ht]. exists t.
  pose proof (collapsed_sub _ _ Ht) as Hsub.
  assert (Hsafe : all_chars is_safe (strip t) = true).
  { unfold strip. apply all_chars_lstrip, all_chars_rstrip.
    rewrite <- Hsub. apply all_safe_sub. }
  repeat split.
  - done.
  - intros t' Ht'. apply collapsed_sub in Ht'. congruence.
  - unfold sanitize_name, SAFE_NAME_RE_sub. by rewrite Hsub.
  - unfold sanitize_name, SAFE_NAME_RE_sub. rewrite Hsub.
    destruct (strip t); [reflexivity | done].
  - unfold sanitize_name, SAFE_NAME_RE_sub. rewrite Hsub.
    destruct (strip t); simpl; lia.
Qed.

(** C9 as stated fails: two adjacent characters outside the class give one
    underscore, and the length changes. *)
Lemma sanitize_name_not_per_char :
  sanitize_name "a!!b" = "a_b"
  /\ str_or (replace_each_char "a!!b") "series" = "a__b"
  /\ sanitize_name "a!!b" <> str_or (replace_each_char "a!!b") "series"
  /\ String.length (sanitize_name "!?#") = 1%nat
  /\ String.length "!?#" = 3%nat.
Proof.
  split; [reflexivity|]. split; [reflexivity|]. split; [discriminate|].
  split; reflexivity.
Qed.

End NamesFacts.

(** ** Page geometry *)

Module LayoutFacts.
Import Layout.
Local Open Scope Q_scope.

(** The defaulting rule in the words of the specification: the given
    value when it is positive, 96 when it is absent or not positive. *)
Definition default_96 (d : option Q) : Q :=
  match d with
  | Some x => if Qlt_le_dec 0 x then x else 96
  | None => 96
  end.

Lemma Qpos_nonzero x : 0 < x -> ~ x == 0.
Proof. intros Hx E. rewrite E in Hx. by apply Qlt_irrefl in Hx. Qed.

Lemma positive_iff x : positive x = true <-> 0 < x.
Proof.
  unfold positive. rewrite andb_true_iff, negb_true_iff, Qle_bool_iff.
  split.
  - intros [Hle Hne]. apply Qle_lteq in Hle as [Hlt | Heq]; [done|].
    symmetry in Heq. apply Qeq_bool_iff in Heq. congruence.
  - intros Hlt. split; [by apply Qlt_le_weak|].
    destruct (Qeq_bool x 0) eqn:E; [|done].
    apply Qeq_bool_iff in E. rewrite E in Hlt. by apply Qlt_irrefl in Hlt.
Qed.

Lemma truthy_iff x : truthy x = true <-> ~ x == 0.
Proof.
  unfold truthy. rewrite negb_true_iff. split.
  - intros E H. apply Qeq_bool_iff in H. congruence.
  - intros H. destruct (Qeq_bool x 0) eqn:E; [|done].
    apply Qeq_bool_iff in E. contradiction.
Qed.

Lemma dpi_or_default_spec d : dpi_or_default d = default_96 d.
Proof.
  destruct d as [x|]; simpl; [|done].
  destruct (Qlt_le_dec 0 x) as [Hlt | Hle].
  - assert (Hp : positive x = true) by by apply positive_iff.
    assert (Ht : truthy x = true).
    { apply truthy_iff. intros E. rewrite E in Hlt. by apply Qlt_irrefl in Hlt. }
    by rewrite Ht, Hp.
  - destruct (positive x) eqn:Hp.
    + apply positive_iff in Hp. exfalso. eapply Qlt_irrefl, Qlt_le_trans; eauto.
    + by rewrite andb_false_r.
Qed.

Lemma dpi_or_default_pos d : 0 < dpi_or_default d.
Proof.
  rewrite dpi_or_default_spec. destruct d as [x|]; simpl; [|done].
  by destruct (Qlt_le_dec 0 x).
Qed.

Lemma dpi_x_pos ndpi : 0 < dpi_x_of ndpi.
Proof. destruct ndpi as [[dx dy]|]; simpl; [apply dpi_or_default_pos | done]. Qed.

Lemma dpi_y_pos ndpi : 0 < dpi_y_of ndpi.
Proof. destruct ndpi as [[dx dy]|]; simpl; [apply dpi_or_default_pos | done]. Qed.

Lemma true_div_pos a b : 0 < b -> true_div a b = Some (a / b).
Proof.
  intros Hb. unfold true_div. destruct (Qeq_bool b 0) eqn:E; [|done].
  apply Qeq_bool_iff in E. rewrite E in Hb. by apply Qlt_irrefl in Hb.
Qed.

Lemma true_div_nonzero a b : ~ b == 0 -> true_div a b = Some (a / b).
Proof.
  intros Hb. unfold true_div. destruct (Qeq_bool b 0) eqn:E; [|done].
  apply Qeq_bool_iff in E. contradiction.
Qed.

(** The value of [img_w_pt] and of [img_h_pt]. *)
Definition width_pt (w : Z) (ndpi : dpi_pair) : Q := inject_Z w / dpi_x_of ndpi * 72.
Definition height_pt (h : Z) (ndpi : dpi_pair) : Q := inject_Z h / dpi_y_of ndpi * 72.

Lemma layout_unfold w h ndpi :
  layout_fun_fixed_width w h ndpi
  = let scale := if truthy (width_pt w ndpi) then 720 / width_pt w ndpi else 1 in
    Some (Geometry 720 (height_pt h ndpi * scale) 720 (height_pt h ndpi * scale)).
Proof.
  unfold layout_fun_fixed_width.
  rewrite (true_div_pos _ _ (dpi_x_pos ndpi)), (true_div_pos _ _ (dpi_y_pos ndpi)).
  simpl. fold (width_pt w ndpi) (height_pt h ndpi).
  destruct (truthy (width_pt w ndpi)) eqn:Ht; simpl.
  - apply truthy_iff in Ht. unfold page_width_pt. by rewrite (true_div_nonzero _ _ Ht).
  - done.
Qed.

Lemma width_pt_pos w ndpi : (0 < w)%Z -> 0 < width_pt w ndpi.
Proof.
  intros Hw. unfold width_pt.
  apply Qmult_lt_0_compat; [|done].
  apply Qlt_shift_div_l; [apply dpi_x_pos|].
  rewrite Qmult_0_l. unfold Qlt. simpl. lia.
Qed.

(** C2: for an image of positive pixel width the page is 720pt wide and
    its height is (height px / DPI_y) x 72 x (720 / ((width px / DPI_x) x 72)),
    with each DPI replaced by 96 when it is absent or not positive; the
    height is 720 times the ratio of the physical height to the physical
    width. *)
Theorem layout_fixed_width_formula (w h : Z) (ndpi : dpi_pair) :
  (0 < w)%Z ->
  let dpi_x := default_96 (ndpi ≫= fst) in
  let dpi_y := default_96 (ndpi ≫= snd) in
  exists g,
    layout_fun_fixed_width w h ndpi = Some g
    /\ page_w g = 720
    /\ page_h g = (inject_Z h / dpi_y) * 72 * (720 / ((inject_Z w / dpi_x) * 72))
    /\ page_h g == 720 * ((inject_Z h / dpi_y) / (inject_Z w / dpi_x)).
Proof.
  intros Hw dpi_x dpi_y.
  assert (Hx : dpi_x_of ndpi = dpi_x).
  { unfold dpi_x. destruct ndpi as [[dx dy]|]; simpl; [apply dpi_or_default_spec | done]. }
  assert (Hy : dpi_y_of ndpi = dpi_y).
  { unfold dpi_y. destruct ndpi as [[dx dy]|]; simpl; [apply dpi_or_default_spec | done]. }
  pose proof (width_pt_pos w ndpi Hw) as Hpos.
  assert (Ht : truthy (width_pt w ndpi) = true).
  { apply truthy_iff. intros E. rewrite E in Hpos. by apply Qlt_irrefl in Hpos. }
  rewrite layout_unfold. simpl. rewrite Ht.
  eexists. split; [reflexivity|]. simpl.
  unfold height_pt, width_pt. rewrite Hx, Hy.
  split; [done|]. split; [done|].
  pose proof (dpi_x_pos ndpi) as Hdx. pose proof (dpi_y_pos ndpi) as Hdy.
  rewrite Hx in Hdx. rewrite Hy in Hdy.
  assert (Hw' : ~ inject_Z w == 0).
  { intros E. unfold Qeq in E. simpl in E. lia. }
  field. repeat split; auto using Qpos_nonzero.
Qed.

(** On rationals [layout_fun_fixed_width] returns a geometry for every
    input: both DPI values in use are positive, and when the width in
    points is zero the scale is 1; the page is 720pt wide. *)
Lemma layout_exact_total (w h : Z) (ndpi : dpi_pair) :
  exists g,
    layout_fun_fixed_width w h ndpi = Some g
    /\ page_w g = 720 /\ img_w g = 720 /\ img_h g = page_h g
    /\ 0 < dpi_x_of ndpi /\ 0 < dpi_y_of ndpi
    /\ (width_pt w ndpi == 0 -> page_h g = height_pt h ndpi * 1)
    /\ (~ width_pt w ndpi == 0 -> page_h g = height_pt h ndpi * (720 / width_pt w ndpi)).
Proof.
  rewrite layout_unfold. eexists. split; [reflexivity|]. simpl.
  repeat split; auto using dpi_x_pos, dpi_y_pos.
  - intros E. destruct (truthy (width_pt w ndpi)) eqn:Ht; [|done].
    apply truthy_iff in Ht. contradiction.
  - intros E. apply truthy_iff in E. by rewrite E.
Qed.

Lemma layout_fixed_width_formula_witness :
  (0 < 800)%Z
  /\ exists g, layout_fun_fixed_width 800 1200 (Some (Some 72, None)) = Some g
             /\ page_w g = 720
             /\ page_h g = (inject_Z 1200 / 96) * 72 * (720 / ((inject_Z 800 / 72) * 72))
             /\ page_h g == 720 * ((inject_Z 1200 / 96) / (inject_Z 800 / 72)).
Proof.
  split; [reflexivity|].
  apply (layout_fixed_width_formula 800 1200 (Some (Some 72, None))). reflexivity.
Defined.

End LayoutFacts.

(** ** The layout rule on floats *)

Module FloatLayoutFacts.
Import FloatLayout.
Local Open Scope Q_scope.

(** *** No division by zero *)

Lemma div_done x y : is_zero y = false -> exists r, div x y = Done r.
Proof.
  intros H. unfold div. rewrite H.
  destruct x as [a|s|], y as [b|t|]; by eexists.
Qed.

Lemma positive_not_zero x : positive (Flt x) = true -> is_zero x = false.
Proof.
  destruct x as [q|s|]; simpl; try done.
  intros H. apply andb_prop in H as [_ H]. by apply negb_true_iff in H.
Qed.

(** The divisor that the rule makes of one component of [ndpi]: a positive
    [int] or a positive float. *)
Lemma dpi_or_default_positive d :
  truthy (dpi_or_default d) = true /\ positive (dpi_or_default d) = true.
Proof.
  destruct d as [n|]; simpl; [|done].
  destruct (truthy n) eqn:Ht; simpl; [|done].
  by destruct (positive n) eqn:Hp.
Qed.

Lemma dpi_x_positive ndpi : positive (dpi_x_of ndpi) = true.
Proof. destruct ndpi as [[dx dy]|]; simpl; [apply dpi_or_default_positive | done]. Qed.

Lemma dpi_y_positive ndpi : positive (dpi_y_of ndpi) = true.
Proof. destruct ndpi as [[dx dy]|]; simpl; [apply dpi_or_default_positive | done]. Qed.

Lemma true_div_positive z n :
  positive n = true ->
  true_div (Int z) n = Raised OverflowError \/ exists r, true_div (Int z) n = Done r.
Proof.
  intros Hp. destruct n as [y|x]; simpl.
  - simpl in Hp. apply Z.ltb_lt in Hp.
    rewrite (proj2 (Z.eqb_neq y 0)) by lia.
    destruct (round (inject_Z z / inject_Z y)); [right | left | right]; by eexists.
  - unfold of_int. destruct (Qle_bool overflow_from (Qabs (inject_Z z))); simpl; [by left|].
    right. apply div_done. by apply positive_not_zero.
Qed.

Lemma layout_no_zero_division w h ndpi :
  layout_fun_fixed_width w h ndpi <> Raised ZeroDivisionError.
Proof.
  unfold layout_fun_fixed_width.
  destruct (true_div_positive w _ (dpi_x_positive ndpi)) as [-> | [a ->]]; [done|].
  destruct (true_div_positive h _ (dpi_y_positive ndpi)) as [-> | [b ->]]; [done|].
  simpl. destruct (is_zero (mul a (Fin 72))) eqn:Hz; simpl; [done|].
  destruct (div_done (Fin (inject_Z page_width_pt)) _ Hz) as [r ->]. done.
Qed.

Lemma layout_widths w h ndpi g :
  layout_fun_fixed_width w h ndpi = Done g ->
  page_w g = 720%Z /\ img_w g = 720%Z /\ img_h g = page_h g.
Proof.
  unfold layout_fun_fixed_width. cbv zeta.
  destruct (true_div (Int w) (dpi_x_of ndpi)) as [a|e]; cbn [and_then]; [|discriminate].
  destruct (true_div (Int h) (dpi_y_of ndpi)) as [b|e]; cbn [and_then]; [|discriminate].
  destruct (negb (is_zero (mul a (Fin 72)))).
  - destruct (div (Fin (inject_Z page_width_pt)) (mul a (Fin 72)));
      cbn [and_then]; [|discriminate].
    by intros [= <-].
  - cbn [and_then]. by intros [= <-].
Qed.

(** When the width in points is zero, the scale is 1. *)
Lemma layout_zero_width w h ndpi a b :
  true_div (Int w) (dpi_x_of ndpi) = Done a ->
  true_div (Int h) (dpi_y_of ndpi) = Done b ->
  is_zero (mul a (Fin 72)) = true ->
  layout_fun_fixed_width w h ndpi
  = Done (Geometry 720 (mul (mul b (Fin 72)) (Fin 1)) 720 (mul (mul b (Fin 72)) (Fin 1))).
Proof.
  intros Ha Hb Hz. unfold layout_fun_fixed_width. rewrite Ha, Hb. simpl. by rewrite Hz.
Qed.

(** *** Sizes that stay within the range *)

(** [q] is zero, or its magnitude lies between [1/K] and [K]. *)
Definition within (K q : Q) : Prop :=
  q == 0 \/ (/ K <= Qabs q /\ Qabs q <= K).

Lemma Qinv_le_inv a b : 0 < a -> a <= b -> / b <= / a.
Proof.
  intros Ha Hab. assert (Hb : 0 < b) by (eapply Qlt_le_trans; eauto).
  apply Qle_shift_inv_l; [done|].
  rewrite Qmult_comm. change (a / b <= 1).
  apply Qle_shift_div_r; [done|]. by rewrite Qmult_1_l.
Qed.

Lemma within_mult K1 K2 a b :
  0 < K1 -> 0 < K2 -> within K1 a -> within K2 b -> within (K1 * K2) (a * b).
Proof.
  intros H1 H2 [Ha | [Ha1 Ha2]] Hb.
  { left. rewrite Ha. apply Qmult_0_l. }
  destruct Hb as [Hb | [Hb1 Hb2]].
  { left. rewrite Hb. apply Qmult_0_r. }
  right. rewrite Qabs_Qmult, Qinv_mult_distr. split.
  - apply Qmult_le_compat_nonneg; split; try done;
      apply Qlt_le_weak; by apply Qinv_lt_0_compat.
  - apply Qmult_le_compat_nonneg; split; try done; apply Qabs_nonneg.
Qed.

Lemma within_inv K a : 0 < K -> within K a -> within K (/ a).
Proof.
  intros HK [Ha | [Ha1 Ha2]].
  { left. by rewrite Ha. }
  assert (Hpos : 0 < Qabs a).
  { eapply Qlt_le_trans; [|exact Ha1]. by apply Qinv_lt_0_compat. }
  right. rewrite Qabs_Qinv. split.
  - by apply Qinv_le_inv.
  - rewrite <- (Qinv_involutive K). apply Qinv_le_inv; [|done].
    by apply Qinv_lt_0_compat.
Qed.

Lemma within_div K1 K2 a b :
  0 < K1 -> 0 < K2 -> within K1 a -> within K2 b -> within (K1 * K2) (a / b).
Proof. intros H1 H2 Ha Hb. apply within_mult; try done. by apply within_inv. Qed.

Lemma inject_Z_pos n : (0 < n)%Z -> 0 < inject_Z n.
Proof. intros H. unfold Qlt. simpl. lia. Qed.

Lemma within_Z n z : (0 < n)%Z -> (Z.abs z <= n)%Z -> within (inject_Z n) (inject_Z z).
Proof.
  intros Hn Hz. destruct (Z.eq_dec z 0%Z) as [-> | Hne]; [by left|]. right.
  assert (Habs : Qabs (inject_Z z) = inject_Z (Z.abs z)) by reflexivity.
  rewrite Habs. split.
  - apply Qle_trans with (inject_Z 1).
    + apply Qle_shift_inv_r; [by apply inject_Z_pos|].
      unfold Qle. simpl. lia.
    + rewrite <- Zle_Qle. lia.
  - rewrite <- Zle_Qle. lia.
Qed.

Definition big : Q := inject_Z (2 ^ 1000).

Lemma big_below_overflow : big < overflow_from.
Proof. unfold Qlt. vm_compute. reflexivity. Qed.

Lemma underflow_below_big : underflow_to < / big.
Proof. unfold Qlt. vm_compute. reflexivity. Qed.

(** A value within a bound of at most [2^1000] is a double as it is, up
    to rounding within the range. *)
Lemma round_within K q : 0 < K -> K <= big -> within K q -> round q = Fin q.
Proof.
  intros HK Hbig Hq. unfold round.
  assert (Hover : Qle_bool overflow_from (Qabs q) = false).
  { destruct (Qle_bool overflow_from (Qabs q)) eqn:E; [|done].
    apply Qle_bool_iff in E. exfalso.
    assert (Hle : Qabs q <= big).
    { destruct Hq as [H0 | [_ H]].
      - rewrite H0. simpl. by apply Qlt_le_weak, (Qlt_le_trans _ K).
      - by apply (Qle_trans _ K). }
    apply (Qlt_irrefl big).
    eapply Qlt_le_trans; [apply big_below_overflow|].
    by apply (Qle_trans _ (Qabs q)). }
  rewrite Hover.
  destruct (Qeq_bool q 0) eqn:E0; [done|]. simpl.
  destruct (Qle_bool (Qabs q) underflow_to) eqn:E; [|done].
  apply Qle_bool_iff in E. exfalso.
  destruct Hq as [H0 | [H _]].
  - apply Qeq_bool_neq in E0. contradiction.
  - apply (Qlt_irrefl underflow_to).
    eapply Qlt_le_trans; [apply underflow_below_big|].
    apply (Qle_trans _ (/ K)); [by apply Qinv_le_inv|].
    by apply (Qle_trans _ (Qabs q)).
Qed.

Lemma round_in K q : within K q -> 0 < K -> K <= big -> round q = Fin q.
Proof. intros H HK Hbig. by apply (round_within K). Qed.

Ltac in_range H := rewrite (round_in _ _ H) by (reflexivity || by vm_compute).

Lemma within_not_overflow K q :
  0 < K -> K <= big -> within K q -> Qle_bool overflow_from (Qabs q) = false.
Proof.
  intros HK Hbig Hq. pose proof (round_within K q HK Hbig Hq) as H.
  unfold round in H. by destruct (Qle_bool overflow_from (Qabs q)).
Qed.

(** *** Agreement with the rule on rationals *)

Definition K64 : Q := inject_Z (2 ^ 64).

Lemma K64_pos : 0 < K64.
Proof. reflexivity. Qed.

Lemma within_Z64 z : (Z.abs z <= 2 ^ 64)%Z -> within K64 (inject_Z z).
Proof. intros H. by apply within_Z. Qed.

Lemma dpi_default_exact d dq :
  exact_component d = Some dq -> moderate dq ->
  exact (dpi_or_default d) = Some (Layout.dpi_or_default dq)
  /\ 0 < Layout.dpi_or_default dq
  /\ within K64 (Layout.dpi_or_default dq).
Proof.
  intros Hd Hm. split; [|split; [apply LayoutFacts.dpi_or_default_pos|]].
  - destruct d as [[z|[q|s|]]|]; simpl in Hd; try done; injection Hd as <-; simpl.
    + destruct (Z.ltb_spec 0 z) as [Hz | Hz].
      * assert (Hq : 0 < inject_Z z) by by apply inject_Z_pos.
        rewrite (proj2 (Z.eqb_neq z 0)) by lia. simpl.
        rewrite (proj2 (LayoutFacts.positive_iff _) Hq).
        rewrite (proj2 (LayoutFacts.truthy_iff _) (LayoutFacts.Qpos_nonzero _ Hq)).
        done.
      * rewrite andb_false_r.
        destruct (Layout.positive (inject_Z z)) eqn:Hp.
        { apply LayoutFacts.positive_iff in Hp. unfold Qlt in Hp. simpl in Hp. lia. }
        by rewrite andb_false_r.
    + unfold Layout.truthy, Layout.positive.
      by destruct (negb (Qeq_bool q 0) && (Qle_bool 0 q && negb (Qeq_bool q 0))).
    + done.
  - rewrite LayoutFacts.dpi_or_default_spec. destruct dq as [x|]; simpl.
    + destruct (Qlt_le_dec 0 x) as [Hx | Hx]; [|by apply (within_Z64 96)].
      destruct Hm as [Hle | [H1 H2]].
      { exfalso. apply (Qlt_irrefl 0). by apply (Qlt_le_trans _ x). }
      right. rewrite Qabs_pos by by apply Qlt_le_weak. done.
    + by apply (within_Z64 96).
Qed.

Lemma true_div_exact z n q :
  (Z.abs z <= 2 ^ 64)%Z -> exact n = Some q -> 0 < q -> within K64 q ->
  true_div (Int z) n = Done (Fin (inject_Z z / q))
  /\ within (K64 * K64) (inject_Z z / q).
Proof.
  intros Hz Hn Hq Hw.
  assert (Hin : within (K64 * K64) (inject_Z z / q)).
  { apply within_div; try done. by apply within_Z64. }
  split; [|done].
  assert (Hr : round (inject_Z z / q) = Fin (inject_Z z / q)).
  { by apply (round_within (K64 * K64)). }
  destruct n as [y|[q'|s|]]; simpl in Hn; try done; injection Hn as <-.
  - simpl. assert (Hy : y <> 0%Z).
    { intros ->. by apply Qlt_irrefl in Hq. }
    rewrite (proj2 (Z.eqb_neq y 0) Hy). by rewrite Hr.
  - simpl. unfold of_int.
    rewrite (within_not_overflow K64 (inject_Z z)) by (try done; by apply within_Z64).
    simpl. unfold div. simpl.
    destruct (Qeq_bool q' 0) eqn:E.
    { apply Qeq_bool_iff in E. by apply LayoutFacts.Qpos_nonzero in Hq. }
    by rewrite Hr.
Qed.

Lemma dpi_pair_exact ndpi ndpi_q :
  exact_dpi ndpi = Some ndpi_q ->
  match ndpi_q with
  | None => True
  | Some (dx, dy) => moderate dx /\ moderate dy
  end ->
  (exact (dpi_x_of ndpi) = Some (Layout.dpi_x_of ndpi_q)
   /\ 0 < Layout.dpi_x_of ndpi_q /\ within K64 (Layout.dpi_x_of ndpi_q))
  /\ (exact (dpi_y_of ndpi) = Some (Layout.dpi_y_of ndpi_q)
      /\ 0 < Layout.dpi_y_of ndpi_q /\ within K64 (Layout.dpi_y_of ndpi_q)).
Proof.
  intros He Hm. destruct ndpi as [[dx dy]|]; simpl in He.
  - destruct (exact_component dx) as [qx|] eqn:Hx; simpl in He; [|done].
    destruct (exact_component dy) as [qy|] eqn:Hy; simpl in He; [|done].
    injection He as <-. destruct Hm as [Hmx Hmy]. simpl.
    split; by apply dpi_default_exact.
  - injection He as <-. simpl. split; (split; [done|]); split; try done;
      by apply (within_Z64 96).
Qed.

(** For pixel sizes and resolutions as images have them no intermediate
    value leaves the range: the rule on floats returns the geometry of
    the rule on rationals. *)
Lemma layout_image_sized w h ndpi ndpi_q :
  exact_dpi ndpi = Some ndpi_q -> image_sized w h ndpi_q ->
  exists g,
    Layout.layout_fun_fixed_width w h ndpi_q = Some g
    /\ layout_fun_fixed_width w h ndpi
       = Done (Geometry 720 (Fin (Layout.page_h g)) 720 (Fin (Layout.page_h g))).
Proof.
  intros He (Hw & Hh & Hm).
  destruct (dpi_pair_exact ndpi ndpi_q He Hm) as [(Hx & Hxp & Hxw) (Hy & Hyp & Hyw)].
  destruct (true_div_exact w _ _ Hw Hx Hxp Hxw) as [Hdw Hww].
  destruct (true_div_exact h _ _ Hh Hy Hyp Hyw) as [Hdh Hhw].
  rewrite LayoutFacts.layout_unfold. cbv zeta. eexists. split; [reflexivity|].
  unfold layout_fun_fixed_width. cbv zeta. rewrite Hdw, Hdh. cbn [and_then].
  assert (H72 : within (inject_Z 128) 72) by (by apply (within_Z 128 72)).
  assert (H720 : within (inject_Z 1024) (inject_Z 720)) by (by apply (within_Z 1024 720)).
  assert (Hwpt : within (K64 * K64 * inject_Z 128)
                   (inject_Z w / Layout.dpi_x_of ndpi_q * 72)).
  { by apply within_mult. }
  assert (Hhpt : within (K64 * K64 * inject_Z 128)
                   (inject_Z h / Layout.dpi_y_of ndpi_q * 72)).
  { by apply within_mult. }
  cbn [mul]. in_range Hwpt. in_range Hhpt.
  cbn [is_zero Layout.page_h].
  unfold LayoutFacts.width_pt, LayoutFacts.height_pt, Layout.truthy.
  destruct (Qeq_bool (inject_Z w / Layout.dpi_x_of ndpi_q * 72) 0) eqn:E;
    cbn [negb and_then].
  - cbn [mul].
    assert (Hs : within (K64 * K64 * inject_Z 128 * inject_Z 1)
                   (inject_Z h / Layout.dpi_y_of ndpi_q * 72 * 1)).
    { apply within_mult; try done. by apply (within_Z 1 1). }
    by in_range Hs.
  - unfold div. cbn [is_zero]. rewrite E.
    assert (Hsc : within (inject_Z 1024 * (K64 * K64 * inject_Z 128))
                    (inject_Z page_width_pt / (inject_Z w / Layout.dpi_x_of ndpi_q * 72))).
    { by apply within_div. }
    in_range Hsc.
    cbn [and_then mul].
    assert (Hs : within (K64 * K64 * inject_Z 128
                         * (inject_Z 1024 * (K64 * K64 * inject_Z 128)))
                   (inject_Z h / Layout.dpi_y_of ndpi_q * 72
                    * (inject_Z page_width_pt
                       / (inject_Z w / Layout.dpi_x_of ndpi_q * 72)))).
    { by apply within_mult. }
    by in_range Hs.
Qed.

(** C10, as amended: on floats the rule never divides by zero, whatever
    the pixel sizes and the resolutions: it returns a page or raises
    [OverflowError]; a page that it returns is 720pt wide and filled by
    the image; when the width in points is zero the scale is 1; and for
    pixel sizes of at most [2^64] with resolutions that are absent, not
    positive or between [2^-64] and [2^64], it returns the page of the
    rule on rationals, whose height is finite. *)
Theorem layout_total_on_floats (w h : Z) (ndpi : dpi_pair) :
  layout_fun_fixed_width w h ndpi <> Raised ZeroDivisionError
  /\ (forall g, layout_fun_fixed_width w h ndpi = Done g ->
        page_w g = 720%Z /\ img_w g = 720%Z /\ img_h g = page_h g)
  /\ (forall a b,
        true_div (Int w) (dpi_x_of ndpi) = Done a ->
        true_div (Int h) (dpi_y_of ndpi) = Done b ->
        is_zero (mul a (Fin 72)) = true ->
        layout_fun_fixed_width w h ndpi
        = Done (Geometry 720 (mul (mul b (Fin 72)) (Fin 1))
                  720 (mul (mul b (Fin 72)) (Fin 1))))
  /\ (forall ndpi_q,
        exact_dpi ndpi = Some ndpi_q -> image_sized w h ndpi_q ->
        exists g,
          Layout.layout_fun_fixed_width w h ndpi_q = Some g
          /\ layout_fun_fixed_width w h ndpi
             = Done (Geometry 720 (Fin (Layout.page_h g)) 720 (Fin (Layout.page_h g)))).
Proof.
  split; [apply layout_no_zero_division|].
  split; [apply layout_widths|].
  split; [apply layout_zero_width | apply layout_image_sized].
Qed.

Lemma layout_total_on_floats_witness :
  exact_dpi (Some (Some (Int 72), None)) = Some (Some (Some 72, None))
  /\ image_sized 800 1200 (Some (Some 72, None))
  /\ layout_fun_fixed_width 0 1200 None
     = Done (Geometry 720 (Fin (86400 # 96)) 720 (Fin (86400 # 96)))
  /\ exists g,
       Layout.layout_fun_fixed_width 800 1200 (Some (Some 72, None)) = Some g
       /\ layout_fun_fixed_width 800 1200 (Some (Some (Int 72), None))
          = Done (Geometry 720 (Fin (Layout.page_h g)) 720 (Fin (Layout.page_h g))).
Proof.
  assert (H1 : exact_dpi (Some (Some (Int 72), None)) = Some (Some (Some 72, None)))
    by reflexivity.
  assert (H2 : image_sized 800 1200 (Some (Some 72, None))).
  { split; [by vm_compute|]. split; [by vm_compute|]. split; [|exact I].
    right. split; by vm_compute. }
  split; [exact H1|]. split; [exact H2|]. split.
  - destruct (layout_total_on_floats 0 1200 None) as (_ & _ & Hz & _).
    exact (Hz (Fin (0 # 96)) (Fin (1200 # 96)) eq_refl eq_refl eq_refl).
  - destruct (layout_total_on_floats 800 1200 (Some (Some (Int 72), None)))
      as (_ & _ & _ & Hi).
    exact (Hi _ H1 H2).
Defined.

(** C10 as stated fails: a pixel width of [10^400] is an input on which
    the rule raises [OverflowError] and returns no page, and with
    resolutions of [1e-320] the sizes in inches are infinite, the scale is
    zero and the height of the page is NaN. *)
Lemma layout_leaves_the_floats :
  layout_fun_fixed_width (10 ^ 400) 1 None = Raised OverflowError
  /\ layout_fun_fixed_width 1 1
       (Some (Some (Flt (Fin (1 # 10 ^ 320))), Some (Flt (Fin (1 # 10 ^ 320)))))
     = Done (Geometry 720 NaN 720 NaN).
Proof. split; vm_compute; reflexivity. Qed.

End FloatLayoutFacts.

(** ** The job list and the destination names *)

Module DownloaderFacts.
Import PyStr Env Url Downloader Assembler StrFacts.
#[local] Arguments String.append !_ _ / : simpl nomatch.

(** *** Lexicographic order *)

Lemma ascii_compare_refl c : Ascii.compare c c = Eq.
Proof. unfold Ascii.compare. apply N.compare_refl. Qed.

Lemma compare_app_prefix p x y : String.compare (p +:+ x) (p +:+ y) = String.compare x y.
Proof. induction p as [|c p IH]; simpl; [done|]. by rewrite ascii_compare_refl. Qed.

Lemma compare_app_lt a b x y :
  String.length a = String.length b ->
  String.compare a b = Lt -> String.compare (a +:+ x) (b +:+ y) = Lt.
Proof.
  revert b. induction a as [|c a IH]; intros [|d b]; simpl; try discriminate.
  intros Hlen. destruct (Ascii.compare c d); try done. apply IH. lia.
Qed.

Lemma str_ltb_app a b x y :
  String.length a = String.length b ->
  str_ltb a b = true -> str_ltb (a +:+ x) (b +:+ y) = true.
Proof.
  unfold str_ltb, String.ltb. intros Hlen H.
  destruct (String.compare a b) eqn:E; try discriminate.
  by rewrite (compare_app_lt _ _ _ _ Hlen E).
Qed.

Lemma str_ltb_prefix p x y : str_ltb (p +:+ x) (p +:+ y) = str_ltb x y.
Proof. unfold str_ltb, String.ltb. by rewrite compare_app_prefix. Qed.

Lemma str_ltb_leb x y : str_ltb x y = true -> str_leb x y = true.
Proof.
  unfold str_ltb, str_leb, String.ltb, String.leb.
  by destruct (String.compare x y).
Qed.

(** *** Sorting a list that is already in strict order *)

Lemma insert_by_head x l :
  Forall (str_lt x) l -> insert_by str_leb x l = x :: l.
Proof.
  destruct l as [|y l]; simpl; [done|]. intros H.
  apply Forall_inv in H. by rewrite (str_ltb_leb _ _ H).
Qed.

Lemma py_sorted_id l : StronglySorted str_lt l -> py_sorted l = l.
Proof.
  unfold py_sorted. induction 1 as [|x l Hs IH Hx]; simpl; [done|].
  rewrite IH. by apply insert_by_head.
Qed.

Lemma StronglySorted_map_prefix p l :
  StronglySorted str_lt l -> StronglySorted str_lt (map (String.append p) l).
Proof.
  induction 1 as [|x l Hs IH Hx]; simpl; constructor; [done|].
  apply Forall_map. eapply Forall_impl; [exact Hx|].
  intros y Hy. unfold str_lt. by rewrite str_ltb_prefix.
Qed.

(** *** The three-digit prefixes *)

Definition stems : list string := map (fun k => fmt_03d (Z.of_nat k)) (seq 1 999).

Fixpoint increasing_b (l : list string) : bool :=
  match l with
  | [] => true
  | x :: r => forallb (str_ltb x) r && increasing_b r
  end.

Definition stem_ok (s : string) : bool :=
  (String.length s =? 3)%nat && negb (String.prefix "/" s).

Lemma stems_checked : increasing_b stems && forallb stem_ok stems = true.
Proof. vm_compute. reflexivity. Qed.

Lemma increasing_b_lookup l i j x y :
  increasing_b l = true -> i < j -> l !! i = Some x -> l !! j = Some y ->
  str_ltb x y = true.
Proof.
  revert i j. induction l as [|a l IH]; intros i j Hl Hij Hi Hj; [done|].
  simpl in Hl. apply andb_prop in Hl as [Ha Hl].
  destruct j as [|j]; [lia|]. simpl in Hj. destruct i as [|i]; simpl in Hi.
  - injection Hi as ->. rewrite forallb_forall in Ha. apply Ha.
    apply list_elem_of_In. by eapply list_elem_of_lookup_2.
  - eapply (IH i j); eauto. lia.
Qed.

Lemma stems_lookup k :
  1 <= k <= 999 -> stems !! (k - 1) = Some (fmt_03d (Z.of_nat k)).
Proof.
  intros Hk. unfold stems. rewrite list_lookup_fmap, lookup_seq_lt by lia.
  simpl. do 3 f_equal. lia.
Qed.

Lemma fmt_03d_lt i j :
  1 <= i -> i < j -> j <= 999 ->
  str_ltb (fmt_03d (Z.of_nat i)) (fmt_03d (Z.of_nat j)) = true.
Proof.
  intros Hi Hij Hj. pose proof stems_checked as H.
  apply andb_prop in H as [H _].
  apply (increasing_b_lookup stems (i - 1) (j - 1)); auto using stems_lookup with lia.
Qed.

Lemma fmt_03d_ok k :
  1 <= k <= 999 -> stem_ok (fmt_03d (Z.of_nat k)) = true.
Proof.
  intros Hk. pose proof stems_checked as H. apply andb_prop in H as [_ H].
  rewrite forallb_forall in H. apply H. apply list_elem_of_In.
  eapply list_elem_of_lookup_2. by apply stems_lookup.
Qed.

(** *** The job list *)

Section Jobs.
Context (O : Oracle).

(** The addresses that pass [_is_valid_image_url]. *)
Definition survives (u : string) : bool :=
  bool_decide (_is_valid_image_url O u = Some true).


Lemma valid_unfold u parsed :
  urlparse O u = Some parsed ->
  _is_valid_image_url O u
  = Some (str_in (lower (scheme parsed)) ["http"; "https"]
          && negb (endswith_any (lower (path parsed)) [".svg"; ".ico"])).
Proof.
  intros Hp. unfold _is_valid_image_url. rewrite Hp. cbn [mbind option_bind].
  destruct (str_in _ _); cbn [negb andb]; [|done].
  by destruct (endswith_any _ _).
Qed.


Lemma valid_is_Some u : is_Some (urlparse O u) -> is_Some (_is_valid_image_url O u).
Proof. intros [parsed Hp]. rewrite (valid_unfold u parsed Hp). by eexists. Qed.

(** The file name that the loop gives to the job [j]. *)
Definition names_job (out_dir : string) (j : job) : Prop :=
  exists parsed,
    urlparse O (job_url j) = Some parsed
    /\ job_dest j
       = path_join out_dir (fmt_03d (Z.of_nat (job_idx j)) +:+ dest_ext (path parsed)).

Lemma build_jobs_spec out_dir urls : forall idx jobs,
  build_jobs O out_dir idx urls = Some jobs ->
  map job_url jobs = List.filter survives urls
  /\ map job_idx jobs = seq (S idx) (length jobs)
  /\ Forall (names_job out_dir) jobs.
Proof.
  induction urls as [|u urls IH]; intros idx jobs H; simpl in H.
  - injection H as <-. by repeat split.
  - unfold survives at 1. simpl.
    destruct (_is_valid_image_url O u) as [[|]|] eqn:Hv; simpl in H; [| |done].
    + destruct (urlparse O u) as [parsed|] eqn:Hp; simpl in H; [|done].
      destruct (build_jobs O out_dir (S idx) urls) as [tail|] eqn:Ht; simpl in H; [|done].
      injection H as <-. destruct (IH _ _ Ht) as (Hu & Hi & Hn).
      rewrite bool_decide_eq_true_2 by done. simpl. repeat split.
      * by rewrite Hu.
      * by rewrite Hi.
      * constructor; [|done]. by exists parsed.
    + rewrite bool_decide_eq_false_2 by done. by apply IH.
Qed.

Lemma build_jobs_total out_dir urls : forall idx,
  (forall u, In u urls -> is_Some (urlparse O u)) ->
  is_Some (build_jobs O out_dir idx urls).
Proof.
  induction urls as [|u urls IH]; intros idx H; simpl; [by eexists|].
  destruct (valid_is_Some u) as [v Hv]; [apply H; by left|].
  rewrite Hv. simpl. destruct v; simpl.
  - destruct (H u) as [parsed Hp]; [by left|]. rewrite Hp. simpl.
    destruct (IH (S idx)) as [tail Ht]; [intros; apply H; by right|].
    rewrite Ht. by eexists.
  - apply IH. intros; apply H; by right.
Qed.



(** The file name [f"{idx:03d}{ext}"] of the job [j]. *)
Definition job_filename (j : job) : string :=
  fmt_03d (Z.of_nat (job_idx j))
  +:+ match urlparse O (job_url j) with
      | Some parsed => dest_ext (path parsed)
      | None => ".jpg"
      end.

Lemma dest_ext_cases p : In (dest_ext p) [".jpg"; ".jpeg"; ".png"; ".webp"].
Proof.
  unfold dest_ext. destruct (str_in _ _) eqn:E; [|by left].
  unfold str_in in E. apply existsb_exists in E as (x & Hx & E).
  apply String.eqb_eq in E. by subst.
Qed.

Lemma path_join_prefix a b :
  String.prefix "/" b = false -> path_join a b = folder_prefix a +:+ b.
Proof.
  intros Hb. unfold path_join, folder_prefix, startswith. rewrite Hb.
  destruct (_ || _); [done|]. by rewrite append_assoc.
Qed.

Lemma prefix_slash_app s e :
  stem_ok s = true -> String.prefix "/" (s +:+ e) = false.
Proof.
  unfold stem_ok. intros H. apply andb_prop in H as [Hl Hp].
  apply negb_true_iff in Hp. destruct s as [|c s]; [done|].
  change (String c s +:+ e) with (String c (s +:+ e)).
  change ((if ascii_dec "/" c then String.prefix "" s else false) = false) in Hp.
  change ((if ascii_dec "/" c then String.prefix "" (s +:+ e) else false) = false).
  revert Hp. destruct (ascii_dec "/" c); [|done].
  intros Hp. by destruct s.
Qed.

Lemma job_dest_prefix out_dir j :
  1 <= job_idx j <= 999 -> names_job out_dir j ->
  job_dest j = folder_prefix out_dir +:+ job_filename j.
Proof.
  intros Hk (parsed & Hp & Hd). unfold job_filename. rewrite Hp, Hd.
  apply path_join_prefix, prefix_slash_app. by apply fmt_03d_ok.
Qed.

Lemma job_filename_lt j j' :
  1 <= job_idx j -> job_idx j < job_idx j' -> job_idx j' <= 999 ->
  str_lt (job_filename j) (job_filename j').
Proof.
  intros H1 H2 H3. unfold str_lt, job_filename. apply str_ltb_app.
  - pose proof (fmt_03d_ok (job_idx j)) as Ha.
    pose proof (fmt_03d_ok (job_idx j')) as Hb.
    unfold stem_ok in Ha, Hb.
    rewrite andb_true_iff, Nat.eqb_eq in Ha, Hb.
    destruct Ha as [-> _]; [lia|]. destruct Hb as [-> _]; [lia|]. done.
  - by apply fmt_03d_lt.
Qed.

Lemma filenames_sorted jobs : forall start,
  1 <= start -> start + length jobs <= 1000 ->
  map job_idx jobs = seq start (length jobs) ->
  StronglySorted str_lt (map job_filename jobs).
Proof.
  induction jobs as [|j jobs IH]; intros start H1 H2 Hidx; simpl in *.
  - constructor.
  - injection Hidx as Hj Hrest. constructor.
    + apply (IH (S start)); auto with lia.
    + apply Forall_map, Forall_forall. intros j' Hin.
      assert (Hin' : In (job_idx j') (seq (S start) (length jobs))).
      { rewrite <- Hrest. apply in_map. by apply list_elem_of_In. }
      apply in_seq in Hin'. apply job_filename_lt; lia.
Qed.

(** C1: with at most 999 surviving addresses, the destination file names
    (three-digit index, then the extension of the source path when it is
    one of the four image extensions, else [.jpg]) are in strictly
    increasing lexicographic order along the surviving addresses, so that
    sorting the names, or the destination paths, gives them back in the
    same order. *)
Theorem dest_names_sorted (out_dir : string) (image_urls : list string) (jobs : list job) :
  build_jobs O out_dir 0 image_urls = Some jobs ->
  length jobs <= 999 ->
  map job_dest jobs = map (path_join out_dir) (map job_filename jobs)
  /\ Forall (fun j => exists ext,
               job_filename j = fmt_03d (Z.of_nat (job_idx j)) +:+ ext
               /\ In ext [".jpg"; ".jpeg"; ".png"; ".webp"]) jobs
  /\ map job_url jobs = List.filter survives image_urls
  /\ StronglySorted str_lt (map job_filename jobs)
  /\ py_sorted (map job_filename jobs) = map job_filename jobs
  /\ py_sorted (map job_dest jobs) = map job_dest jobs.
Proof.
  intros Hb Hlen. destruct (build_jobs_spec _ _ _ _ Hb) as (Hu & Hi & Hn).
  assert (Hrange : forall j, In j jobs -> 1 <= job_idx j <= 999).
  { intros j Hin. assert (Hin' : In (job_idx j) (seq 1 (length jobs))).
    { rewrite <- Hi. by apply in_map. }
    apply in_seq in Hin'. lia. }
  assert (Hs : StronglySorted str_lt (map job_filename jobs)).
  { apply (filenames_sorted jobs 1); auto with lia. }
  assert (Hd : map job_dest jobs
               = map (String.append (folder_prefix out_dir)) (map job_filename jobs)).
  { rewrite map_map. apply map_ext_in. intros j Hin.
    apply job_dest_prefix; [by apply Hrange|].
    rewrite Forall_forall in Hn. apply Hn. by apply list_elem_of_In. }
  repeat split.
  - rewrite !map_map. apply map_ext_in. intros j Hin.
    rewrite Forall_forall in Hn. destruct (Hn j) as (parsed & Hp & Hdest).
    { by apply list_elem_of_In. }
    rewrite Hdest. unfold job_filename. by rewrite Hp.
  - apply Forall_forall. intros j Hin. unfold job_filename.
    eexists. split; [reflexivity|].
    destruct (urlparse O (job_url j)); [apply dest_ext_cases | by left].
  - done.
  - done.
  - by apply py_sorted_id.
  - rewrite Hd. by apply py_sorted_id, StronglySorted_map_prefix.
Qed.

End Jobs.

(** The bound is needed: the thousandth name sorts before the 999th. *)
Lemma fmt_03d_beyond_999 :
  str_ltb (fmt_03d 1000 +:+ ".jpg") (fmt_03d 999 +:+ ".jpg") = true.
Proof. reflexivity. Qed.

Lemma urlparse_plain_total u : is_Some (urlparse_plain u).
Proof.
  unfold urlparse_plain.
  repeat match goal with
         | |- context [let '(_, _) := ?x in _] => destruct x
         end.
  by eexists.
Qed.

Definition scenario_jobs : list job :=
  [Job 1 Scenario.good_png "out/001.png"; Job 2 Scenario.cut_jpg "out/002.jpg";
   Job 3 Scenario.dead_jpg "out/003.jpg"].



Lemma dest_names_sorted_witness :
  build_jobs Scenario.oracle "out" 0 Scenario.image_urls = Some scenario_jobs
  /\ length scenario_jobs <= 999
  /\ py_sorted (map job_dest scenario_jobs) = ["out/001.png"; "out/002.jpg"; "out/003.jpg"].
Proof.
  assert (H1 : build_jobs Scenario.oracle "out" 0 Scenario.image_urls = Some scenario_jobs)
    by reflexivity.
  assert (H2 : length scenario_jobs <= 999) by (simpl; lia).
  split; [exact H1|]. split; [exact H2|].
  destruct (dest_names_sorted Scenario.oracle "out" Scenario.image_urls scenario_jobs H1 H2)
    as (_ & _ & _ & _ & _ & Hs).
  exact Hs.
Defined.

End DownloaderFacts.

(** ** Download jobs and their effects *)

Module RunFacts.
Import PyStr Env Url Net Downloader Assembler.
#[local] Arguments String.append !_ _ / : simpl nomatch.

(** *** Computations that return *)

(** [returns m w Q]: from the world [w], [m] returns (it does not raise) a
    value and a world that satisfy [Q]. *)
Definition returns {A} (m : M A) (w : world) (Q : A -> world -> Prop) : Prop :=
  exists a w', m w = (Ok a, w') /\ Q a w'.

Lemma returns_mret {A} (a : A) w (Q : A -> world -> Prop) :
  Q a w -> returns (mret a) w Q.
Proof. intros H. by exists a, w. Qed.

Lemma returns_bind {A B} (m : M A) (k : A -> M B) w (Q : B -> world -> Prop) :
  returns m w (fun a w' => returns (k a) w' Q) -> returns (m ≫= k) w Q.
Proof.
  intros (a & w' & Hm & b & w'' & Hk & HQ). exists b, w''.
  split; [|done]. unfold mbind, M_bind, bind. by rewrite Hm.
Qed.

Lemma returns_weaken {A} (m : M A) w (P Q : A -> world -> Prop) :
  returns m w P -> (forall a w', P a w' -> Q a w') -> returns m w Q.
Proof. intros (a & w' & Hm & HP) H. exists a, w'. auto. Qed.

Lemma returns_emit e w (Q : unit -> world -> Prop) :
  Q tt (World (fs w) (trace w ++ [e])) -> returns (emit e) w Q.
Proof. intros H. by eexists _, _. Qed.

Lemma returns_put_file p c w (Q : unit -> world -> Prop) :
  Q tt (World (<[p := c]> (fs w)) (trace w)) -> returns (put_file p c) w Q.
Proof. intros H. by eexists _, _. Qed.

(** [w'] has the files of [w], except perhaps for the file [dest]. *)
Definition same_except (dest : string) (w w' : world) : Prop :=
  forall p, p <> dest -> fs w' !! p = fs w !! p.

Lemma same_except_refl dest w : same_except dest w w.
Proof. by intros p _. Qed.

Lemma same_except_trans dest w1 w2 w3 :
  same_except dest w1 w2 -> same_except dest w2 w3 -> same_except dest w1 w3.
Proof. intros H12 H23 p Hp. by rewrite H23, H12. Qed.

Lemma same_except_fs dest w w' : fs w' = fs w -> same_except dest w w'.
Proof. intros H p _. by rewrite H. Qed.

(** *** The HTTP client leaves the files alone *)

Lemma request_once_fs get url attempt w :
  fs (snd (request_once get url attempt w)) = fs w.
Proof.
  unfold request_once, mbind, M_bind, bind, emit. simpl.
  destruct (get attempt) as [resp|e]; [|done].
  by destruct (raise_for_status url resp).
Qed.

Lemma retry_loop_fs get url attempts : forall last_err w,
  fs (snd (retry_loop get url attempts last_err w)) = fs w.
Proof.
  induction attempts as [|a attempts IH]; intros last_err w; simpl.
  - by destruct last_err.
  - unfold try_except. pose proof (request_once_fs get url a w) as H.
    destruct (request_once get url a w) as [[resp|e] w1]; simpl in *; [done|].
    destruct (is_request_exception e); [|done].
    unfold mbind, M_bind, bind, sleep, emit. simpl. by rewrite IH.
Qed.

Lemma get_with_retries_fs get url retries w :
  fs (snd (get_with_retries get url retries w)) = fs w.
Proof. apply retry_loop_fs. Qed.

(** A request that does not deliver a response: the session raises, or the
    status is an error status. *)
Definition request_fails (get : nat -> get_result) (url : string) (attempt : nat) : Prop :=
  match get attempt with
  | GetRaised _ => True
  | Responded resp => is_Some (raise_for_status url resp)
  end.

Lemma request_once_fails get url attempt w :
  request_fails get url attempt -> exists e w', request_once get url attempt w = (Exc e, w').
Proof.
  unfold request_fails, request_once, mbind, M_bind, bind, emit. simpl.
  destruct (get attempt) as [resp|e]; [|by eexists _, _].
  intros [e He]. rewrite He. by eexists _, _.
Qed.

Lemma get_once_fails get url w :
  request_fails get url 1 ->
  exists e w', get_with_retries get url 1 w = (Exc e, w') /\ fs w' = fs w.
Proof.
  intros H. destruct (request_once_fails get url 1 w H) as (e & w1 & He).
  pose proof (request_once_fs get url 1 w) as Hfs. rewrite He in Hfs. simpl in Hfs.
  unfold get_with_retries. simpl. unfold try_except. rewrite He.
  destruct (is_request_exception e); [|by eexists _, _].
  unfold mbind, M_bind, bind, sleep, emit, raise. simpl. by eexists _, _.
Qed.

Section Jobs.
Context (O : Oracle).

(** *** One job *)

Lemma write_chunks_returns dest cs : forall written w,
  returns (write_chunks dest cs written) w (fun _ w' => same_except dest w w').
Proof.
  induction cs as [|chunk cs IH]; intros written w; simpl.
  - apply returns_mret, same_except_refl.
  - destruct (String.eqb chunk ""); [apply IH|].
    apply returns_bind. eexists tt, _. split; [reflexivity|].
    apply returns_bind, returns_emit.
    eapply returns_weaken; [apply IH|]. intros ? w' H.
    eapply same_except_trans; [|exact H].
    intros p Hp. simpl. by rewrite lookup_insert_ne.
Qed.

Lemma download_attempt_returns j attempt written w :
  returns (download_attempt O j attempt written) w
    (fun _ w' => same_except (job_dest j) w w').
Proof.
  pose proof (get_with_retries_fs
                (fun k => session_get O (job_url j) (attempt + k - 1)) (job_url j) 1 w) as Hfs.
  unfold returns, download_attempt.
  destruct (get_with_retries _ (job_url j) 1 w) as [[resp|e] w1]; simpl in Hfs.
  - apply returns_bind, returns_put_file, returns_bind.
    eapply returns_weaken; [apply write_chunks_returns|]. intros n w' H.
    apply returns_mret. eapply same_except_trans; [|exact H].
    intros p Hp. simpl. rewrite lookup_insert_ne by done. by rewrite Hfs.
  - eexists _, _. split; [reflexivity|]. by apply same_except_fs.
Qed.

Lemma download_attempt_fails j attempt written w :
  request_fails (session_get O (job_url j)) (job_url j) attempt ->
  returns (download_attempt O j attempt written) w
    (fun r w' => fst r = written /\ is_Some (snd r) /\ fs w' = fs w).
Proof.
  intros H. unfold returns, download_attempt.
  destruct (get_once_fails (fun k => session_get O (job_url j) (attempt + k - 1))
              (job_url j) w) as (e & w1 & He & Hfs).
  { unfold request_fails in *. by rewrite Nat.add_sub. }
  rewrite He. eexists _, _. split; [reflexivity|]. simpl. eauto.
Qed.

Lemma attempt_loop_returns j attempts : forall written last_err w,
  returns (attempt_loop O j attempts written last_err) w
    (fun _ w' => same_except (job_dest j) w w').
Proof.
  induction attempts as [|a attempts IH]; intros written last_err w; simpl.
  - apply returns_mret, same_except_refl.
  - apply returns_bind.
    eapply returns_weaken; [apply download_attempt_returns|]. intros [n [e|]] w1 H1; simpl.
    + apply returns_bind, returns_emit.
      eapply returns_weaken; [apply IH|]. intros r w2 H2.
      eapply same_except_trans; [exact H1|]. intros p Hp. by rewrite (H2 p Hp).
    + by apply returns_mret.
Qed.

Lemma attempt_loop_fails j attempts : forall written last_err w,
  (forall a, In a attempts -> request_fails (session_get O (job_url j)) (job_url j) a) ->
  returns (attempt_loop O j attempts written last_err) w
    (fun r w' => fst (fst r) = false /\ snd (fst r) = written /\ fs w' = fs w
                 /\ (attempts <> [] \/ is_Some last_err -> is_Some (snd r))).
Proof.
  induction attempts as [|a attempts IH]; intros written last_err w H; simpl.
  - apply returns_mret. repeat split; try done. by intros [|].
  - apply returns_bind.
    eapply returns_weaken; [apply download_attempt_fails, H; by left|].
    intros [n oe] w1 (Hn & [e ->] & Hfs). simpl in *. subst n.
    apply returns_bind, returns_emit.
    eapply returns_weaken; [apply IH; intros; apply H; by right|].
    intros [[ok n] le] w2 (Hok & Hn & Hfs2 & Hle). simpl in *.
    repeat split; try done.
    + by rewrite Hfs2.
    + intros _. apply Hle. right. by eexists.
Qed.

Lemma returns_conj {A} (m : M A) w (P Q : A -> world -> Prop) :
  returns m w P -> returns m w Q -> returns m w (fun a w' => P a w' /\ Q a w').
Proof.
  intros (a & w1 & H1 & HP) (b & w2 & H2 & HQ).
  rewrite H1 in H2. injection H2 as <- <-. by exists a, w1.
Qed.

Lemma wrap_download_returns max_retries j w :
  returns (_wrap_download O max_retries j) w
    (fun r w' => res_idx r = job_idx j /\ res_dest r = job_dest j
                 /\ same_except (job_dest j) w w').
Proof.
  unfold _wrap_download. apply returns_bind.
  eapply returns_weaken; [apply attempt_loop_returns|].
  intros [[ok n] le] w' H. by apply returns_mret.
Qed.

(** Every request that the job may make fails. *)
Definition unreachable (max_retries : Z) (j : job) : Prop :=
  forall a, In a (seq 1 (Z.to_nat max_retries)) ->
            request_fails (session_get O (job_url j)) (job_url j) a.

Lemma wrap_download_unreachable max_retries j w :
  unreachable max_retries j ->
  returns (_wrap_download O max_retries j) w
    (fun r w' => res_ok r = false /\ is_Some (res_err r) /\ res_written r = 0
                 /\ fs w' = fs w).
Proof.
  intros H. unfold _wrap_download. apply returns_bind.
  eapply returns_weaken; [by apply attempt_loop_fails|].
  intros [[ok n] le] w' (Hok & Hn & Hfs & _). simpl in *. subst.
  apply returns_mret. simpl. repeat split; try done.
Qed.

(** *** All jobs *)

Lemma run_jobs_returns max_retries jobs : forall w,
  returns (run_jobs O max_retries jobs) w
    (fun rs w' => map res_idx rs = map job_idx jobs
                  /\ map res_dest rs = map job_dest jobs
                  /\ forall p, ~ In p (map job_dest jobs) -> fs w' !! p = fs w !! p).
Proof.
  induction jobs as [|j jobs IH]; intros w; simpl.
  - by apply returns_mret.
  - apply returns_bind.
    eapply returns_weaken; [apply wrap_download_returns|].
    intros r w1 (Hi & Hd & H1). apply returns_bind.
    eapply returns_weaken; [apply IH|].
    intros rs w2 (His & Hds & H2). apply returns_mret. simpl.
    rewrite Hi, Hd, His, Hds. repeat split; try done.
    intros p Hp. rewrite H2 by tauto. apply H1. intros ->. tauto.
Qed.

Lemma run_jobs_unreachable max_retries j jobs : forall w,
  List.NoDup (map job_dest jobs) -> In j jobs -> unreachable max_retries j ->
  returns (run_jobs O max_retries jobs) w
    (fun rs w' => fs w' !! job_dest j = fs w !! job_dest j
                  /\ exists r, In r rs /\ res_idx r = job_idx j
                               /\ res_dest r = job_dest j /\ res_ok r = false).
Proof.
  induction jobs as [|j0 jobs IH]; intros w Hnd Hin Hj; simpl in *; [done|].
  apply List.NoDup_cons_iff in Hnd as [Hnot Hnd].
  apply returns_bind. destruct Hin as [-> | Hin].
  - eapply returns_weaken.
    { apply returns_conj; [apply wrap_download_returns|by apply wrap_download_unreachable]. }
    intros r w1 ((Hi & Hd & _) & Hok & _ & _ & Hfs). apply returns_bind.
    eapply returns_weaken; [apply run_jobs_returns|].
    intros rs w2 (_ & _ & H2). apply returns_mret. split.
    + rewrite H2 by done. by rewrite Hfs.
    + exists r. repeat split; try done. by left.
  - eapply returns_weaken; [apply wrap_download_returns|].
    intros r w1 (_ & _ & H1). apply returns_bind.
    eapply returns_weaken; [by apply IH|].
    intros rs w2 (H2 & r' & Hr' & Hrest). apply returns_mret. split.
    + rewrite H2. apply H1. intros E. apply Hnot. rewrite <- E. by apply in_map.
    + exists r'. split; [by right | done].
Qed.

End Jobs.

(** *** Building a pool *)

Lemma new_pool_positive workers w :
  (0 < workers)%Z -> new_pool workers w = (Ok tt, w).
Proof.
  intros H. unfold new_pool. by rewrite (proj2 (Z.leb_gt workers 0) H).
Qed.

Lemma new_pool_raises workers w :
  (workers <= 0)%Z ->
  new_pool workers w = (Exc (ValueError "max_workers must be greater than 0"), w).
Proof.
  intros H. unfold new_pool. by rewrite (proj2 (Z.leb_le workers 0) H).
Qed.

End RunFacts.

(** ** Skipping what is already there *)

Module OrchestratorFacts.
Import PyStr Env Url Net Names Enumerator Downloader Assembler Orchestrator.

Section Skip.
Context (O : Oracle).

(** What a skipped chapter leaves behind: the files as they were, and one
    more line on the console. *)
Definition skipped (label pdf_path : string) (w : world) (r : result unit * world) : Prop :=
  fst r = Ok tt
  /\ fs (snd r) = fs w
  /\ trace (snd r) = trace w ++ [EvPrint (MsgSkipExists label pdf_path)]
  /\ network_calls (trace (snd r)) = network_calls (trace w).

Lemma skipped_intro label pdf_path w :
  skipped label pdf_path w (print (MsgSkipExists label pdf_path) w).
Proof.
  unfold skipped, print, emit, network_calls. simpl. repeat split.
  rewrite List.filter_app. simpl. by rewrite app_nil_r.
Qed.

Lemma path_exists_true p w : is_Some (fs w !! p) -> path_exists p w = (Ok true, w).
Proof. intros H. unfold path_exists. by rewrite bool_decide_eq_true_2. Qed.

Lemma bulk_chapter_skip series_dir workers max_retries verbose idx chapter_url w :
  is_Some (fs w !! chapter_pdf series_dir (str_nat idx)) ->
  bulk_chapter O series_dir false workers max_retries verbose idx chapter_url w
  = print (MsgSkipExists (str_nat idx) (chapter_pdf series_dir (str_nat idx))) w.
Proof.
  intros H. unfold bulk_chapter, mbind, M_bind, bind.
  by rewrite (path_exists_true _ _ H).
Qed.

Lemma run_single_skip series_dir chapter_url series_name chapter_num workers max_retries
    verbose w :
  derive_series_name O chapter_url series_name = Some series_dir ->
  is_Some (fs w !! chapter_pdf series_dir (single_label O chapter_num chapter_url)) ->
  run_single O chapter_url series_name chapter_num false workers max_retries verbose w
  = print (MsgSkipExists (single_label O chapter_num chapter_url)
             (chapter_pdf series_dir (single_label O chapter_num chapter_url))) w.
Proof.
  intros Hd H. unfold run_single, derive_series_name_M, mbind, M_bind, bind.
  rewrite Hd. unfold mret, M_ret, ret.
  by rewrite (path_exists_true _ _ H).
Qed.

(** The console lines of a bulk loop that skips every chapter. *)
Definition skip_lines (series_dir : string) (chapters : list (nat * string)) : list event :=
  map (fun c => EvPrint (MsgSkipExists (str_nat (fst c))
                           (chapter_pdf series_dir (str_nat (fst c))))) chapters.

Lemma bulk_loop_all_skipped series_dir workers max_retries verbose chapters : forall w,
  (forall c, In c chapters -> is_Some (fs w !! chapter_pdf series_dir (str_nat (fst c)))) ->
  bulk_loop O series_dir false workers max_retries verbose chapters w
  = (Ok tt, World (fs w) (trace w ++ skip_lines series_dir chapters)).
Proof.
  induction chapters as [|[idx url] chapters IH]; intros w H; simpl.
  - unfold mret, M_ret, ret. rewrite app_nil_r. by destruct w.
  - unfold mbind, M_bind, bind. rewrite bulk_chapter_skip by (apply (H (idx, url)); by left).
    unfold print, emit. rewrite IH; simpl.
    + by rewrite <- app_assoc.
    + intros c Hc. apply H. by right.
Qed.

(** C8: when the document of a chapter exists and [force] is false, both
    the loop body of [run_bulk] and [run_single] return at once: they make
    no request, they leave every file as it was, and they print the line
    that reports the chapter as skipped. *)
Theorem skip_existing_chapter (series_dir : string) (w : world) :
  (forall workers max_retries verbose idx chapter_url,
      is_Some (fs w !! chapter_pdf series_dir (str_nat idx)) ->
      skipped (str_nat idx) (chapter_pdf series_dir (str_nat idx)) w
        (bulk_chapter O series_dir false workers max_retries verbose idx chapter_url w))
  /\ (forall chapter_url series_name chapter_num workers max_retries verbose,
      derive_series_name O chapter_url series_name = Some series_dir ->
      is_Some (fs w !! chapter_pdf series_dir (single_label O chapter_num chapter_url)) ->
      skipped (single_label O chapter_num chapter_url)
        (chapter_pdf series_dir (single_label O chapter_num chapter_url)) w
        (run_single O chapter_url series_name chapter_num false workers max_retries
           verbose w)).
Proof.
  split.
  - intros. rewrite bulk_chapter_skip by done. apply skipped_intro.
  - intros. rewrite (run_single_skip series_dir) by done. apply skipped_intro.
Qed.

End Skip.

Definition world_with_chapter_5 : world :=
  World {[ "one/Chapters/chapter-5.pdf" := Pdf [] ]} [].

Lemma skip_existing_chapter_witness :
  derive_series_name Scenario.oracle Scenario.chapter_url (Some "one") = Some "one"
  /\ is_Some (fs world_with_chapter_5
                !! chapter_pdf "one" (single_label Scenario.oracle None Scenario.chapter_url))
  /\ skipped "5" "one/Chapters/chapter-5.pdf" world_with_chapter_5
       (run_single Scenario.oracle Scenario.chapter_url (Some "one") None false 6 3 false
          world_with_chapter_5)
  /\ skipped "5" "one/Chapters/chapter-5.pdf" world_with_chapter_5
       (bulk_chapter Scenario.oracle "one" false 6 3 false 5 Scenario.chapter_url
          world_with_chapter_5).
Proof.
  assert (H1 : derive_series_name Scenario.oracle Scenario.chapter_url (Some "one")
               = Some "one") by reflexivity.
  assert (H2 : is_Some (fs world_with_chapter_5
                          !! chapter_pdf "one" (single_label Scenario.oracle None Scenario.chapter_url))).
  { vm_compute. eexists. reflexivity. }
  split; [exact H1|]. split; [exact H2|].
  destruct (skip_existing_chapter Scenario.oracle "one" world_with_chapter_5) as [Hb Hs].
  split.
  - exact (Hs Scenario.chapter_url (Some "one") None 6%Z 3%Z false H1 H2).
  - exact (Hb 6%Z 3%Z false 5 Scenario.chapter_url H2).
Defined.

End OrchestratorFacts.

(** ** What the download call returns *)

Module DownloadCallFacts.
Import PyStr Env Url Net Downloader Assembler DownloaderFacts RunFacts.

Section Download.
Context (O : Oracle).

Lemma head_content_length_returns url w :
  is_Some (_is_valid_image_url O url) ->
  returns (_head_content_length O url) w (fun _ w' => fs w' = fs w).
Proof.
  intros [v Hv]. unfold _head_content_length. rewrite Hv.
  destruct v; [|by apply returns_mret].
  apply returns_bind, returns_emit.
  destruct (session_head O url) as [[cl|]|e]; try by apply returns_mret.
  destruct (isdigit cl); [|by apply returns_mret].
  destruct (py_int O cl); by apply returns_mret.
Qed.

Lemma sum_sizes_total (sizes : list (result nat)) : forall total_est,
  (forall r, In r sizes -> exists n, r = Ok n) ->
  exists n, sum_sizes sizes total_est = Ok n.
Proof.
  induction sizes as [|r sizes IH]; intros total_est H; simpl.
  - by eexists.
  - destruct (H r (or_introl eq_refl)) as [n ->].
    apply IH. intros r' Hr'. apply H. by right.
Qed.

Lemma pool_map_sizes_returns jobs w :
  (forall j, In j jobs -> is_Some (_is_valid_image_url O (job_url j))) ->
  returns (pool_map_sizes O jobs) w (fun _ w' => fs w' = fs w).
Proof.
  intros H. unfold pool_map_sizes.
  destruct (sum_sizes_total
              (map fst (map (fun j => _head_content_length O (job_url j) (World (fs w) []))
                            jobs)) 0) as [n Hn].
  { intros r Hr. apply in_map_iff in Hr as (p & <- & Hp).
    apply in_map_iff in Hp as (j & <- & Hj).
    destruct (head_content_length_returns (job_url j) (World (fs w) []) (H j Hj))
      as (size & w1 & -> & _).
    by eexists. }
  exists n. eexists. split; [by rewrite Hn|done].
Qed.

Lemma estimate_total_returns workers jobs w :
  (0 < workers)%Z ->
  (forall j, In j jobs -> is_Some (_is_valid_image_url O (job_url j))) ->
  returns (estimate_total O workers jobs) w (fun _ w' => fs w' = fs w).
Proof.
  intros Hw H. unfold estimate_total. apply returns_bind.
  exists tt, w. split; [by apply new_pool_positive|].
  by apply pool_map_sizes_returns.
Qed.

Lemma returns_optional_print (b : bool) msg w (Q : unit -> world -> Prop) :
  (forall t, Q tt (World (fs w) (trace w ++ t))) ->
  returns (if b then print msg else mret tt) w Q.
Proof.
  intros H. destruct b.
  - apply returns_emit, H.
  - apply returns_mret. specialize (H []). rewrite app_nil_r in H. by destruct w.
Qed.

(** The last line that the function prints. *)
Definition ends_with (e : event) (w : world) : Prop :=
  exists t, trace w = t ++ [e].

(** [download_images_threaded] returns [None]; what it has collected in
    [results] is what [run_jobs] returns from a world [w0] with the files
    of [w], and only the number of results reaches the console. *)
Lemma download_returns image_urls out_dir workers max_retries verbose w jobs :
  build_jobs O out_dir 0 image_urls = Some jobs ->
  (0 < workers)%Z ->
  returns (download_images_threaded O image_urls out_dir workers max_retries verbose) w
    (fun v w' =>
       v = PyNone
       /\ exists w0 results w1,
            fs w0 = fs w
            /\ run_jobs O max_retries jobs w0 = (Ok results, w1)
            /\ fs w' = fs w1
            /\ ends_with (EvPrint (MsgFilesProcessed (length results) out_dir)) w').
Proof.
  intros Hb Hw. unfold download_images_threaded. rewrite Hb.
  apply returns_bind, returns_mret, returns_bind, returns_optional_print.
  intros t. apply returns_bind.
  eapply returns_weaken.
  { apply estimate_total_returns; [exact Hw|]. intros j Hj.
    destruct (build_jobs_spec O _ _ _ _ Hb) as (Hu & _ & _).
    assert (Hin : In (job_url j) (List.filter (survives O) image_urls)).
    { rewrite <- Hu. by apply in_map. }
    apply filter_In in Hin as [_ Hs]. apply bool_decide_eq_true_1 in Hs. by eexists. }
  intros n w0 H0. simpl in H0. apply returns_bind.
  destruct (run_jobs_returns O max_retries jobs w0) as (rs & w1 & Hrun & _).
  exists rs, w1. split; [exact Hrun|].
  apply returns_bind, returns_optional_print. intros t'.
  apply returns_bind, returns_emit, returns_mret. split; [done|].
  exists w0, rs, w1. repeat split; try done. by eexists.
Qed.

(** Without a positive number of workers the first pool cannot be built:
    the call raises before any request and before any file is opened. *)
Lemma download_without_workers image_urls out_dir workers max_retries verbose w jobs :
  build_jobs O out_dir 0 image_urls = Some jobs ->
  (workers <= 0)%Z ->
  exists w',
    download_images_threaded O image_urls out_dir workers max_retries verbose w
    = (Exc (ValueError "max_workers must be greater than 0"), w')
    /\ fs w' = fs w
    /\ network_calls (trace w') = network_calls (trace w).
Proof.
  intros Hb Hw. unfold download_images_threaded. rewrite Hb.
  unfold estimate_total, mbind, M_bind, bind, mret, M_ret, ret.
  destruct (verbose && negb (bool_decide (jobs = []))).
  - unfold print, emit. rewrite new_pool_raises by exact Hw.
    eexists. split; [reflexivity|]. split; [done|].
    unfold network_calls. cbn [trace]. rewrite List.filter_app. simpl.
    by rewrite app_nil_r.
  - rewrite new_pool_raises by exact Hw. by exists w.
Qed.

(** C5, as amended: when the parser accepts every address and the number
    of workers is positive, the call returns [None]; the outcomes, one per
    surviving address and in the order of the jobs, stay in the local list
    [results], of which only the length is printed.  With no worker the
    call raises [ValueError] when it builds its first pool, before any
    request. *)
Theorem download_returns_none (image_urls : list string) (out_dir : string)
    (workers max_retries : Z) (verbose : bool) (w : world) :
  (forall u, In u image_urls -> is_Some (urlparse O u)) ->
  ((0 < workers)%Z ->
   exists w' jobs w0 results w1,
     download_images_threaded O image_urls out_dir workers max_retries verbose w
     = (Ok PyNone, w')
     /\ build_jobs O out_dir 0 image_urls = Some jobs
     /\ map job_url jobs = List.filter (survives O) image_urls
     /\ fs w0 = fs w
     /\ run_jobs O max_retries jobs w0 = (Ok results, w1)
     /\ fs w' = fs w1
     /\ map res_idx results = map job_idx jobs
     /\ map res_dest results = map job_dest jobs
     /\ ends_with (EvPrint (MsgFilesProcessed (length results) out_dir)) w')
  /\ ((workers <= 0)%Z ->
      exists w',
        download_images_threaded O image_urls out_dir workers max_retries verbose w
        = (Exc (ValueError "max_workers must be greater than 0"), w')
        /\ fs w' = fs w
        /\ network_calls (trace w') = network_calls (trace w)).
Proof.
  intros Hparse.
  destruct (build_jobs_total O out_dir image_urls 0 Hparse) as [jobs Hb].
  split.
  - intros Hw.
    destruct (build_jobs_spec O _ _ _ _ Hb) as (Hu & _ & _).
    destruct (download_returns image_urls out_dir workers max_retries verbose w jobs Hb Hw)
      as (v & w' & Hdl & -> & w0 & results & w1 & H0 & Hrun & H1 & Hend).
    exists w', jobs, w0, results, w1.
    destruct (run_jobs_returns O max_retries jobs w0) as (rs & w1' & Hrun' & Hi & Hd & _).
    rewrite Hrun in Hrun'. injection Hrun' as <- <-.
    by repeat split.
  - intros Hw. by apply (download_without_workers _ _ _ _ _ _ jobs).
Qed.

End Download.

Lemma download_returns_none_witness :
  (forall u, In u Scenario.image_urls -> is_Some (urlparse Scenario.oracle u))
  /\ (exists w',
        download_images_threaded Scenario.oracle Scenario.image_urls "out" 6 3 false
          Scenario.empty_world = (Ok PyNone, w'))
  /\ (exists w',
        download_images_threaded Scenario.oracle Scenario.image_urls "out" 0 3 false
          Scenario.empty_world
        = (Exc (ValueError "max_workers must be greater than 0"), w')).
Proof.
  assert (H : forall u, In u Scenario.image_urls -> is_Some (urlparse Scenario.oracle u)).
  { intros u _. apply urlparse_plain_total. }
  split; [exact H|]. split.
  - destruct (download_returns_none Scenario.oracle Scenario.image_urls "out" 6 3 false
                Scenario.empty_world H) as [Hpos _].
    destruct (Hpos ltac:(lia)) as (w' & _ & _ & _ & _ & Hrun & _).
    by exists w'.
  - destruct (download_returns_none Scenario.oracle Scenario.image_urls "out" 0 3 false
                Scenario.empty_world H) as [_ Hneg].
    destruct (Hneg ltac:(lia)) as (w' & Hrun & _).
    by exists w'.
Defined.

(** C5 as stated fails: three jobs ran, one succeeded and two failed, and
    the caller gets [None], not their outcomes. *)
Lemma download_returns_no_outcomes :
  fst (run_jobs Scenario.oracle 3 scenario_jobs Scenario.empty_world)
  = Ok [JobResult 1 "out/001.png" true 22 None;
        JobResult 2 "out/002.jpg" false 42 (Some "Connection broken");
        JobResult 3 "out/003.jpg" false 0 (Some "Read timed out")]
  /\ fst (download_images_threaded Scenario.oracle Scenario.image_urls "out" 6 3 false
            Scenario.empty_world)
     = Ok PyNone
  /\ PyNone <> PyResults [JobResult 1 "out/001.png" true 22 None;
                          JobResult 2 "out/002.jpg" false 42 (Some "Connection broken");
                          JobResult 3 "out/003.jpg" false 0 (Some "Read timed out")].
Proof. split; [vm_compute; reflexivity|]. split; [vm_compute; reflexivity|]. discriminate. Qed.

End DownloadCallFacts.

(** ** What the assembled document is made of *)

Module AssemblerFacts.
Import PyStr Env Url Net Downloader Assembler StrFacts DownloaderFacts RunFacts.
#[local] Arguments String.append !_ _ / : simpl nomatch.

(** *** The directory listing *)

Lemma In_insert_by {A} (leb : A -> A -> bool) x y l :
  In y (insert_by leb x l) <-> y = x \/ In y l.
Proof.
  induction l as [|a l IH]; simpl.
  - intuition.
  - destruct (leb x a); simpl; [intuition|]. rewrite IH. intuition.
Qed.

Lemma In_sort_by {A} (leb : A -> A -> bool) y l : In y (sort_by leb l) <-> In y l.
Proof.
  induction l as [|a l IH]; simpl; [done|].
  rewrite In_insert_by, IH. intuition.
Qed.

Lemma strip_prefix_app pre : forall p name,
  strip_prefix pre p = Some name -> p = pre +:+ name.
Proof.
  induction pre as [|a pre IH]; intros p name H; simpl in *.
  - congruence.
  - destruct p as [|b p]; [done|]. destruct (Ascii.eqb a b) eqn:E; [|done].
    apply Ascii.eqb_eq in E. subst. f_equal. by apply IH.
Qed.

Lemma no_slash_prefix name : has_char "/" name = false -> String.prefix "/" name = false.
Proof.
  destruct name as [|c name]; [done|]. intros H.
  change (Ascii.eqb c "/" || has_char "/" name = false) in H.
  apply orb_false_elim in H as [Hc _]. apply Ascii.eqb_neq in Hc.
  change ((if ascii_dec "/" c then String.prefix "" name else false) = false).
  destruct (ascii_dec "/" c); [congruence | done].
Qed.

Lemma child_name_join folder p name :
  child_name folder p = Some name -> path_join folder name = p.
Proof.
  unfold child_name. destruct (strip_prefix _ p) as [n|] eqn:Hs; [|done].
  destruct (String.eqb n "" || has_char "/" n) eqn:Hn; [done|].
  intros [= <-]. apply orb_false_elim in Hn as [_ Hn].
  rewrite path_join_prefix by by apply no_slash_prefix.
  symmetry. by apply strip_prefix_app.
Qed.

Lemma listdir_In (files : gmap string content) folder name :
  In name (listdir files folder) -> is_Some (files !! path_join folder name).
Proof.
  unfold listdir. intros H. apply list_elem_of_In, list_elem_of_omap in H.
  destruct H as (p & Hp & Hc). apply elem_of_elements, elem_of_dom in Hp.
  by rewrite (child_name_join _ _ _ Hc).
Qed.

Lemma src_files_In (files : gmap string content) folder p :
  In p (src_files_of files folder) -> is_Some (files !! p).
Proof.
  unfold src_files_of, py_sorted. rewrite In_sort_by, in_map_iff.
  intros (name & <- & Hin). apply filter_In in Hin as [Hin _]. by apply listdir_In.
Qed.

Section Assemble.
Context (O : Oracle).

(** The file that [normalize] puts in [out_files] for the source file
    [src]: the file itself, or its conversion. *)
Definition made_from (convert_dir src f : string) : Prop :=
  f = src \/ f = path_join convert_dir (fst (splitext (basename src)) +:+ ".jpg").

Lemma normalize_returns convert_dir src_files : forall w,
  returns (normalize O convert_dir src_files) w
    (fun out _ => forall f, In f out ->
                    exists src, In src src_files /\ made_from convert_dir src f).
Proof.
  induction src_files as [|p src_files IH]; intros w; cbn [normalize].
  - by apply returns_mret.
  - destruct (str_in (lower (snd (splitext p))) [".jpg"; ".jpeg"; ".png"]).
    + apply returns_bind. eapply returns_weaken; [apply IH|].
      intros out w1 H. apply returns_mret. intros f [<- | Hf].
      * exists p. split; [by left | by left].
      * destruct (H f Hf) as (src & Hs & Hm). exists src. split; [by right | done].
    + apply returns_bind. exists (fs w), w. split; [done|].
      destruct (match fs w !! p with Some (Raw b) => pil_to_jpeg O b | _ => None end).
      * apply returns_bind, returns_put_file, returns_bind.
        eapply returns_weaken; [apply IH|].
        intros out w1 H. apply returns_mret. intros f [<- | Hf].
        -- exists p. split; [by left | by right].
        -- destruct (H f Hf) as (src & Hs & Hm). exists src. split; [by right | done].
      * eapply returns_weaken; [apply IH|].
        intros out w1 H f Hf. destruct (H f Hf) as (src & Hs & Hm).
        exists src. split; [by right | done].
Qed.

Lemma img2pdf_convert_files files out_files : forall pages,
  img2pdf_convert O files out_files = Some pages -> map page_file pages = out_files.
Proof.
  induction out_files as [|f out_files IH]; intros pages H; simpl in H.
  - by injection H as <-.
  - destruct (files !! f) as [[b|]|]; simpl in H; try done.
    destruct (img2pdf_read O b) as [[[wd ht] ndpi]|]; simpl in H; [|done].
    destruct (Layout.layout_fun_fixed_width wd ht ndpi) as [g|]; simpl in H; [|done].
    destruct (img2pdf_page_ok O g); [|done].
    destruct (img2pdf_convert O files out_files) as [ps|]; simpl in H; [|done].
    injection H as <-. simpl. f_equal. by apply IH.
Qed.

(** Every page of the document that [images_to_pdf] writes is made from an
    image file that the folder held when the call began. *)
Lemma images_to_pdf_pages image_folder output_pdf w w2 :
  images_to_pdf O image_folder output_pdf w = (Ok true, w2) ->
  exists pages,
    fs w2 !! output_pdf = Some (Pdf pages)
    /\ forall p, In p pages ->
         exists src, is_Some (fs w !! src)
                     /\ In src (src_files_of (fs w) image_folder)
                     /\ made_from (path_join image_folder "_converted") src (page_file p).
Proof.
  unfold images_to_pdf, mbind, M_bind, bind, get_fs.
  destruct (bool_decide (src_files_of (fs w) image_folder = [])).
  { unfold print, emit, mret, M_ret, ret. simpl. congruence. }
  destruct (normalize_returns (path_join image_folder "_converted")
              (src_files_of (fs w) image_folder) w) as (out & w1 & Hn & Hout).
  rewrite Hn. destruct (bool_decide (out = [])).
  { unfold print, emit, mret, M_ret, ret. simpl. congruence. }
  unfold print, emit, put_file. simpl.
  destruct (img2pdf_convert O _ out) as [pages|] eqn:Hc; [|unfold raise; congruence].
  unfold mret, M_ret, ret. intros [= <-]. simpl.
  exists pages. split; [by rewrite lookup_insert_eq|].
  intros p Hp. destruct (Hout (page_file p)) as (src & Hs & Hm).
  { rewrite <- (img2pdf_convert_files _ _ _ Hc). by apply in_map. }
  exists src. split; [by apply (src_files_In _ image_folder) | done].
Qed.

(** C4, as amended: a job whose every request fails, and whose
    destination path held no file before, is recorded as failed and leaves
    no file; the document that [images_to_pdf] then writes has its pages
    made from the image files that the directory of the chapter lists
    after the downloads, whatever the outcomes of the jobs, and none of
    these files is the destination of that job. *)
Theorem unreachable_job_has_no_page (max_retries : Z) (jobs : list job) (j : job)
    (img_dir pdf : string) (w : world) :
  List.NoDup (map job_dest jobs) -> In j jobs ->
  unreachable O max_retries j -> fs w !! job_dest j = None ->
  exists results w1,
    run_jobs O max_retries jobs w = (Ok results, w1)
    /\ (exists r, In r results /\ res_idx r = job_idx j /\ res_dest r = job_dest j
                  /\ res_ok r = false)
    /\ fs w1 !! job_dest j = None
    /\ forall w1' w2,
         fs w1' = fs w1 -> images_to_pdf O img_dir pdf w1' = (Ok true, w2) ->
         exists pages,
           fs w2 !! pdf = Some (Pdf pages)
           /\ forall p, In p pages ->
                exists src, is_Some (fs w1 !! src)
                            /\ In src (src_files_of (fs w1) img_dir)
                            /\ src <> job_dest j
                            /\ made_from (path_join img_dir "_converted") src (page_file p).
Proof.
  intros Hnd Hin Hj Hnone.
  destruct (run_jobs_unreachable O max_retries j jobs w Hnd Hin Hj)
    as (results & w1 & Hrun & Hfs & Hr).
  exists results, w1. split; [done|]. split; [done|].
  rewrite Hnone in Hfs. split; [done|].
  intros w1' w2 Hsame Hpdf.
  destruct (images_to_pdf_pages img_dir pdf w1' w2 Hpdf) as (pages & Hdoc & Hpages).
  exists pages. split; [done|]. intros p Hp.
  destruct (Hpages p Hp) as (src & Hsrc & Hlist & Hm). rewrite Hsame in Hsrc, Hlist.
  exists src. repeat split; try done.
  intros ->. rewrite Hfs in Hsrc. by destruct Hsrc.
Qed.

End Assemble.

Lemma unreachable_job_has_no_page_witness :
  List.NoDup (map job_dest scenario_jobs)
  /\ In (Job 3 Scenario.dead_jpg "out/003.jpg") scenario_jobs
  /\ unreachable Scenario.oracle 3 (Job 3 Scenario.dead_jpg "out/003.jpg")
  /\ fs Scenario.empty_world !! "out/003.jpg" = None
  /\ exists results w1,
       run_jobs Scenario.oracle 3 scenario_jobs Scenario.empty_world = (Ok results, w1)
       /\ fs w1 !! "out/003.jpg" = None.
Proof.
  assert (H1 : List.NoDup (map job_dest scenario_jobs)).
  { simpl. repeat constructor; simpl; intuition discriminate. }
  assert (H2 : In (Job 3 Scenario.dead_jpg "out/003.jpg") scenario_jobs).
  { simpl. auto. }
  assert (H3 : unreachable Scenario.oracle 3 (Job 3 Scenario.dead_jpg "out/003.jpg")).
  { intros a _. unfold request_fails. vm_compute. exact I. }
  assert (H4 : fs Scenario.empty_world !! job_dest (Job 3 Scenario.dead_jpg "out/003.jpg")
               = None) by reflexivity.
  split; [exact H1|]. split; [exact H2|]. split; [exact H3|]. split; [exact H4|].
  destruct (unreachable_job_has_no_page Scenario.oracle 3 scenario_jobs
              (Job 3 Scenario.dead_jpg "out/003.jpg") "out" "out.pdf"
              Scenario.empty_world H1 H2 H3 H4)
    as (results & w1 & Hrun & _ & Hnone & _).
  exists results, w1. split; [exact Hrun | exact Hnone].
Defined.

(** C4 as stated fails: the body of the second image of the scenario
    breaks off after the header of the JPEG at each of the three attempts.
    The job is recorded as failed, its destination keeps what the last
    attempt wrote, the image library reads the pixel size from that header,
    and the document gets a page from the file. *)
Lemma failed_job_file_becomes_page :
  fst (_wrap_download Scenario.oracle 3
         (Job 2 Scenario.cut_jpg "one/Images/chapter-5/002.jpg") Scenario.empty_world)
  = Ok (JobResult 2 "one/Images/chapter-5/002.jpg" false 42 (Some "Connection broken"))
  /\ fst (Orchestrator.run_single Scenario.oracle Scenario.chapter_url (Some "one") None
            false 6 3 false Scenario.empty_world)
     = Ok tt
  /\ fs (snd (Orchestrator.run_single Scenario.oracle Scenario.chapter_url (Some "one")
                None false 6 3 false Scenario.empty_world))
       !! "one/Images/chapter-5/002.jpg"
     = Some (Raw Scenario.jpeg_header)
  /\ match fs (snd (Orchestrator.run_single Scenario.oracle Scenario.chapter_url
                      (Some "one") None false 6 3 false Scenario.empty_world))
             !! "one/Chapters/chapter-5.pdf" with
     | Some (Pdf pages) => map page_file pages
     | _ => []
     end
     = ["one/Images/chapter-5/001.png"; "one/Images/chapter-5/002.jpg"].
Proof.
  split; [vm_compute; reflexivity|]. split; [vm_compute; reflexivity|].
  split; vm_compute; reflexivity.
Qed.

End AssemblerFacts.

(** ** Waiting between attempts *)

Module RetryFacts.
Import PyStr Env Url Net Downloader RunFacts.

(** In [get_with_retries] a request error at the attempt [a] costs one
    sleep of [0.6 * a] seconds before the next attempt. *)
Lemma retry_loop_request_error get url a rest last_err msg w :
  get a = GetRaised (RequestException msg) ->
  retry_loop get url (a :: rest) last_err w
  = retry_loop get url rest (Some (RequestException msg))
      (World (fs w) (trace w ++ [EvGet url; EvSleep (backoff a)])).
Proof.
  intros H. cbn [retry_loop]. unfold try_except, request_once, mbind, M_bind, bind, emit.
  rewrite H. unfold raise, sleep, emit. simpl. by rewrite <- app_assoc.
Qed.

Section Jobs.
Context (O : Oracle).

(** In [_wrap_download] the same error costs two sleeps: the one of the
    inner [get_with_retries(..., retries=1)], which sleeps [0.6 * 1]
    seconds before it raises again, and then [0.6 * a] seconds. *)
Lemma attempt_loop_request_error j a rest written last_err msg w :
  session_get O (job_url j) a = GetRaised (RequestException msg) ->
  attempt_loop O j (a :: rest) written last_err w
  = attempt_loop O j rest written (Some (RequestException msg))
      (World (fs w)
         (trace w ++ [EvGet (job_url j); EvSleep (backoff 1); EvSleep (backoff a)])).
Proof.
  intros H. cbn [attempt_loop]. unfold mbind, M_bind, bind, download_attempt.
  unfold get_with_retries. change (seq 1 (Z.to_nat 1)) with [1].
  rewrite (retry_loop_request_error _ _ 1 [] None msg) by by rewrite Nat.add_sub.
  cbn [retry_loop]. unfold raise, sleep, emit. simpl. by rewrite <- app_assoc.
Qed.

End Jobs.

(** C3, where the code departs from it: a job whose host times out makes
    its two attempts and is recorded as failed with the last message, but
    it waits 0.6 s and again 0.6 s after the first attempt (1.2 s, not
    0.6 s) and 0.6 s and 1.2 s after the second; [get_with_retries] on its
    own waits 0.6 s and 1.2 s. *)
Lemma wrap_download_waits_longer :
  fst (_wrap_download Scenario.oracle 2 (Job 3 Scenario.dead_jpg "out/003.jpg")
         Scenario.empty_world)
  = Ok (JobResult 3 "out/003.jpg" false 0 (Some "Read timed out"))
  /\ trace (snd (_wrap_download Scenario.oracle 2 (Job 3 Scenario.dead_jpg "out/003.jpg")
                   Scenario.empty_world))
     = [EvGet Scenario.dead_jpg; EvSleep (backoff 1); EvSleep (backoff 1);
        EvGet Scenario.dead_jpg; EvSleep (backoff 1); EvSleep (backoff 2)]
  /\ trace (snd (get_with_retries (session_get Scenario.oracle Scenario.dead_jpg)
                   Scenario.dead_jpg 2 Scenario.empty_world))
     = [EvGet Scenario.dead_jpg; EvSleep (backoff 1);
        EvGet Scenario.dead_jpg; EvSleep (backoff 2)]
  /\ (backoff 1 + backoff 1 == 12 # 10)%Q
  /\ (backoff 1 == 6 # 10)%Q.
Proof.
  split; [vm_compute; reflexivity|]. split; [vm_compute; reflexivity|].
  split; [vm_compute; reflexivity|]. split; reflexivity.
Qed.

End RetryFacts.

(** * Further properties *)

(** ** The retry loop of the HTTP client *)

Module NetFacts.
Import PyStr Env Url Net Downloader Assembler StrFacts RunFacts.
#[local] Arguments String.append !_ _ / : simpl nomatch.

(** The message of the [RequestException] that the attempt [k] ends in:
    the one that the session raises, or the [HTTPError] of an error
    status. *)
Definition request_error (get : nat -> get_result) (url : string) (k : nat)
  : option string :=
  match get k with
  | GetRaised (RequestException m) => Some m
  | GetRaised _ => None
  | Responded resp => exn_str <$> raise_for_status url resp
  end.

(** The events of a failed attempt: the request, then the sleep. *)
Definition failed_attempt (url : string) (k : nat) : list event :=
  [EvGet url; EvSleep (backoff k)].

Lemma raise_for_status_request url resp e :
  raise_for_status url resp = Some e -> e = RequestException (exn_str e).
Proof.
  unfold raise_for_status. repeat case_match; try done; by intros [= <-].
Qed.

Lemma retry_loop_request_fails get url k rest last_err m w :
  request_error get url k = Some m ->
  retry_loop get url (k :: rest) last_err w
  = retry_loop get url rest (Some (RequestException m))
      (World (fs w) (trace w ++ failed_attempt url k)).
Proof.
  unfold request_error. intros H. cbn [retry_loop].
  unfold try_except, request_once, mbind, M_bind, bind, emit.
  destruct (get k) as [resp|e].
  - destruct (raise_for_status url resp) as [e|] eqn:Hs; [|done].
    injection H as <-. rewrite (raise_for_status_request _ _ _ Hs).
    unfold raise, sleep, emit. simpl. by rewrite <- app_assoc.
  - destruct e; try done. injection H as ->.
    unfold raise, sleep, emit. simpl. by rewrite <- app_assoc.
Qed.

(** The value of [last_err] after the attempts, when each of them ends in
    a [RequestException]. *)
Fixpoint last_err_after (get : nat -> get_result) (url : string) (attempts : list nat)
    (last_err : option exn) : option exn :=
  match attempts with
  | [] => last_err
  | k :: rest => last_err_after get url rest (RequestException <$> request_error get url k)
  end.

Lemma last_err_after_snoc get url attempts k : forall last_err,
  last_err_after get url (attempts ++ [k]) last_err
  = RequestException <$> request_error get url k.
Proof. induction attempts as [|a attempts IH]; intros last_err; simpl; [done | apply IH]. Qed.

Lemma retry_loop_all_fail get url attempts : forall last_err w,
  (forall k, In k attempts -> is_Some (request_error get url k)) ->
  retry_loop get url attempts last_err w
  = (Exc (default (TypeError "exceptions must derive from BaseException")
            (last_err_after get url attempts last_err)),
     World (fs w) (trace w ++ flat_map (failed_attempt url) attempts)).
Proof.
  induction attempts as [|k attempts IH]; intros last_err w H.
  - simpl. rewrite app_nil_r. destruct last_err; by destruct w.
  - destruct (H k) as [m Hm]; [by left|].
    rewrite (retry_loop_request_fails _ _ _ _ _ _ _ Hm), IH by (intros; apply H; by right).
    simpl. by rewrite Hm, <- app_assoc.
Qed.

(** X1: when each of the [n >= 1] attempts ends in a [RequestException],
    [get_with_retries] makes exactly [n] requests, sleeps [0.6 * k]
    seconds after the attempt [k] (also after the last one), touches no
    file, and raises the exception of the last attempt. *)
Theorem get_with_retries_exhausted (get : nat -> get_result) (url : string) (n : nat)
    (w : world) :
  1 <= n ->
  (forall k, 1 <= k <= n -> is_Some (request_error get url k)) ->
  exists m,
    request_error get url n = Some m
    /\ get_with_retries get url (Z.of_nat n) w
       = (Exc (RequestException m),
          World (fs w) (trace w ++ flat_map (failed_attempt url) (seq 1 n))).
Proof.
  intros Hn H. unfold get_with_retries. rewrite Nat2Z.id.
  rewrite retry_loop_all_fail by (intros k Hk; apply in_seq in Hk; apply H; lia).
  destruct (H n) as [m Hm]; [lia|]. exists m. split; [done|].
  destruct n as [|n]; [lia|]. rewrite seq_S at 1. rewrite last_err_after_snoc.
  simpl in *. by rewrite Hm.
Qed.

(** X2: when the attempts before [k] end in a [RequestException] and
    the attempt [k <= n] is answered with a status that is no error
    status, [get_with_retries] returns that response after exactly [k]
    requests and [k - 1] sleeps; the later attempts are not made. *)
Theorem get_with_retries_succeeds (get : nat -> get_result) (url : string)
    (n k : nat) (resp : Response) (w : world) :
  1 <= k <= n ->
  (forall i, 1 <= i < k -> is_Some (request_error get url i)) ->
  get k = Responded resp -> raise_for_status url resp = None ->
  get_with_retries get url (Z.of_nat n) w
  = (Ok resp,
     World (fs w)
       (trace w ++ flat_map (failed_attempt url) (seq 1 (k - 1)) ++ [EvGet url])).
Proof.
  intros Hk Hfail Hget Hok. unfold get_with_retries. rewrite Nat2Z.id.
  assert (Hseq : seq 1 n = seq 1 (k - 1) ++ k :: seq (S k) (n - k)).
  { replace n with ((k - 1) + S (n - k)) at 1 by lia. rewrite seq_app. simpl.
    f_equal. f_equal; [lia | f_equal; lia]. }
  rewrite Hseq. generalize (seq (S k) (n - k)) as rest. intros rest.
  assert (Hgen : forall attempts last_err w0,
            (forall i, In i attempts -> is_Some (request_error get url i)) ->
            retry_loop get url (attempts ++ k :: rest) last_err w0
            = (Ok resp, World (fs w0)
                 (trace w0 ++ flat_map (failed_attempt url) attempts ++ [EvGet url]))).
  { induction attempts as [|a attempts IH]; intros last_err w0 H.
    - simpl. unfold try_except, request_once, mbind, M_bind, bind, emit.
      by rewrite Hget, Hok.
    - destruct (H a) as [m Hm]; [by left|]. rewrite <- app_comm_cons.
      rewrite (retry_loop_request_fails _ _ _ _ _ _ _ Hm), IH by (intros; apply H; by right).
      simpl. by rewrite <- app_assoc. }
  apply Hgen. intros i Hi. apply in_seq in Hi. apply Hfail. lia.
Qed.

(** X3: an exception that is no [RequestException] is not retried: it
    leaves [get_with_retries] at once, without a sleep and without a
    further request. *)
Theorem get_with_retries_other_exception (get : nat -> get_result) (url : string)
    (n k : nat) (e : exn) (w : world) :
  1 <= k <= n ->
  (forall i, 1 <= i < k -> is_Some (request_error get url i)) ->
  get k = GetRaised e -> is_request_exception e = false ->
  get_with_retries get url (Z.of_nat n) w
  = (Exc e,
     World (fs w)
       (trace w ++ flat_map (failed_attempt url) (seq 1 (k - 1)) ++ [EvGet url])).
Proof.
  intros Hk Hfail Hget He. unfold get_with_retries. rewrite Nat2Z.id.
  assert (Hseq : seq 1 n = seq 1 (k - 1) ++ k :: seq (S k) (n - k)).
  { replace n with ((k - 1) + S (n - k)) at 1 by lia. rewrite seq_app. simpl.
    f_equal. f_equal; [lia | f_equal; lia]. }
  rewrite Hseq. generalize (seq (S k) (n - k)) as rest. intros rest.
  assert (Hgen : forall attempts last_err w0,
            (forall i, In i attempts -> is_Some (request_error get url i)) ->
            retry_loop get url (attempts ++ k :: rest) last_err w0
            = (Exc e, World (fs w0)
                 (trace w0 ++ flat_map (failed_attempt url) attempts ++ [EvGet url]))).
  { induction attempts as [|a attempts IH]; intros last_err w0 H.
    - simpl. unfold try_except, request_once, mbind, M_bind, bind, emit, raise.
      by rewrite Hget, He.
    - destruct (H a) as [m Hm]; [by left|]. rewrite <- app_comm_cons.
      rewrite (retry_loop_request_fails _ _ _ _ _ _ _ Hm), IH by (intros; apply H; by right).
      simpl. by rewrite <- app_assoc. }
  apply Hgen. intros i Hi. apply in_seq in Hi. apply Hfail. lia.
Qed.

(** Two refusals, then an answer. *)
Definition flaky_get (k : nat) : get_result :=
  if (k <? 3)%nat then GetRaised (RequestException "Connection refused")
  else Scenario.answer ["data"] None.

(** One refusal, then an error of another kind. *)
Definition broken_get (k : nat) : get_result :=
  if (k <? 2)%nat then GetRaised (RequestException "Connection refused")
  else GetRaised (OtherError "boom").

Lemma get_with_retries_exhausted_witness :
  1 <= 3
  /\ (forall k, 1 <= k <= 3 ->
        is_Some (request_error (session_get Scenario.oracle Scenario.dead_jpg)
                   Scenario.dead_jpg k))
  /\ exists m,
       get_with_retries (session_get Scenario.oracle Scenario.dead_jpg)
         Scenario.dead_jpg 3 Scenario.empty_world
       = (Exc (RequestException m),
          World ∅ (flat_map (failed_attempt Scenario.dead_jpg) [1; 2; 3])).
Proof.
  assert (H1 : 1 <= 3) by lia.
  assert (H2 : forall k, 1 <= k <= 3 ->
                 is_Some (request_error (session_get Scenario.oracle Scenario.dead_jpg)
                            Scenario.dead_jpg k)).
  { intros k _. by eexists. }
  split; [exact H1|]. split; [exact H2|].
  destruct (get_with_retries_exhausted (session_get Scenario.oracle Scenario.dead_jpg)
              Scenario.dead_jpg 3 Scenario.empty_world H1 H2) as (m & _ & Hrun).
  exists m. exact Hrun.
Defined.

Lemma get_with_retries_succeeds_witness :
  get_with_retries flaky_get "u" 5 Scenario.empty_world
  = (Ok {| status := 200; reason := "OK"; text := "chapter page";
           chunks := ["data"]; stream_error := None |},
     World ∅ (flat_map (failed_attempt "u") [1; 2] ++ [EvGet "u"])).
Proof.
  apply (get_with_retries_succeeds flaky_get "u" 5 3).
  - lia.
  - intros i Hi. assert (Hc : i = 1 \/ i = 2) by lia. destruct Hc as [-> | ->]; by eexists.
  - reflexivity.
  - reflexivity.
Defined.

Lemma get_with_retries_other_exception_witness :
  get_with_retries broken_get "u" 5 Scenario.empty_world
  = (Exc (OtherError "boom"),
     World ∅ (flat_map (failed_attempt "u") [1] ++ [EvGet "u"])).
Proof.
  apply (get_with_retries_other_exception broken_get "u" 5 2).
  - lia.
  - intros i Hi. assert (Hc : i = 1) by lia. subst i. by eexists.
  - reflexivity.
  - reflexivity.
Defined.

End NetFacts.

(** ** The outcome of a job *)

Module JobFacts.
Import PyStr Env Url Net Downloader Assembler StrFacts RunFacts.
#[local] Arguments String.append !_ _ / : simpl nomatch.

(** The bytes that a list of chunks carries. *)
Fixpoint body_of (cs : list string) : string :=
  match cs with
  | [] => EmptyString
  | c :: r => c +:+ body_of r
  end.

(** The number of bytes by which the events advance the progress bar. *)
Fixpoint advanced (t : list event) : nat :=
  match t with
  | [] => 0
  | EvAdvance n :: r => n + advanced r
  | _ :: r => advanced r
  end.

Lemma advanced_app t1 t2 : advanced (t1 ++ t2) = advanced t1 + advanced t2.
Proof. induction t1 as [|[] t1 IH]; simpl; lia. Qed.

Lemma network_calls_app t1 t2 :
  network_calls (t1 ++ t2) = network_calls t1 ++ network_calls t2.
Proof. apply List.filter_app. Qed.

(** [spends b r w w']: [w'] continues the trace of [w] with events that
    advance the progress bar by [b] bytes and hold at most [r] requests. *)
Definition spends (b r : nat) (w w' : world) : Prop :=
  exists t, trace w' = trace w ++ t /\ advanced t = b /\ length (network_calls t) <= r.

Lemma spends_refl r w : spends 0 r w w.
Proof. exists []. rewrite app_nil_r. simpl. auto with lia. Qed.

Lemma spends_trans b1 r1 b2 r2 w1 w2 w3 :
  spends b1 r1 w1 w2 -> spends b2 r2 w2 w3 -> spends (b1 + b2) (r1 + r2) w1 w3.
Proof.
  intros (t1 & H1 & <- & Hr1) (t2 & H2 & <- & Hr2). exists (t1 ++ t2).
  rewrite H2, H1, app_assoc, advanced_app, network_calls_app, length_app.
  auto with lia.
Qed.

Lemma spends_more b r r' w w' : spends b r w w' -> r <= r' -> spends b r' w w'.
Proof. intros (t & H & Hb & Hr) Hle. exists t. auto with lia. Qed.

Lemma spends_get url w : spends 0 1 w (World (fs w) (trace w ++ [EvGet url])).
Proof. exists [EvGet url]. simpl. auto. Qed.

Lemma spends_sleep s w : spends 0 0 w (World (fs w) (trace w ++ [EvSleep s])).
Proof. exists [EvSleep s]. simpl. auto. Qed.

Lemma retry_loop_spends get url attempts : forall last_err w,
  spends 0 (length attempts) w (snd (retry_loop get url attempts last_err w)).
Proof.
  induction attempts as [|a attempts IH]; intros last_err w; simpl.
  - destruct last_err; apply spends_refl.
  - unfold try_except, request_once, mbind, M_bind, bind, emit. simpl.
    set (w1 := World (fs w) (trace w ++ [EvGet url])).
    set (w2 := World (fs w1) (trace w1 ++ [EvSleep (backoff a)])).
    assert (H1 : spends 0 1 w w1) by apply spends_get.
    assert (H2 : spends 0 0 w1 w2) by apply spends_sleep.
    assert (H0 : spends 0 (S (length attempts)) w w1) by (eapply spends_more; [exact H1 | lia]).
    assert (H3 : forall e, spends 0 (S (length attempts)) w
                             (snd (retry_loop get url attempts (Some e) w2))).
    { intros e. apply (spends_trans 0 1 0 _ w w1 _ H1).
      apply (spends_trans 0 0 0 _ w1 w2 _ H2), IH. }
    destruct (get a) as [resp|e]; simpl.
    + destruct (raise_for_status url resp) as [e|]; simpl; [|done].
      destruct (is_request_exception e); [apply H3 | done].
    + destruct (is_request_exception e); [apply H3 | done].
Qed.

(** A single attempt of [get_with_retries]: the response when it comes
    with a good status, an exception otherwise. *)
Lemma get_once_outcome get url w :
  match get 1 with
  | Responded resp =>
      match raise_for_status url resp with
      | None => get_with_retries get url 1 w
                = (Ok resp, World (fs w) (trace w ++ [EvGet url]))
      | Some _ => exists e w', get_with_retries get url 1 w = (Exc e, w')
      end
  | GetRaised _ => exists e w', get_with_retries get url 1 w = (Exc e, w')
  end.
Proof.
  unfold get_with_retries. change (seq 1 (Z.to_nat 1)) with [1]. cbn [retry_loop].
  unfold try_except, request_once, mbind, M_bind, bind, emit, raise, sleep, emit.
  destruct (get 1) as [resp|e]; simpl.
  - destruct (raise_for_status url resp) as [e|]; [|done].
    destruct (is_request_exception e); by eexists _, _.
  - destruct (is_request_exception e); by eexists _, _.
Qed.

Section Jobs.
Context (O : Oracle).

(** The chunks of the response to the attempt [a] of the job [j], when it
    arrives whole: the request is answered, the status is no error status,
    and the body streams to its end. *)
Definition attempt_body (j : job) (a : nat) : option (list string) :=
  match session_get O (job_url j) a with
  | Responded resp =>
      match raise_for_status (job_url j) resp, stream_error resp with
      | None, None => Some (chunks resp)
      | _, _ => None
      end
  | GetRaised _ => None
  end.

Lemma write_chunks_spec dest cs : forall written w old,
  fs w !! dest = Some (Raw old) ->
  returns (write_chunks dest cs written) w
    (fun n w' => n = written + String.length (body_of cs)
                 /\ fs w' !! dest = Some (Raw (old +:+ body_of cs))
                 /\ spends (String.length (body_of cs)) 0 w w').
Proof.
  induction cs as [|chunk cs IH]; intros written w old Hold; simpl.
  - apply returns_mret. rewrite append_nil_r, Nat.add_0_r. auto using spends_refl.
  - destruct (String.eqb chunk "") eqn:E.
    + apply String.eqb_eq in E. subst chunk. simpl. by apply IH.
    + apply returns_bind. eexists tt, _. split; [reflexivity|].
      apply returns_bind, returns_emit.
      eapply returns_weaken.
      { apply (IH _ _ (old +:+ chunk)). simpl. unfold append_file.
        rewrite Hold. by rewrite lookup_insert_eq. }
      intros n w' (-> & Hf & Ha). rewrite length_append, append_assoc in *.
      split; [lia|]. split; [done|].
      eapply (spends_trans (String.length chunk) 0 _ 0); [|exact Ha].
      exists [EvAdvance (String.length chunk)]. simpl. auto with lia.
Qed.

(** One attempt: the counter grows by what the progress bar advances, one
    request at most is made, no other file changes, and the attempt ends
    without exception exactly when the response arrives whole, with its
    bytes in the destination. *)
Lemma download_attempt_spec j a written w :
  returns (download_attempt O j a written) w
    (fun r w' =>
       same_except (job_dest j) w w'
       /\ (exists n, spends n 1 w w' /\ fst r = written + n)
       /\ match attempt_body j a with
          | Some cs => snd r = None /\ fs w' !! job_dest j = Some (Raw (body_of cs))
          | None => is_Some (snd r)
          end).
Proof.
  set (get := fun k => session_get O (job_url j) (a + k - 1)).
  pose proof (get_once_outcome get (job_url j) w) as Hout.
  pose proof (get_with_retries_fs get (job_url j) 1 w) as Hfs.
  pose proof (retry_loop_spends get (job_url j) (seq 1 (Z.to_nat 1)) None w) as Hadv.
  fold (get_with_retries get (job_url j) 1 w) in Hadv.
  unfold returns, download_attempt, attempt_body. fold get.
  assert (Hget : get 1 = session_get O (job_url j) a) by (unfold get; by rewrite Nat.add_sub).
  rewrite <- Hget.
  destruct (get 1) as [resp|e0].
  - destruct (raise_for_status (job_url j) resp) as [e|].
    + destruct Hout as (e' & w1 & Hout). rewrite Hout in *. simpl in *.
      eexists _, _. split; [reflexivity|]. simpl.
      split; [by apply same_except_fs|]. split; [|by eexists].
      exists 0. split; [done | lia].
    + rewrite Hout in *. simpl in *.
      apply returns_bind, returns_put_file, returns_bind.
      eapply returns_weaken.
      { apply returns_conj; [|apply write_chunks_returns].
        apply (write_chunks_spec (job_dest j) (chunks resp) written _ "").
        simpl. by rewrite lookup_insert_eq. }
      intros n w' ((-> & Hf & Ha) & Hsame). apply returns_mret. simpl.
      split; [|split].
      * intros p Hp. rewrite (Hsame p Hp). simpl. by rewrite lookup_insert_ne.
      * exists (String.length (body_of (chunks resp))). split; [|done].
        apply (spends_trans 0 1 _ 0 w (World (fs w) (trace w ++ [EvGet (job_url j)])));
          [apply spends_get|].
        destruct Ha as (t & Ht & Hn). by exists t.
      * destruct (stream_error resp); [by eexists | done].
  - destruct Hout as (e' & w1 & Hout). rewrite Hout in *. simpl in *.
    eexists _, _. split; [reflexivity|]. simpl.
    split; [by apply same_except_fs|]. split; [|by eexists].
    exists 0. split; [done | lia].
Qed.

(** The loop: the counter, the requests and the files. *)
Lemma attempt_loop_spends j attempts : forall written last_err w,
  returns (attempt_loop O j attempts written last_err) w
    (fun r w' => exists n, spends n (length attempts) w w' /\ snd (fst r) = written + n).
Proof.
  induction attempts as [|a attempts IH]; intros written last_err w; simpl.
  - apply returns_mret. exists 0. split; [apply spends_refl | simpl; lia].
  - apply returns_bind.
    eapply returns_weaken; [apply download_attempt_spec|].
    intros [n1 oe] w1 (_ & (n & Hs & Hn) & _). simpl in *. subst n1.
    destruct oe as [e|]; simpl.
    + apply returns_bind, returns_emit.
      eapply returns_weaken; [apply IH|].
      intros r w2 (m & Hs2 & Hm). exists (n + m). split; [|lia].
      apply (spends_trans n 1 m _ w w1 w2 Hs).
      destruct Hs2 as (t & Ht & Hb & Hr). simpl in Ht.
      exists (EvSleep (backoff a) :: t). rewrite Ht, <- app_assoc. simpl. auto.
    + apply returns_mret. exists n. split; [|done].
      eapply spends_more; [exact Hs | lia].
Qed.

Lemma attempt_loop_first_success j pre k rest cs : forall written last_err w,
  (forall i, In i pre -> attempt_body j i = None) ->
  attempt_body j k = Some cs ->
  returns (attempt_loop O j (pre ++ k :: rest) written last_err) w
    (fun r w' => fst (fst r) = true
                 /\ fs w' !! job_dest j = Some (Raw (body_of cs))).
Proof.
  induction pre as [|a pre IH]; intros written last_err w Hpre Hk; simpl.
  - apply returns_bind.
    eapply returns_weaken; [apply download_attempt_spec|].
    intros [n oe] w1 (_ & _ & H). rewrite Hk in H. destruct H as [H1 Hf].
    simpl in *. subst oe. by apply returns_mret.
  - apply returns_bind.
    eapply returns_weaken; [apply download_attempt_spec|].
    intros [n oe] w1 (_ & _ & H). rewrite (Hpre a) in H by by left.
    destruct H as [e ->]. simpl. apply returns_bind, returns_emit.
    apply IH; [|done]. intros; apply Hpre; by right.
Qed.

Lemma attempt_loop_no_success j attempts : forall written last_err w,
  (forall i, In i attempts -> attempt_body j i = None) ->
  returns (attempt_loop O j attempts written last_err) w
    (fun r w' => fst (fst r) = false
                 /\ (attempts <> [] \/ is_Some last_err -> is_Some (snd r))).
Proof.
  induction attempts as [|a attempts IH]; intros written last_err w H; simpl.
  - apply returns_mret. split; [done|]. by intros [|].
  - apply returns_bind.
    eapply returns_weaken; [apply download_attempt_spec|].
    intros [n oe] w1 (_ & _ & Hb). rewrite (H a) in Hb by by left.
    destruct Hb as [e ->]. simpl. apply returns_bind, returns_emit.
    eapply returns_weaken; [apply IH; intros; apply H; by right|].
    intros r w2 (Hok & Hle). split; [done|]. intros _. apply Hle. right. by eexists.
Qed.

Lemma wrap_download_success_returns (max_retries k : nat) (j : job) (cs : list string)
    (w : world) :
  1 <= k <= max_retries ->
  (forall i, 1 <= i < k -> attempt_body j i = None) ->
  attempt_body j k = Some cs ->
  returns (_wrap_download O (Z.of_nat max_retries) j) w
    (fun r w' => (res_ok r = true /\ res_err r = None
                  /\ fs w' !! job_dest j = Some (Raw (body_of cs)))
                 /\ same_except (job_dest j) w w').
Proof.
  intros Hk Hpre Hcs.
  assert (Hseq : seq 1 max_retries = seq 1 (k - 1) ++ k :: seq (S k) (max_retries - k)).
  { replace max_retries with ((k - 1) + S (max_retries - k)) at 1 by lia.
    rewrite seq_app. simpl. f_equal. f_equal; [lia | f_equal; lia]. }
  apply returns_conj.
  - unfold _wrap_download. rewrite Nat2Z.id, Hseq. apply returns_bind.
    eapply returns_weaken.
    { apply attempt_loop_first_success; [|exact Hcs].
      intros i Hi. apply in_seq in Hi. apply Hpre. lia. }
    intros [[ok n] le] w' (Hok & Hf). simpl in *. subst ok. by apply returns_mret.
  - eapply returns_weaken; [apply wrap_download_returns|]. by intros r w' (_ & _ & H).
Qed.

(** X4: when the attempt [k <= max_retries] is the first whose response
    arrives whole, the job is recorded as succeeded, without error text;
    its destination holds exactly the bytes of that response, whatever
    earlier attempts had written there; and no other file has changed. *)
Theorem wrap_download_first_success (max_retries k : nat) (j : job) (cs : list string)
    (w : world) :
  1 <= k <= max_retries ->
  (forall i, 1 <= i < k -> attempt_body j i = None) ->
  attempt_body j k = Some cs ->
  exists r w',
    _wrap_download O (Z.of_nat max_retries) j w = (Ok r, w')
    /\ res_ok r = true /\ res_err r = None
    /\ fs w' !! job_dest j = Some (Raw (body_of cs))
    /\ (forall p, p <> job_dest j -> fs w' !! p = fs w !! p).
Proof.
  intros Hk Hpre Hcs.
  destruct (wrap_download_success_returns max_retries k j cs w Hk Hpre Hcs)
    as (r & w' & Hrun & (Hok & Herr & Hf) & Hsame).
  by exists r, w'.
Qed.

(** Either no attempt up to [n] arrives whole, or there is a first one
    that does. *)
Lemma first_whole_attempt j n :
  (forall i, 1 <= i <= n -> attempt_body j i = None)
  \/ exists k cs, 1 <= k <= n /\ attempt_body j k = Some cs
                  /\ forall i, 1 <= i < k -> attempt_body j i = None.
Proof.
  induction n as [|n [IH | (k & cs & Hk & Hcs & Hpre)]].
  - left. intros i Hi. lia.
  - destruct (attempt_body j (S n)) as [cs|] eqn:E.
    + right. exists (S n), cs. repeat split; [lia | lia | done |].
      intros i Hi. apply IH. lia.
    + left. intros i Hi. destruct (decide (i = S n)) as [->|]; [done|]. apply IH. lia.
  - right. exists k, cs. repeat split; [lia | lia | done | done].
Qed.

(** X5: [_wrap_download] never raises; its result carries the index and
    the destination of the job; it is recorded as succeeded exactly when
    one of the attempts 1 to [max_retries] arrives whole; a success has no
    error text and a failure has one. *)
Theorem wrap_download_ok_iff (max_retries : nat) (j : job) (w : world) :
  exists r w',
    _wrap_download O (Z.of_nat max_retries) j w = (Ok r, w')
    /\ res_idx r = job_idx j /\ res_dest r = job_dest j
    /\ (res_ok r = true <->
        exists k, 1 <= k <= max_retries /\ is_Some (attempt_body j k))
    /\ (res_ok r = true -> res_err r = None)
    /\ (res_ok r = false -> is_Some (res_err r)).
Proof.
  destruct (first_whole_attempt j max_retries) as [Hnone | (k & cs & Hk & Hcs & Hpre)].
  - assert (H : returns (_wrap_download O (Z.of_nat max_retries) j) w
                  (fun r w' => (res_idx r = job_idx j /\ res_dest r = job_dest j
                                /\ same_except (job_dest j) w w')
                               /\ res_ok r = false /\ is_Some (res_err r))).
    { apply returns_conj; [apply wrap_download_returns|].
      unfold _wrap_download. rewrite Nat2Z.id. apply returns_bind.
      eapply returns_weaken.
      { apply attempt_loop_no_success. intros i Hi. apply in_seq in Hi. apply Hnone. lia. }
      intros [[ok n] le] w' (Hok & _). simpl in *. subst ok.
      apply returns_mret. simpl. split; [done | by eexists]. }
    destruct H as (r & w' & Hrun & (Hi & Hd & _) & Hok & Herr).
    exists r, w'. repeat split; try done.
    + rewrite Hok. done.
    + intros (k & Hk & [cs Hcs]). rewrite (Hnone k Hk) in Hcs. done.
    + rewrite Hok. done.
  - destruct (wrap_download_success_returns max_retries k j cs w Hk Hpre Hcs)
      as (r & w' & Hrun & (Hok & Herr & _) & _).
    destruct (wrap_download_returns O (Z.of_nat max_retries) j w)
      as (r' & w'' & Hrun' & Hi & Hd & _).
    rewrite Hrun in Hrun'. injection Hrun' as <- <-.
    exists r, w'. repeat split; try done.
    + intros _. exists k. split; [done | by eexists].
    + rewrite Hok. done.
Qed.

Lemma wrap_download_spends (max_retries : Z) (j : job) (w : world) :
  returns (_wrap_download O max_retries j) w
    (fun r w' => spends (res_written r) (Z.to_nat max_retries) w w').
Proof.
  unfold _wrap_download. apply returns_bind.
  eapply returns_weaken; [apply attempt_loop_spends|].
  intros [[ok n] le] w' (m & Hs & Hn). simpl in *. subst n.
  apply returns_mret. simpl. by rewrite length_seq in Hs.
Qed.

(** X6: a job makes at most [max_retries] requests, and the byte count
    of its result is the number of bytes by which it has advanced the
    progress bar, over all its attempts. *)
Theorem wrap_download_accounting (max_retries : Z) (j : job) (w : world) :
  exists r w' t,
    _wrap_download O max_retries j w = (Ok r, w')
    /\ trace w' = trace w ++ t
    /\ res_written r = advanced t
    /\ length (network_calls t) <= Z.to_nat max_retries.
Proof.
  destruct (wrap_download_spends max_retries j w) as (r & w' & Hrun & t & Ht & Hb & Hr).
  by exists r, w', t.
Qed.

(** X7: over all jobs, the byte counts of the results add up to the
    number of bytes by which the progress bar has advanced, and at most
    [max_retries] requests per job are made. *)
Theorem run_jobs_accounting (max_retries : Z) (jobs : list job) (w : world) :
  exists rs w' t,
    run_jobs O max_retries jobs w = (Ok rs, w')
    /\ trace w' = trace w ++ t
    /\ list_sum (map res_written rs) = advanced t
    /\ length (network_calls t) <= Z.to_nat max_retries * length jobs.
Proof.
  assert (H : returns (run_jobs O max_retries jobs) w
                (fun rs w' => spends (list_sum (map res_written rs))
                                (Z.to_nat max_retries * length jobs) w w')).
  { revert w. induction jobs as [|j jobs IH]; intros w; simpl.
    - apply returns_mret. apply spends_refl.
    - apply returns_bind.
      eapply returns_weaken; [apply wrap_download_spends|].
      intros r w1 Hs1. apply returns_bind.
      eapply returns_weaken; [apply IH|].
      intros rs w2 Hs. apply returns_mret. simpl.
      replace (Z.to_nat max_retries * S (length jobs))
        with (Z.to_nat max_retries + Z.to_nat max_retries * length jobs) by lia.
      eapply spends_trans; [exact Hs1 | exact Hs]. }
  destruct H as (rs & w' & Hrun & t & Ht & Hb & Hr). by exists rs, w', t.
Qed.

(** X8: with [max_retries <= 0] no job makes a request or writes a file:
    each one is recorded as failed, with zero bytes and the error text
    ["None"]. *)
Theorem run_jobs_without_attempts (max_retries : Z) (jobs : list job) (w : world) :
  (max_retries <= 0)%Z ->
  run_jobs O max_retries jobs w
  = (Ok (map (fun j => JobResult (job_idx j) (job_dest j) false 0 (Some "None")) jobs), w).
Proof.
  intros Hle. induction jobs as [|j jobs IH]; simpl; [done|].
  unfold mbind, M_bind, bind, _wrap_download, mbind, M_bind, bind.
  replace (Z.to_nat max_retries) with 0 by lia. simpl.
  unfold mbind, M_bind, bind in IH. by rewrite IH.
Qed.

(** X9: [run_jobs] never raises, whatever the jobs meet: it returns one
    result per job, in the order of the jobs, and changes no file other
    than the destinations of the jobs. *)
Theorem run_jobs_independent (max_retries : Z) (jobs : list job) (w : world) :
  exists rs w',
    run_jobs O max_retries jobs w = (Ok rs, w')
    /\ map res_idx rs = map job_idx jobs
    /\ map res_dest rs = map job_dest jobs
    /\ (forall p, ~ In p (map job_dest jobs) -> fs w' !! p = fs w !! p).
Proof.
  destruct (run_jobs_returns O max_retries jobs w) as (rs & w' & Hrun & H).
  by exists rs, w'.
Qed.

End Jobs.

(** The scenario with a host that refuses twice and then answers. *)
Definition flaky_oracle : Oracle := {|
  urlparse := urlparse Scenario.oracle;
  session_get := fun _ k =>
    if (k <? 3)%nat then GetRaised (RequestException "Connection refused")
    else Scenario.answer ["da"; ""; "ta"] None;
  session_head := session_head Scenario.oracle;
  soup_total_divs := soup_total_divs Scenario.oracle;
  py_int := py_int Scenario.oracle;
  soup_content_imgs := soup_content_imgs Scenario.oracle;
  pil_to_jpeg := pil_to_jpeg Scenario.oracle;
  img2pdf_read := img2pdf_read Scenario.oracle;
  img2pdf_page_ok := img2pdf_page_ok Scenario.oracle;
  re_search_label := re_search_label Scenario.oracle;
  pool_events := pool_events Scenario.oracle
|}.

Lemma wrap_download_first_success_witness :
  exists r w',
    _wrap_download flaky_oracle 3 (Job 1 "u" "out/001.jpg")
      (World {[ "out/001.jpg" := Raw "stale" ]} []) = (Ok r, w')
    /\ res_ok r = true
    /\ fs w' !! "out/001.jpg" = Some (Raw "data").
Proof.
  destruct (wrap_download_first_success flaky_oracle 3 3 (Job 1 "u" "out/001.jpg")
              ["da"; ""; "ta"] (World {[ "out/001.jpg" := Raw "stale" ]} []))
    as (r & w' & Hrun & Hok & _ & Hf & _).
  - lia.
  - intros i Hi. assert (Hc : i = 1 \/ i = 2) by lia. by destruct Hc as [-> | ->].
  - reflexivity.
  - exists r, w'. by repeat split.
Defined.

Lemma run_jobs_without_attempts_witness :
  run_jobs Scenario.oracle 0 [Job 1 Scenario.good_png "out/001.png"] Scenario.empty_world
  = (Ok [JobResult 1 "out/001.png" false 0 (Some "None")], Scenario.empty_world).
Proof.
  apply (run_jobs_without_attempts Scenario.oracle 0
           [Job 1 Scenario.good_png "out/001.png"] Scenario.empty_world).
  lia.
Defined.

End JobFacts.

(** ** The size estimate and the assembled document *)

Module AssemblyFacts.
Import PyStr Env Url Net Downloader Assembler Orchestrator.
Import StrFacts DownloaderFacts RunFacts LayoutFacts OrchestratorFacts AssemblerFacts.
#[local] Arguments String.append !_ _ / : simpl nomatch.

Section Estimate.
Context (O : Oracle).

(** The size that the probe of [url] contributes: the declared length when
    the header is there, is made of digits and is read by [int], else 0. *)
Definition probe_size (url : string) : nat :=
  match session_head O url with
  | HeadHeaders (Some cl) =>
      if isdigit cl then match py_int O cl with
                         | Some n => Z.to_nat n
                         | None => 0
                         end
      else 0
  | _ => 0
  end.

Lemma head_content_length_valid url w :
  _is_valid_image_url O url = Some true ->
  _head_content_length O url w
  = (Ok (probe_size url), World (fs w) (trace w ++ [EvHead url])).
Proof.
  intros Hv. unfold _head_content_length, probe_size. rewrite Hv.
  unfold mbind, M_bind, bind, emit. simpl.
  destruct (session_head O url) as [[cl|]|e]; try done.
  destruct (isdigit cl); [|done]. by destruct (py_int O cl).
Qed.

Lemma sum_sizes_ok (sizes : list nat) : forall total_est,
  sum_sizes (map Ok sizes) total_est = Ok (total_est + list_sum sizes).
Proof.
  induction sizes as [|n sizes IH]; intros total_est; simpl.
  - by rewrite Nat.add_0_r.
  - rewrite IH. f_equal. lia.
Qed.

(** One HEAD request per job, as the tasks of the pool send them. *)
Definition probe_events (jobs : list job) : list (list event) :=
  map (fun j => [EvHead (job_url j)]) jobs.

Lemma pool_map_sizes_valid jobs w :
  (forall j, In j jobs -> _is_valid_image_url O (job_url j) = Some true) ->
  pool_map_sizes O jobs w
  = (Ok (list_sum (map (fun j => probe_size (job_url j)) jobs)),
     World (fs w) (trace w ++ pool_events O (probe_events jobs))).
Proof.
  intros H. unfold pool_map_sizes, probe_events.
  rewrite (map_ext_in _ (fun j => (Ok (probe_size (job_url j)),
                                   World (fs w) [EvHead (job_url j)]))).
  2:{ intros j Hj. by rewrite head_content_length_valid by by apply H. }
  rewrite !map_map. cbn [fst snd trace].
  rewrite <- (map_map (fun j => probe_size (job_url j)) Ok).
  by rewrite sum_sizes_ok.
Qed.

Lemma estimate_total_valid workers jobs w :
  (0 < workers)%Z ->
  (forall j, In j jobs -> _is_valid_image_url O (job_url j) = Some true) ->
  estimate_total O workers jobs w
  = (Ok (list_sum (map (fun j => probe_size (job_url j)) jobs)),
     World (fs w) (trace w ++ pool_events O (probe_events jobs))).
Proof.
  intros Hw H. unfold estimate_total, mbind, M_bind, bind.
  rewrite new_pool_positive by exact Hw. by apply pool_map_sizes_valid.
Qed.

(** X10: for the jobs that [build_jobs] has made and a positive number of
    workers, the size estimate does not fail: it changes no file, it
    returns the sum of what the probes contribute, and the trace grows by
    the scheduler's arrangement of one HEAD request per job.  With no
    worker the pool cannot be built, and the estimate raises [ValueError]
    before any request. *)
Theorem estimate_total_of_jobs (out_dir : string) (image_urls : list string)
    (jobs : list job) (workers : Z) (w : world) :
  build_jobs O out_dir 0 image_urls = Some jobs ->
  ((0 < workers)%Z ->
   estimate_total O workers jobs w
   = (Ok (list_sum (map (fun j => probe_size (job_url j)) jobs)),
      World (fs w) (trace w ++ pool_events O (probe_events jobs))))
  /\ ((workers <= 0)%Z ->
      estimate_total O workers jobs w
      = (Exc (ValueError "max_workers must be greater than 0"), w)).
Proof.
  intros Hb. split.
  - intros Hw. apply (estimate_total_valid workers jobs w Hw). intros j Hj.
    destruct (build_jobs_spec O _ _ _ _ Hb) as (Hu & _ & _).
    assert (Hin : In (job_url j) (List.filter (survives O) image_urls)).
    { rewrite <- Hu. by apply in_map. }
    apply filter_In in Hin as [_ Hs]. by apply bool_decide_eq_true_1 in Hs.
  - intros Hw. unfold estimate_total, mbind, M_bind, bind.
    by rewrite new_pool_raises by exact Hw.
Qed.

End Estimate.

(** In the scenario the scheduler lets the probes through in the reverse
    of the order of submission. *)
Lemma estimate_total_of_jobs_witness :
  build_jobs Scenario.oracle "out" 0 Scenario.image_urls = Some scenario_jobs
  /\ estimate_total Scenario.oracle 6 scenario_jobs Scenario.empty_world
     = (Ok 15,
        World ∅ [EvHead Scenario.dead_jpg; EvHead Scenario.cut_jpg;
                 EvHead Scenario.good_png])
  /\ estimate_total Scenario.oracle 0 scenario_jobs Scenario.empty_world
     = (Exc (ValueError "max_workers must be greater than 0"), Scenario.empty_world).
Proof.
  assert (H : build_jobs Scenario.oracle "out" 0 Scenario.image_urls = Some scenario_jobs)
    by reflexivity.
  split; [exact H|].
  destruct (estimate_total_of_jobs Scenario.oracle "out" Scenario.image_urls scenario_jobs
              6 Scenario.empty_world H) as [Hpos _].
  destruct (estimate_total_of_jobs Scenario.oracle "out" Scenario.image_urls scenario_jobs
              0 Scenario.empty_world H) as [_ Hneg].
  split; [exact (Hpos ltac:(lia)) | exact (Hneg ltac:(lia))].
Defined.

Section Assemble.
Context (O : Oracle).

(** X11: when the folder lists no file with an image extension,
    [images_to_pdf] returns [False]; it prints its warning and writes no
    file, in particular no document. *)
Theorem images_to_pdf_without_images (image_folder output_pdf : string) (w : world) :
  (forall name, In name (listdir (fs w) image_folder) -> has_image_ext name = false) ->
  images_to_pdf O image_folder output_pdf w
  = (Ok false, World (fs w) (trace w ++ [EvPrint (MsgNoImagesIn image_folder)])).
Proof.
  intros H.
  assert (Hsrc : src_files_of (fs w) image_folder = []).
  { unfold src_files_of.
    assert (Hf : List.filter has_image_ext (listdir (fs w) image_folder) = []).
    { induction (listdir (fs w) image_folder) as [|name l IH]; [done|]. simpl.
      rewrite (H name) by by left. apply IH. intros; apply H; by right. }
    by rewrite Hf. }
  unfold images_to_pdf, mbind, M_bind, bind, get_fs. by rewrite Hsrc.
Qed.

(** What [img2pdf.convert] makes of the files: one page per file, in
    order, each with the geometry that the layout rule gives to what was
    read from that file, a geometry that passed the check of the page
    size. *)
Lemma img2pdf_convert_pages files out_files : forall pages,
  img2pdf_convert O files out_files = Some pages ->
  Forall2 (fun f p =>
             page_file p = f
             /\ exists b wd ht ndpi,
                  files !! f = Some (Raw b)
                  /\ img2pdf_read O b = Some (wd, ht, ndpi)
                  /\ Layout.layout_fun_fixed_width wd ht ndpi = Some (page_geom p)
                  /\ img2pdf_page_ok O (page_geom p) = true)
          out_files pages.
Proof.
  induction out_files as [|f out_files IH]; intros pages H; simpl in H.
  - injection H as <-. constructor.
  - destruct (files !! f) as [[b|]|] eqn:Hf; simpl in H; try done.
    destruct (img2pdf_read O b) as [[[wd ht] ndpi]|] eqn:Hr; simpl in H; [|done].
    destruct (Layout.layout_fun_fixed_width wd ht ndpi) as [g|] eqn:Hg; simpl in H; [|done].
    destruct (img2pdf_page_ok O g) eqn:Hok; [|done].
    destruct (img2pdf_convert O files out_files) as [ps|]; simpl in H; [|done].
    injection H as <-. constructor; [|by apply IH].
    split; [done|]. by exists b, wd, ht, ndpi.
Qed.

Lemma layout_width wd ht ndpi g :
  Layout.layout_fun_fixed_width wd ht ndpi = Some g ->
  Layout.page_w g = 720%Q /\ Layout.img_w g = 720%Q /\ Layout.img_h g = Layout.page_h g.
Proof. rewrite layout_unfold. by intros [= <-]. Qed.

(** How [images_to_pdf] ends once some file is listed: [out] and [w1] are
    what [normalize] returns. *)
Lemma images_to_pdf_unfold image_folder output_pdf w out w1 :
  src_files_of (fs w) image_folder <> [] ->
  normalize O (path_join image_folder "_converted") (src_files_of (fs w) image_folder) w
  = (Ok out, w1) ->
  images_to_pdf O image_folder output_pdf w
  = if bool_decide (out = []) then
      (Ok false, World (fs w1) (trace w1 ++ [EvPrint (MsgNoConvertible image_folder)]))
    else
      let files := <[output_pdf := Raw ""]> (fs w1) in
      let t := trace w1 ++ [EvPrint (MsgStatus output_pdf)] in
      match img2pdf_convert O files out with
      | None => (Exc (OtherError "img2pdf"), World files t)
      | Some pages =>
          (Ok true, World (<[output_pdf := Pdf pages]> files)
                      (t ++ [EvPrint (MsgPdfSaved output_pdf)]))
      end.
Proof.
  intros Hsrc Hn. unfold images_to_pdf, mbind, M_bind, bind, get_fs.
  rewrite bool_decide_eq_false_2 by done. rewrite Hn.
  destruct (bool_decide (out = [])); [done|].
  unfold print, emit, put_file. simpl.
  by destruct (img2pdf_convert O _ out).
Qed.

Lemma normalize_total convert_dir src_files w :
  exists out w1, normalize O convert_dir src_files w = (Ok out, w1).
Proof.
  destruct (normalize_returns O convert_dir src_files w) as (out & w1 & H & _).
  by exists out, w1.
Qed.

(** X12: when [images_to_pdf] raises (because [img2pdf] rejects a file
    or a page size), the document has already been opened for writing: it
    is left behind, empty, and a later pass over the chapter with [force]
    off finds it and skips the chapter. *)
Theorem failed_assembly_blocks_rerun (series_dir img_dir : string) (idx : nat)
    (e : exn) (w w' : world) (workers max_retries : Z) (verbose : bool)
    (chapter_url : string) :
  images_to_pdf O img_dir (chapter_pdf series_dir (str_nat idx)) w = (Exc e, w') ->
  fs w' !! chapter_pdf series_dir (str_nat idx) = Some (Raw "")
  /\ bulk_chapter O series_dir false workers max_retries verbose idx chapter_url w'
     = print (MsgSkipExists (str_nat idx) (chapter_pdf series_dir (str_nat idx))) w'.
Proof.
  intros H.
  assert (Hf : fs w' !! chapter_pdf series_dir (str_nat idx) = Some (Raw "")).
  { destruct (decide (src_files_of (fs w) img_dir = [])) as [Hs | Hs].
    - unfold images_to_pdf, mbind, M_bind, bind, get_fs in H.
      rewrite bool_decide_eq_true_2 in H by done. done.
    - destruct (normalize_total (path_join img_dir "_converted")
                  (src_files_of (fs w) img_dir) w) as (out & w1 & Hn).
      rewrite (images_to_pdf_unfold _ _ _ _ _ Hs Hn) in H.
      destruct (bool_decide (out = [])); [done|]. simpl in H.
      destruct (img2pdf_convert O _ out); [done|].
      injection H as _ <-. simpl. by rewrite lookup_insert_eq. }
  split; [done|]. apply bulk_chapter_skip. rewrite Hf. by eexists.
Qed.

(** X13: when [images_to_pdf] returns [True], the document is in place
    and has at least one page; every page is 720pt wide, the image fills
    the page, and the geometry, which passed the size check of [img2pdf],
    is what [layout_fun_fixed_width] gives to the pixel size and DPI read
    from the bytes of the page's own file, as the files are when
    [img2pdf.convert] runs: those at the end, with the document still
    empty. *)
Theorem assembled_pages_fixed_width (image_folder output_pdf : string) (w w2 : world) :
  images_to_pdf O image_folder output_pdf w = (Ok true, w2) ->
  exists pages,
    fs w2 !! output_pdf = Some (Pdf pages)
    /\ pages <> []
    /\ forall p, In p pages ->
         Layout.page_w (page_geom p) = 720%Q
         /\ Layout.img_w (page_geom p) = 720%Q
         /\ Layout.img_h (page_geom p) = Layout.page_h (page_geom p)
         /\ exists b wd ht ndpi,
              <[output_pdf := Raw ""]> (fs w2) !! page_file p = Some (Raw b)
              /\ img2pdf_read O b = Some (wd, ht, ndpi)
              /\ Layout.layout_fun_fixed_width wd ht ndpi = Some (page_geom p)
              /\ img2pdf_page_ok O (page_geom p) = true.
Proof.
  intros H. destruct (decide (src_files_of (fs w) image_folder = [])) as [Hs | Hs].
  { unfold images_to_pdf, mbind, M_bind, bind, get_fs in H.
    rewrite bool_decide_eq_true_2 in H by done. done. }
  destruct (normalize_total (path_join image_folder "_converted")
              (src_files_of (fs w) image_folder) w) as (out & w1 & Hn).
  rewrite (images_to_pdf_unfold _ _ _ _ _ Hs Hn) in H.
  destruct (bool_decide (out = [])) eqn:Hout; [done|]. simpl in H.
  destruct (img2pdf_convert O _ out) as [pages|] eqn:Hc; [|done].
  injection H as <-. exists pages. simpl. split; [by rewrite lookup_insert_eq|].
  pose proof (img2pdf_convert_pages _ _ _ Hc) as Hpages.
  split.
  - intros ->. apply Forall2_nil_inv_r in Hpages. subst out.
    by rewrite bool_decide_eq_true_2 in Hout.
  - intros p Hp. apply list_elem_of_In, list_elem_of_lookup_1 in Hp as [i Hi].
    destruct (Forall2_lookup_r _ _ _ _ _ Hpages Hi)
      as (f & _ & Hfile & b & wd & ht & ndpi & Hb & Hr & Hg & Hok).
    destruct (layout_width _ _ _ _ Hg) as (H1 & H2 & H3).
    repeat split; try done. exists b, wd, ht, ndpi.
    rewrite !insert_insert_eq, Hfile. by repeat split.
Qed.

End Assemble.

(** The scenario with an [img2pdf] that rejects every file. *)
Definition rejecting_oracle : Oracle := {|
  urlparse := urlparse Scenario.oracle;
  session_get := session_get Scenario.oracle;
  session_head := session_head Scenario.oracle;
  soup_total_divs := soup_total_divs Scenario.oracle;
  py_int := py_int Scenario.oracle;
  soup_content_imgs := soup_content_imgs Scenario.oracle;
  pil_to_jpeg := pil_to_jpeg Scenario.oracle;
  img2pdf_read := fun _ => None;
  img2pdf_page_ok := img2pdf_page_ok Scenario.oracle;
  re_search_label := re_search_label Scenario.oracle;
  pool_events := pool_events Scenario.oracle
|}.

Definition world_with_page : world :=
  World {[ "one/Images/chapter-5/001.jpg" := Raw "JPEG 800x1200;scan data" ]} [].

Definition world_with_notes : world :=
  World {[ "one/Images/chapter-5/notes.txt" := Raw "to do" ]} [].

Lemma listdir_with_notes :
  listdir (fs world_with_notes) "one/Images/chapter-5" = ["notes.txt"].
Proof. vm_compute. reflexivity. Qed.

Lemma images_to_pdf_without_images_witness :
  (forall name, In name (listdir (fs world_with_notes) "one/Images/chapter-5") ->
                has_image_ext name = false)
  /\ images_to_pdf Scenario.oracle "one/Images/chapter-5" "one/Chapters/chapter-5.pdf"
       world_with_notes
     = (Ok false,
        World (fs world_with_notes) [EvPrint (MsgNoImagesIn "one/Images/chapter-5")]).
Proof.
  assert (H : forall name,
            In name (listdir (fs world_with_notes) "one/Images/chapter-5") ->
            has_image_ext name = false).
  { intros name Hin. rewrite listdir_with_notes in Hin.
    destruct Hin as [<- | []]. reflexivity. }
  split; [exact H|].
  exact (images_to_pdf_without_images Scenario.oracle "one/Images/chapter-5"
           "one/Chapters/chapter-5.pdf" world_with_notes H).
Defined.

Lemma failed_assembly_blocks_rerun_witness :
  images_to_pdf rejecting_oracle "one/Images/chapter-5" (chapter_pdf "one" (str_nat 5))
    world_with_page
  = (Exc (OtherError "img2pdf"),
     snd (images_to_pdf rejecting_oracle "one/Images/chapter-5"
            (chapter_pdf "one" (str_nat 5)) world_with_page))
  /\ fs (snd (images_to_pdf rejecting_oracle "one/Images/chapter-5"
                (chapter_pdf "one" (str_nat 5)) world_with_page))
       !! "one/Chapters/chapter-5.pdf"
     = Some (Raw "").
Proof.
  assert (H : images_to_pdf rejecting_oracle "one/Images/chapter-5"
                (chapter_pdf "one" (str_nat 5)) world_with_page
              = (Exc (OtherError "img2pdf"),
                 snd (images_to_pdf rejecting_oracle "one/Images/chapter-5"
                        (chapter_pdf "one" (str_nat 5)) world_with_page))).
  { vm_compute. reflexivity. }
  split; [exact H|].
  exact (proj1 (failed_assembly_blocks_rerun rejecting_oracle "one" "one/Images/chapter-5" 5
                  _ _ _ 6 3 false Scenario.chapter_url H)).
Defined.

Lemma assembled_pages_fixed_width_witness :
  images_to_pdf Scenario.oracle "one/Images/chapter-5" "one/Chapters/chapter-5.pdf"
    world_with_page
  = (Ok true,
     snd (images_to_pdf Scenario.oracle "one/Images/chapter-5"
            "one/Chapters/chapter-5.pdf" world_with_page))
  /\ exists pages,
       fs (snd (images_to_pdf Scenario.oracle "one/Images/chapter-5"
                  "one/Chapters/chapter-5.pdf" world_with_page))
         !! "one/Chapters/chapter-5.pdf" = Some (Pdf pages)
       /\ pages <> []
       /\ forall p, In p pages -> Layout.page_w (page_geom p) = 720%Q.
Proof.
  assert (H : images_to_pdf Scenario.oracle "one/Images/chapter-5"
                "one/Chapters/chapter-5.pdf" world_with_page
              = (Ok true,
                 snd (images_to_pdf Scenario.oracle "one/Images/chapter-5"
                        "one/Chapters/chapter-5.pdf" world_with_page))).
  { vm_compute. reflexivity. }
  split; [exact H|].
  destruct (assembled_pages_fixed_width Scenario.oracle _ _ _ _ H) as (pages & Hf & Hne & Hp).
  exists pages. split; [exact Hf|]. split; [exact Hne|].
  intros p Hin. exact (proj1 (Hp p Hin)).
Defined.

End AssemblyFacts.

(** ** Runs over a series *)

Module BulkFacts.
Import PyStr Env Url Net Names Enumerator Downloader Assembler Orchestrator.
Import StrFacts EnumeratorFacts DownloaderFacts RunFacts OrchestratorFacts NetFacts.
#[local] Arguments String.append !_ _ / : simpl nomatch.

Section Bulk.
Context (O : Oracle).

(** *** Fetching a page *)

(** What the fetch of a page leaves on the trace when its three requests
    end in a [RequestException], the last one with the message [m]. *)
Definition failed_fetch (url m : string) : list event :=
  EvPrint (MsgStatus url)
  :: flat_map (failed_attempt url) [1; 2; 3] ++ [EvPrint (MsgFetchError m)].

Lemma fetch_page_unreachable url w :
  (forall k, 1 <= k <= 3 -> is_Some (request_error (session_get O url) url k)) ->
  exists m,
    request_error (session_get O url) url 3 = Some m
    /\ fetch_page O url w = (Ok None, World (fs w) (trace w ++ failed_fetch url m)).
Proof.
  intros H. destruct (H 3) as [m Hm]; [lia|]. exists m. split; [done|].
  unfold fetch_page, try_except, mbind, M_bind, bind, print, emit, get_with_retries.
  change (seq 1 (Z.to_nat 3)) with [1; 2; 3].
  rewrite retry_loop_all_fail by (intros k Hk; apply H; simpl in Hk; lia).
  cbn [last_err_after]. rewrite Hm. simpl.
  unfold failed_fetch. simpl. by rewrite <- !app_assoc.
Qed.

Lemma fetch_page_first_try url resp w :
  session_get O url 1 = Responded resp -> raise_for_status url resp = None ->
  fetch_page O url w
  = (Ok (Some resp), World (fs w) (trace w ++ [EvPrint (MsgStatus url); EvGet url])).
Proof.
  intros Hg Hs.
  unfold fetch_page, try_except, mbind, M_bind, bind, print, emit, get_with_retries.
  change (seq 1 (Z.to_nat 3)) with [1; 2; 3]. cbn [retry_loop].
  unfold try_except, request_once, mbind, M_bind, bind, emit. simpl.
  rewrite Hg, Hs. unfold mret, M_ret, ret. simpl. by rewrite <- app_assoc.
Qed.

Lemma fetch_page_fs url w : fs (snd (fetch_page O url w)) = fs w.
Proof.
  unfold fetch_page, try_except, mbind, M_bind, bind, print, emit.
  pose proof (get_with_retries_fs (session_get O url) url 3
                (World (fs w) (trace w ++ [EvPrint (MsgStatus url)]))) as H.
  destruct (get_with_retries _ url 3 _) as [[resp|e] w1]; simpl in *; [done|].
  by destruct (is_request_exception e).
Qed.

Lemma fetch_page_exception url w e w' :
  fetch_page O url w = (Exc e, w') -> is_request_exception e = false.
Proof.
  unfold fetch_page, try_except, mbind, M_bind, bind, print, emit.
  destruct (get_with_retries _ url 3 _) as [[resp|e0] w1]; simpl; [done|].
  destruct (is_request_exception e0) eqn:E; [done|]. by intros [= <- _].
Qed.

(** *** The addresses of a chapter page *)

(** An address that [extract_chapter_images] keeps: a stripped attribute,
    not empty, with an [http://] or [https://] prefix in any case. *)
Definition absolute (u : string) : Prop :=
  u <> "" /\ (exists raw, u = strip_unicode raw)
  /\ (startswith (lower u) "http://" = true \/ startswith (lower u) "https://" = true).

(** The attribute that the loop reads from an [img] element. *)
Definition img_source (img : option string * option string) : string :=
  strip_unicode (match nonempty (fst img), nonempty (snd img) with
         | Some a, _ => a
         | None, Some b => b
         | None, None => ""
         end).

Lemma image_urls_of_spec imgs :
  image_urls_of imgs
  = List.filter (fun u => negb (String.eqb u "")
                          && startswith_any (lower u) ["http://"; "https://"])
      (map img_source imgs).
Proof.
  induction imgs as [|[data_src src] imgs IH]; [done|].
  cbn [image_urls_of map List.filter]. unfold img_source at 1 2. cbn [fst snd].
  destruct (String.eqb _ ""); cbn [negb andb]; [done|].
  destruct (startswith_any _ _); by rewrite IH.
Qed.

Lemma image_urls_absolute imgs u : In u (image_urls_of imgs) -> absolute u.
Proof.
  rewrite image_urls_of_spec, filter_In, in_map_iff.
  intros [(img & <- & _) H]. apply andb_prop in H as [Hne Hs].
  apply negb_true_iff, String.eqb_neq in Hne.
  split; [done|]. split; [by eexists|].
  unfold startswith_any in Hs. cbn [existsb] in Hs.
  rewrite orb_false_r in Hs. by apply orb_prop in Hs.
Qed.

Lemma extract_fs url w : fs (snd (extract_chapter_images O url w)) = fs w.
Proof.
  unfold extract_chapter_images, mbind, M_bind, bind.
  pose proof (fetch_page_fs url w) as H.
  destruct (fetch_page O url w) as [[[resp|]|e] w1]; simpl in *; try done.
  unfold response_text. destruct (stream_error resp); [done|].
  unfold mret, M_ret, ret. by destruct (soup_content_imgs O (text resp)).
Qed.

(** X14: [extract_chapter_images] changes no file; every address that it
    returns is a stripped attribute, is not empty and starts with
    [http://] or [https://], whatever the case of the letters.  It
    catches a [RequestException] of the request; when it lets one
    through, the page was fetched and the exception was raised while the
    body was read, after the [try]. *)
Theorem extract_chapter_images_absolute (chapter_url : string) (w : world) :
  fs (snd (extract_chapter_images O chapter_url w)) = fs w
  /\ match fst (extract_chapter_images O chapter_url w) with
     | Ok urls => forall u, In u urls -> absolute u
     | Exc e =>
         is_request_exception e = false
         \/ exists resp w1,
              fetch_page O chapter_url w = (Ok (Some resp), w1)
              /\ stream_error resp = Some e
     end.
Proof.
  split; [apply extract_fs|].
  unfold extract_chapter_images, mbind, M_bind, bind.
  destruct (fetch_page O chapter_url w) as [[[resp|]|e] w1] eqn:Hf; simpl.
  - unfold response_text. destruct (stream_error resp) as [e|] eqn:He; simpl.
    + right. by exists resp, w1.
    + unfold mret, M_ret, ret.
      destruct (soup_content_imgs O (text resp)) as [imgs|]; simpl; [|done].
      intros u. apply image_urls_absolute.
  - done.
  - left. by apply fetch_page_exception in Hf.
Qed.

Lemma extract_unreachable url w :
  (forall k, 1 <= k <= 3 -> is_Some (request_error (session_get O url) url k)) ->
  exists m,
    request_error (session_get O url) url 3 = Some m
    /\ extract_chapter_images O url w
       = (Ok [], World (fs w) (trace w ++ failed_fetch url m)).
Proof.
  intros H. destruct (fetch_page_unreachable url w H) as (m & Hm & Hf).
  exists m. split; [done|].
  unfold extract_chapter_images, mbind, M_bind, bind. by rewrite Hf.
Qed.

(** *** The loop of [run_bulk] *)

(** The chapter is due: its document is missing, or [force] is on. *)
Definition due (series_dir : string) (force : bool) (idx : nat) (w : world) : Prop :=
  fs w !! chapter_pdf series_dir (str_nat idx) = None \/ force = true.

Lemma bulk_chapter_due series_dir force workers max_retries verbose idx chapter_url w :
  due series_dir force idx w ->
  bulk_chapter O series_dir force workers max_retries verbose idx chapter_url w
  = (images ← extract_chapter_images O chapter_url;
     if bool_decide (images = []) then
       print (MsgNoImagesForChapter (str_nat idx))
     else
       download_images_threaded O images (chapter_dir series_dir (str_nat idx))
         workers max_retries verbose;;
       images_to_pdf O (chapter_dir series_dir (str_nat idx))
         (chapter_pdf series_dir (str_nat idx));;
       mret tt)
      (World (fs w) (trace w ++ [EvPrint (MsgProcessing (str_nat idx) chapter_url)])).
Proof.
  intros Hdue. unfold bulk_chapter at 1. unfold mbind at 1, M_bind at 1, bind at 1.
  unfold path_exists.
  assert (Hb : bool_decide (is_Some (fs w !! chapter_pdf series_dir (str_nat idx)))
               && negb force = false).
  { destruct Hdue as [Hn | ->]; [|apply andb_false_r].
    rewrite bool_decide_eq_false_2; [done|]. rewrite Hn. by intros [? ?]. }
  rewrite Hb. reflexivity.
Qed.

(** X15: a chapter whose page cannot be fetched does not stop the bulk
    run: after the three failed requests the loop prints that the chapter
    has no images and goes on with the next chapter; no file is written,
    so the chapter is still due at the next run. *)
Theorem unreachable_chapter_is_passed_over (series_dir : string) (force : bool)
    (workers max_retries : Z) (verbose : bool) (idx : nat) (chapter_url : string)
    (rest : list (nat * string)) (w : world) :
  due series_dir force idx w ->
  (forall k, 1 <= k <= 3 ->
     is_Some (request_error (session_get O chapter_url) chapter_url k)) ->
  exists m w',
    request_error (session_get O chapter_url) chapter_url 3 = Some m
    /\ fs w' = fs w
    /\ trace w' = trace w ++ EvPrint (MsgProcessing (str_nat idx) chapter_url)
                            :: failed_fetch chapter_url m
                            ++ [EvPrint (MsgNoImagesForChapter (str_nat idx))]
    /\ due series_dir force idx w'
    /\ bulk_loop O series_dir force workers max_retries verbose
         ((idx, chapter_url) :: rest) w
       = bulk_loop O series_dir force workers max_retries verbose rest w'.
Proof.
  intros Hdue H.
  destruct (extract_unreachable chapter_url
              (World (fs w) (trace w ++ [EvPrint (MsgProcessing (str_nat idx) chapter_url)]))
              H) as (m & Hm & He).
  exists m. eexists (World (fs w) _). split; [done|]. split; [done|].
  split; [reflexivity|]. split; [done|].
  cbn [bulk_loop]. unfold mbind at 1, M_bind at 1, bind at 1.
  rewrite (bulk_chapter_due _ _ _ _ _ _ _ _ Hdue).
  unfold mbind at 1, M_bind at 1, bind at 1. rewrite He. simpl.
  unfold print, emit. simpl. by rewrite <- !app_assoc.
Qed.

(** *** An address that the parser rejects *)

Lemma build_jobs_raises out_dir u urls : forall idx,
  In u urls -> urlparse O u = None -> build_jobs O out_dir idx urls = None.
Proof.
  induction urls as [|a urls IH]; intros idx Hin Hu; [done|]. cbn [build_jobs].
  destruct Hin as [-> | Hin].
  - unfold _is_valid_image_url. by rewrite Hu.
  - destruct (_is_valid_image_url O a) as [[|]|]; simpl; [|by apply IH|done].
    destruct (urlparse O a); simpl; [|done]. by rewrite IH.
Qed.

(** X16: one extracted address on which [urlparse] raises ends the whole
    run: [download_images_threaded] raises the [ValueError] before any
    request or write, nothing in [run_bulk] catches it, and the chapters
    that follow are not processed. *)
Theorem malformed_address_aborts_run (series_dir : string) (force : bool)
    (workers max_retries : Z) (verbose : bool) (idx : nat) (chapter_url : string)
    (rest : list (nat * string)) (w w1 : world) (images : list string) (u : string) :
  due series_dir force idx w ->
  extract_chapter_images O chapter_url
    (World (fs w) (trace w ++ [EvPrint (MsgProcessing (str_nat idx) chapter_url)]))
  = (Ok images, w1) ->
  In u images -> urlparse O u = None ->
  exists m,
    (forall out_dir w0,
       download_images_threaded O images out_dir workers max_retries verbose w0
       = (Exc (ValueError m), w0))
    /\ bulk_loop O series_dir force workers max_retries verbose
         ((idx, chapter_url) :: rest) w
       = (Exc (ValueError m), w1)
    /\ fs w1 = fs w.
Proof.
  intros Hdue He Hin Hu. exists "urlparse".
  assert (Hd : forall out_dir w0,
            download_images_threaded O images out_dir workers max_retries verbose w0
            = (Exc (ValueError "urlparse"), w0)).
  { intros out_dir w0. unfold download_images_threaded.
    rewrite (build_jobs_raises out_dir u images 0 Hin Hu). reflexivity. }
  split; [exact Hd|]. split.
  - cbn [bulk_loop]. unfold mbind at 1, M_bind at 1, bind at 1.
    rewrite (bulk_chapter_due _ _ _ _ _ _ _ _ Hdue).
    unfold mbind at 1, M_bind at 1, bind at 1. rewrite He.
    rewrite bool_decide_eq_false_2 by (intros ->; destruct Hin).
    unfold mbind at 1, M_bind at 1, bind at 1. by rewrite Hd.
  - pose proof (extract_fs chapter_url
                  (World (fs w) (trace w ++ [EvPrint (MsgProcessing (str_nat idx) chapter_url)])))
      as Hfs.
    by rewrite He in Hfs.
Qed.

(** *** The whole run *)

Lemma run_bulk_unfold series_url series_name force workers max_retries verbose
    series_dir w :
  derive_series_name O series_url series_name = Some series_dir ->
  run_bulk O series_url series_name force workers max_retries verbose w
  = (total ← get_total_chapters O (rstrip_by is_slash series_url);
     match total with
     | None | Some 0%Z => print MsgNoTotal
     | Some total =>
         print (MsgTotal total);;
         bulk_loop O series_dir force workers max_retries verbose
           (enumerate_from 1 (generate_chapter_urls series_url total))
     end) (World (fs w) (trace w ++ [EvPrint (MsgSetup series_dir)])).
Proof.
  intros Hd. unfold run_bulk, derive_series_name_M. rewrite Hd. reflexivity.
Qed.

(** X17: when the three requests for the series page end in a
    [RequestException], [run_bulk] returns without an exception after
    those three requests: it prints the error of the last one and that the
    total could not be determined, processes no chapter and changes no
    file. *)
Theorem run_bulk_series_page_unreachable (series_url : string)
    (series_name : option string) (force : bool) (workers max_retries : Z)
    (verbose : bool) (series_dir : string) (w : world) :
  derive_series_name O series_url series_name = Some series_dir ->
  (forall k, 1 <= k <= 3 ->
     is_Some (request_error (session_get O (rstrip_by is_slash series_url))
                (rstrip_by is_slash series_url) k)) ->
  exists m,
    request_error (session_get O (rstrip_by is_slash series_url))
      (rstrip_by is_slash series_url) 3 = Some m
    /\ run_bulk O series_url series_name force workers max_retries verbose w
       = (Ok tt,
          World (fs w)
            (trace w ++ EvPrint (MsgSetup series_dir)
                        :: failed_fetch (rstrip_by is_slash series_url) m
                        ++ [EvPrint MsgNoTotal])).
Proof.
  intros Hd H. rewrite (run_bulk_unfold _ _ _ _ _ _ _ _ Hd).
  destruct (fetch_page_unreachable (rstrip_by is_slash series_url)
              (World (fs w) (trace w ++ [EvPrint (MsgSetup series_dir)])) H)
    as (m & Hm & Hf).
  exists m. split; [done|].
  unfold get_total_chapters, mbind, M_bind, bind. rewrite Hf. simpl.
  unfold print, emit. simpl. by rewrite <- !app_assoc.
Qed.

Lemma enumerate_from_In {A} (l : list A) : forall s c,
  In c (enumerate_from s l) -> s <= fst c < s + length l.
Proof.
  induction l as [|x l IH]; intros s c H; simpl in *; [done|].
  destruct H as [<- | H]; simpl; [lia|]. apply IH in H. lia.
Qed.

(** X18: over a series whose chapters all have their document, a run
    with [force] off asks for the series page, whose body it reads to the
    end, and for nothing else: it prints one line per chapter, in order,
    and changes no file. *)
Theorem run_bulk_all_present (series_url : string) (series_name : option string)
    (workers max_retries : Z) (verbose : bool) (series_dir : string)
    (resp : Response) (N : Z) (w : world) :
  derive_series_name O series_url series_name = Some series_dir ->
  session_get O (rstrip_by is_slash series_url) 1 = Responded resp ->
  raise_for_status (rstrip_by is_slash series_url) resp = None ->
  stream_error resp = None ->
  total_from_divs O (soup_total_divs O (text resp)) = Some N ->
  (0 < N)%Z ->
  (forall i, 1 <= i <= Z.to_nat N ->
     is_Some (fs w !! chapter_pdf series_dir (str_nat i))) ->
  run_bulk O series_url series_name false workers max_retries verbose w
  = (Ok tt,
     World (fs w)
       (trace w ++ [EvPrint (MsgSetup series_dir);
                    EvPrint (MsgStatus (rstrip_by is_slash series_url));
                    EvGet (rstrip_by is_slash series_url);
                    EvPrint (MsgTotal N)]
                ++ skip_lines series_dir
                     (enumerate_from 1 (generate_chapter_urls series_url N))))
  /\ network_calls
       (skip_lines series_dir (enumerate_from 1 (generate_chapter_urls series_url N)))
     = [].
Proof.
  intros Hd Hg Hs He Ht HN Hall. split.
  - rewrite (run_bulk_unfold _ _ _ _ _ _ _ _ Hd).
    unfold get_total_chapters, mbind at 1, M_bind at 1, bind at 1.
    unfold mbind at 1, M_bind at 1, bind at 1.
    rewrite (fetch_page_first_try _ _ _ Hg Hs). simpl.
    unfold response_text. rewrite He.
    unfold mbind, M_bind, bind, mret, M_ret, ret. rewrite Ht.
    destruct N as [|N|N]; try lia.
    unfold mbind, M_bind, bind, print, emit. simpl.
    rewrite bulk_loop_all_skipped.
    + simpl. by rewrite <- !app_assoc.
    + intros c Hc. simpl. apply Hall. apply enumerate_from_In in Hc.
      rewrite length_generate in Hc. lia.
  - unfold network_calls, skip_lines.
    induction (enumerate_from 1 _) as [|c l IH]; [done|]. simpl. exact IH.
Qed.

End Bulk.

(** A site that answers every request, whose series page announces two
    chapters, and whose chapter pages hold one image and one address with
    an unclosed bracket, which [urlparse] rejects. *)
Definition bracket_oracle : Oracle := {|
  urlparse := fun u => if contains "[" u then None else urlparse_plain u;
  session_get := fun _ _ => Scenario.answer [] None;
  session_head := session_head Scenario.oracle;
  soup_total_divs := fun _ => [["Chapters"; "x"]; ["Total chapters:"; "2"]];
  py_int := fun s => if String.eqb s "2" then Some 2%Z else None;
  soup_content_imgs := fun _ =>
    Some [(None, Some Scenario.good_png); (Some " http://[cdn/2.jpg ", None)];
  pil_to_jpeg := pil_to_jpeg Scenario.oracle;
  img2pdf_read := img2pdf_read Scenario.oracle;
  img2pdf_page_ok := img2pdf_page_ok Scenario.oracle;
  re_search_label := re_search_label Scenario.oracle;
  pool_events := pool_events Scenario.oracle
|}.

Definition series_url : string := "https://site.example/series/one/".

Definition world_with_two_chapters : world :=
  World {[ "one/Chapters/chapter-1.pdf" := Pdf [];
           "one/Chapters/chapter-2.pdf" := Pdf [] ]} [].

Lemma run_bulk_series_page_unreachable_witness :
  derive_series_name Scenario.oracle series_url None = Some "one"
  /\ (forall k, 1 <= k <= 3 ->
        is_Some (request_error (session_get Scenario.oracle (rstrip_by is_slash series_url))
                   (rstrip_by is_slash series_url) k))
  /\ exists m,
       run_bulk Scenario.oracle series_url None false 6 3 false Scenario.empty_world
       = (Ok tt,
          World ∅ (EvPrint (MsgSetup "one")
                   :: failed_fetch "https://site.example/series/one" m
                   ++ [EvPrint MsgNoTotal])).
Proof.
  assert (H1 : derive_series_name Scenario.oracle series_url None = Some "one")
    by reflexivity.
  assert (H2 : forall k, 1 <= k <= 3 ->
            is_Some (request_error
                       (session_get Scenario.oracle (rstrip_by is_slash series_url))
                       (rstrip_by is_slash series_url) k)).
  { intros k _. by eexists. }
  split; [exact H1|]. split; [exact H2|].
  destruct (run_bulk_series_page_unreachable Scenario.oracle series_url None false 6 3
              false "one" Scenario.empty_world H1 H2) as (m & _ & Hrun).
  exists m. exact Hrun.
Defined.

Lemma unreachable_chapter_is_passed_over_witness :
  due "one" false 2 Scenario.empty_world
  /\ (forall k, 1 <= k <= 3 ->
        is_Some (request_error
                   (session_get Scenario.oracle "https://site.example/series/one/chapter-2")
                   "https://site.example/series/one/chapter-2" k))
  /\ exists w',
       fs w' = ∅
       /\ bulk_loop Scenario.oracle "one" false 6 3 false
            [(2, "https://site.example/series/one/chapter-2"); (5, Scenario.chapter_url)]
            Scenario.empty_world
          = bulk_loop Scenario.oracle "one" false 6 3 false [(5, Scenario.chapter_url)] w'.
Proof.
  assert (H1 : due "one" false 2 Scenario.empty_world) by (left; reflexivity).
  assert (H2 : forall k, 1 <= k <= 3 ->
            is_Some (request_error
                       (session_get Scenario.oracle
                          "https://site.example/series/one/chapter-2")
                       "https://site.example/series/one/chapter-2" k)).
  { intros k _. by eexists. }
  split; [exact H1|]. split; [exact H2|].
  destruct (unreachable_chapter_is_passed_over Scenario.oracle "one" false 6 3 false 2
              "https://site.example/series/one/chapter-2" [(5, Scenario.chapter_url)]
              Scenario.empty_world H1 H2) as (m & w' & _ & Hfs & _ & _ & Hrun).
  exists w'. split; [exact Hfs | exact Hrun].
Defined.

Lemma malformed_address_aborts_run_witness :
  due "one" false 1 Scenario.empty_world
  /\ In "http://[cdn/2.jpg" [Scenario.good_png; "http://[cdn/2.jpg"]
  /\ urlparse bracket_oracle "http://[cdn/2.jpg" = None
  /\ exists m w1,
       bulk_loop bracket_oracle "one" false 6 3 false
         [(1, "https://site.example/series/one/chapter-1");
          (2, "https://site.example/series/one/chapter-2")]
         Scenario.empty_world
       = (Exc (ValueError m), w1)
       /\ fs w1 = ∅.
Proof.
  assert (H1 : due "one" false 1 Scenario.empty_world) by (left; reflexivity).
  assert (H2 : In "http://[cdn/2.jpg" [Scenario.good_png; "http://[cdn/2.jpg"])
    by (right; left; reflexivity).
  assert (H3 : urlparse bracket_oracle "http://[cdn/2.jpg" = None) by reflexivity.
  split; [exact H1|]. split; [exact H2|]. split; [exact H3|].
  destruct (malformed_address_aborts_run bracket_oracle "one" false 6 3 false 1
              "https://site.example/series/one/chapter-1"
              [(2, "https://site.example/series/one/chapter-2")]
              Scenario.empty_world _ [Scenario.good_png; "http://[cdn/2.jpg"]
              "http://[cdn/2.jpg" H1 eq_refl H2 H3) as (m & _ & Hrun & Hfs).
  exists m. eexists. split; [exact Hrun | exact Hfs].
Defined.

Lemma run_bulk_all_present_witness :
  derive_series_name bracket_oracle series_url None = Some "one"
  /\ (0 < 2)%Z
  /\ (forall i, 1 <= i <= Z.to_nat 2 ->
        is_Some (fs world_with_two_chapters !! chapter_pdf "one" (str_nat i)))
  /\ run_bulk bracket_oracle series_url None false 6 3 false world_with_two_chapters
     = (Ok tt,
        World (fs world_with_two_chapters)
          [EvPrint (MsgSetup "one");
           EvPrint (MsgStatus "https://site.example/series/one");
           EvGet "https://site.example/series/one";
           EvPrint (MsgTotal 2);
           EvPrint (MsgSkipExists "1" "one/Chapters/chapter-1.pdf");
           EvPrint (MsgSkipExists "2" "one/Chapters/chapter-2.pdf")]).
Proof.
  assert (H1 : derive_series_name bracket_oracle series_url None = Some "one")
    by reflexivity.
  assert (H2 : (0 < 2)%Z) by lia.
  assert (H3 : forall i, 1 <= i <= Z.to_nat 2 ->
            is_Some (fs world_with_two_chapters !! chapter_pdf "one" (str_nat i))).
  { intros i Hi. assert (Hc : i = 1 \/ i = 2) by lia.
    destruct Hc as [-> | ->]; vm_compute; by eexists. }
  split; [exact H1|]. split; [exact H2|]. split; [exact H3|].
  exact (proj1 (run_bulk_all_present bracket_oracle series_url None 6 3 false "one"
                  (Build_Response 200 "OK" "chapter page" [] None) 2
                  world_with_two_chapters H1 eq_refl eq_refl eq_refl eq_refl H2 H3)).
Defined.

End BulkFacts.

(** ** Names and paths *)

Module PathFacts.
Import PyStr Env Url Names Enumerator Downloader Assembler Orchestrator.
Import StrFacts EnumeratorFacts NamesFacts DownloaderFacts.
#[local] Arguments String.append !_ _ / : simpl nomatch.

(** *** Stripping *)

Lemma rstrip_by_cons p c r :
  rstrip_by p (String c r)
  = match rstrip_by p r with
    | EmptyString => if p c then EmptyString else String c EmptyString
    | r' => String c r'
    end.
Proof. reflexivity. Qed.

Lemma rstrip_by_idem p s : rstrip_by p (rstrip_by p s) = rstrip_by p s.
Proof.
  induction s as [|c r IH]; [done|]. rewrite rstrip_by_cons.
  destruct (rstrip_by p r) as [|b r'] eqn:E.
  - destruct (p c) eqn:Hc; [done|]. rewrite rstrip_by_cons. simpl. by rewrite Hc.
  - by rewrite rstrip_by_cons, IH.
Qed.

Lemma lstrip_by_idem p s : lstrip_by p (lstrip_by p s) = lstrip_by p s.
Proof.
  induction s as [|c r IH]; simpl; [done|].
  destruct (p c) eqn:Hc; [done|]. simpl. by rewrite Hc.
Qed.

Lemma rstrip_lstrip p s :
  rstrip_by p s = s -> rstrip_by p (lstrip_by p s) = lstrip_by p s.
Proof.
  induction s as [|c r IH]; [done|]. intros H. simpl lstrip_by.
  destruct (p c) eqn:Hc; [|done]. apply IH.
  rewrite rstrip_by_cons in H. destruct (rstrip_by p r) as [|b r'] eqn:E.
  - rewrite Hc in H. discriminate.
  - by injection H.
Qed.

Lemma strip_idem s : strip (strip s) = strip s.
Proof.
  unfold strip. rewrite (rstrip_lstrip _ (rstrip_by _ s)) by apply rstrip_by_idem.
  apply lstrip_by_idem.
Qed.

Lemma rstrip_by_all p t : all_chars p t = true -> rstrip_by p t = "".
Proof.
  induction t as [|c t IH]; [done|]. intros H. simpl in H.
  apply andb_prop in H as [Hc Ht]. by rewrite rstrip_by_cons, IH, Hc.
Qed.

Lemma rstrip_by_app_all p s t :
  all_chars p t = true -> rstrip_by p (s +:+ t) = rstrip_by p s.
Proof.
  intros Ht. induction s as [|c s IH]; [simpl; by apply rstrip_by_all|].
  change (String c s +:+ t) with (String c (s +:+ t)). by rewrite !rstrip_by_cons, IH.
Qed.

Lemma rstrip_by_none p s :
  all_chars (fun c => negb (p c)) s = true -> rstrip_by p s = s.
Proof.
  induction s as [|c s IH]; [done|]. intros H. simpl in H.
  apply andb_prop in H as [Hc Hs]. apply negb_true_iff in Hc.
  rewrite rstrip_by_cons, IH by done. destruct s; [by rewrite Hc | done].
Qed.

Lemma rstrip_by_app p a b :
  rstrip_by p b <> "" -> rstrip_by p (a +:+ b) = a +:+ rstrip_by p b.
Proof.
  intros Hb. induction a as [|c a IH]; [done|].
  change (String c a +:+ b) with (String c (a +:+ b)).
  rewrite rstrip_by_cons, IH.
  change (String c a +:+ rstrip_by p b) with (String c (a +:+ rstrip_by p b)).
  destruct (a +:+ rstrip_by p b) eqn:E; [|done].
  destruct a; simpl in E; [done | discriminate].
Qed.

(** *** Series names *)

Lemma sub_unsafe_safe b s : all_chars is_safe s = true -> sub_unsafe b s = s.
Proof.
  revert b. induction s as [|c s IH]; simpl; intros b H; [done|].
  apply andb_prop in H as [Hc Hs]. rewrite Hc. f_equal. by apply IH.
Qed.

Lemma sanitize_name_fixed s :
  s <> "" -> all_chars is_safe s = true -> strip s = s -> sanitize_name s = s.
Proof.
  intros Hne Hsafe Hstrip. unfold sanitize_name, SAFE_NAME_RE_sub.
  rewrite sub_unsafe_safe, Hstrip by done. by destruct s.
Qed.

Lemma sanitize_name_shape s :
  sanitize_name s <> "" /\ all_chars is_safe (sanitize_name s) = true
  /\ strip (sanitize_name s) = sanitize_name s.
Proof.
  unfold sanitize_name.
  destruct (strip (SAFE_NAME_RE_sub s)) as [|c t] eqn:E; [by repeat split|].
  simpl str_or. rewrite <- E. repeat split.
  - by rewrite E.
  - unfold strip. apply all_chars_lstrip, all_chars_rstrip, all_safe_sub.
  - apply strip_idem.
Qed.

(** X19: the names that [sanitize_name] leaves as they are are exactly the
    names that are not empty, have no character outside [[A-Za-z0-9 _-]]
    and no white space at either end; every name that it returns is one of
    them, so sanitizing twice is sanitizing once. *)
Theorem sanitize_name_idempotent (s : string) :
  sanitize_name (sanitize_name s) = sanitize_name s
  /\ (sanitize_name s = s
      <-> s <> "" /\ all_chars is_safe s = true /\ strip s = s).
Proof.
  destruct (sanitize_name_shape s) as (Hne & Hsafe & Hstrip). split.
  - by apply sanitize_name_fixed.
  - split.
    + intros <-. by repeat split.
    + intros (H1 & H2 & H3). by apply sanitize_name_fixed.
Qed.

(** *** The last component of a path *)

Lemma rfind_from_none c s : forall i, has_char c s = false -> rfind_from c s i = None.
Proof.
  induction s as [|a s IH]; intros i H; [done|]. simpl in H.
  apply orb_false_elim in H as [Ha Hs]. simpl. by rewrite IH, Ha.
Qed.

Lemma rfind_from_last c dir name : forall i,
  has_char c name = false ->
  rfind_from c (dir +:+ String c name) i = Some (i + String.length dir).
Proof.
  induction dir as [|a dir IH]; intros i Hn.
  - simpl. rewrite rfind_from_none by done. rewrite Ascii.eqb_refl. f_equal. lia.
  - change (String a dir +:+ String c name) with (String a (dir +:+ String c name)).
    simpl. rewrite IH by done. f_equal. lia.
Qed.

Lemma substring_all b : String.substring 0 (String.length b) b = b.
Proof. induction b; simpl; congruence. Qed.

Lemma substring_app_r a b :
  String.substring (String.length a) (String.length b) (a +:+ b) = b.
Proof. induction a; simpl; [apply substring_all | done]. Qed.

Lemma basename_last dir name :
  has_char "/" name = false -> basename (dir +:+ String "/" name) = name.
Proof.
  intros H. unfold basename, rfind. rewrite rfind_from_last by done.
  unfold slice_from.
  replace (Z.to_nat (Z.of_nat (0 + String.length dir) + 1))
    with (String.length (dir +:+ "/")) by (rewrite length_append; simpl; lia).
  replace (dir +:+ String "/" name) with ((dir +:+ "/") +:+ name)
    by (by rewrite append_assoc).
  rewrite (length_append (dir +:+ "/") name).
  replace (String.length (dir +:+ "/") + String.length name - String.length (dir +:+ "/"))
    with (String.length name) by lia.
  apply substring_app_r.
Qed.

Lemma no_slash_chars name :
  has_char "/" name = false -> all_chars (fun c => negb (is_slash c)) name = true.
Proof.
  induction name as [|c name IH]; [done|]. simpl. intros H.
  apply orb_false_elim in H as [Hc Hn]. rewrite IH by done. unfold is_slash. by rewrite Hc.
Qed.

Section Derive.
Context (O : Oracle).

(** X20: without an override, the series name is made from the last
    component of the path of the address, whatever the number of slashes
    after it; a path made of slashes only, or an empty one, gives
    ["series"]; an override that is not empty is used instead, and the
    address is then not parsed. *)
Theorem derive_series_name_last_component (any_url : string) (parsed : ParseResult) :
  urlparse O any_url = Some parsed ->
  (forall dir name slashes,
     path parsed = dir +:+ "/" +:+ name +:+ slashes ->
     name <> "" -> has_char "/" name = false -> all_chars is_slash slashes = true ->
     derive_series_name O any_url None = Some (sanitize_name name)
     /\ derive_series_name O any_url (Some "") = Some (sanitize_name name))
  /\ (all_chars is_slash (path parsed) = true ->
      derive_series_name O any_url None = Some "series")
  /\ (forall any_url' name,
        name <> "" -> derive_series_name O any_url' (Some name) = Some (sanitize_name name)).
Proof.
  intros Hp. split; [|split].
  - intros dir name slashes Hpath Hne Hns Hsl.
    assert (Hd : derive_series_name O any_url None = Some (sanitize_name name)).
    { unfold derive_series_name. cbn [nonempty]. rewrite Hp. cbn [mbind option_bind].
      rewrite Hpath.
      replace (dir +:+ "/" +:+ name +:+ slashes) with ((dir +:+ String "/" name) +:+ slashes)
        by (by rewrite !append_assoc).
      rewrite rstrip_by_app_all by done.
      assert (Hname : rstrip_by is_slash name = name)
        by by apply rstrip_by_none, no_slash_chars.
      replace (dir +:+ String "/" name) with ((dir +:+ "/") +:+ name)
        by (by rewrite append_assoc).
      rewrite rstrip_by_app by (by rewrite Hname). rewrite Hname.
      replace ((dir +:+ "/") +:+ name) with (dir +:+ String "/" name)
        by (by rewrite append_assoc).
      rewrite basename_last by done. by destruct name. }
    split; [exact Hd|]. exact Hd.
  - intros Hall. unfold derive_series_name. cbn [nonempty]. rewrite Hp.
    cbn [mbind option_bind]. by rewrite rstrip_by_all.
  - intros any_url' name Hne. unfold derive_series_name. by destruct name.
Qed.

End Derive.

Lemma derive_series_name_last_component_witness :
  urlparse Scenario.oracle "https://site.example/series/one.piece//?page=2"
  = Some {| scheme := "https"; netloc := "site.example"; path := "/series/one.piece//";
            params := ""; query := "page=2"; fragment := "" |}
  /\ derive_series_name Scenario.oracle "https://site.example/series/one.piece//?page=2" None
     = Some "one_piece".
Proof.
  assert (H : urlparse Scenario.oracle "https://site.example/series/one.piece//?page=2"
              = Some {| scheme := "https"; netloc := "site.example";
                        path := "/series/one.piece//";
                        params := ""; query := "page=2"; fragment := "" |})
    by reflexivity.
  split; [exact H|].
  destruct (derive_series_name_last_component Scenario.oracle _ _ H) as (H1 & _ & _).
  assert (Hne : "one.piece" <> "") by discriminate.
  destruct (H1 "/series" "one.piece" "//" eq_refl Hne eq_refl eq_refl) as [Hd _].
  exact Hd.
Defined.

(** *** Chapter paths *)

Lemma append_inj_l a x y : a +:+ x = a +:+ y -> x = y.
Proof. induction a as [|c a IH]; simpl; [done|]. intros [= H]. auto. Qed.

Lemma append_inj_r c : forall a b, a +:+ c = b +:+ c -> a = b.
Proof.
  intros a b H.
  assert (Hl : String.length a = String.length b).
  { apply (f_equal String.length) in H. rewrite !length_append in H. lia. }
  revert b H Hl. induction a as [|x a IH]; intros [|y b] H Hl; simpl in *; try done.
  injection H as -> H. f_equal. apply IH; [done | lia].
Qed.

Lemma path_join_inj a b b' :
  String.prefix "/" b = false -> String.prefix "/" b' = false ->
  path_join a b = path_join a b' -> b = b'.
Proof.
  intros Hb Hb'. rewrite !path_join_prefix by done. apply append_inj_l.
Qed.

Lemma str_nat_inj i j : str_nat i = str_nat j -> i = j.
Proof.
  unfold str_nat, str_Z. intros H.
  assert (Hnn : forall k, Z.to_int (Z.of_nat k) <> Decimal.Pos Decimal.Nil
                          /\ Z.to_int (Z.of_nat k) <> Decimal.Neg Decimal.Nil).
  { intros k. destruct (Z.of_nat k) as [|p|p]; simpl; split; try discriminate;
      intros [= Hp]; by apply DecimalPos.Unsigned.to_uint_nonnil in Hp. }
  apply (f_equal NilZero.int_of_string) in H.
  rewrite !NilZero.isi in H by apply Hnn.
  injection H as H. apply (f_equal Z.of_int) in H. rewrite !DecimalZ.of_to in H. lia.
Qed.

(** X21: different chapter numbers get different document paths and
    different image folders in a series, and so do different labels. *)
Theorem chapter_paths_distinct (root : string) (i j : nat) :
  i <> j ->
  chapter_pdf root (str_nat i) <> chapter_pdf root (str_nat j)
  /\ chapter_dir root (str_nat i) <> chapter_dir root (str_nat j)
  /\ (forall l l', l <> l' ->
        chapter_pdf root l <> chapter_pdf root l'
        /\ chapter_dir root l <> chapter_dir root l').
Proof.
  intros Hij.
  assert (Hl : forall l l', l <> l' ->
            chapter_pdf root l <> chapter_pdf root l'
            /\ chapter_dir root l <> chapter_dir root l').
  { intros l l' Hne. split; intros H; apply Hne.
    - unfold chapter_pdf in H. apply path_join_inj in H; [|done|done].
      injection H as H. by apply append_inj_r in H.
    - unfold chapter_dir in H. apply path_join_inj in H; [|done|done].
      by injection H. }
  destruct (Hl (str_nat i) (str_nat j)) as [H1 H2].
  { intros H. by apply Hij, str_nat_inj. }
  split; [exact H1 | split; [exact H2 | exact Hl]].
Qed.

Lemma chapter_paths_distinct_witness :
  1 <> 10
  /\ chapter_pdf "one" (str_nat 1) <> chapter_pdf "one" (str_nat 10)
  /\ chapter_dir "one" (str_nat 1) <> chapter_dir "one" (str_nat 10).
Proof.
  assert (H : 1 <> 10) by lia.
  split; [exact H|].
  destruct (chapter_paths_distinct "one" 1 10 H) as (H1 & H2 & _).
  split; [exact H1 | exact H2].
Defined.

End PathFacts.

(** ** Chapter labels *)

Module LabelFacts.
Import PyStr Env Url Names Enumerator Downloader Assembler Orchestrator.
Import StrFacts EnumeratorFacts PathFacts.
#[local] Arguments String.append !_ _ / : simpl nomatch.

(** *** Digits *)

Lemma span_digits_fst s : all_chars is_digit (fst (span_digits s)) = true.
Proof.
  induction s as [|c s IH]; simpl; [done|].
  destruct (is_digit c) eqn:Hc; [|done].
  destruct (span_digits s) as [d t]. simpl in *. by rewrite Hc, IH.
Qed.




(** *** The pattern *)





(** What may follow the digits: the end, a slash, or a final line feed. *)
Definition tail_ok (rest : string) : bool :=
  String.eqb rest EmptyString || String.prefix "/" rest
  || String.eqb rest (String (ascii_of_nat 10) EmptyString).

Lemma match_number_unfold s :
  match_number s
  = let s' := match s with
              | String c r =>
                  if Ascii.eqb c "-"%char || Ascii.eqb c "_"%char || Ascii.eqb c "/"%char
                  then r else s
              | EmptyString => s
              end in
    if String.eqb (fst (span_digits s')) EmptyString then None
    else if tail_ok (snd (span_digits s')) then Some (fst (span_digits s')) else None.
Proof. unfold match_number, tail_ok. cbv zeta. by destruct (span_digits _). Qed.







Lemma search_label_cons b c r :
  search_label b (String c r)
  = match (if b then match_label (String c r) else None) with
    | Some d => Some d
    | None =>
        match (if Ascii.eqb c "/" then match_label r else None) with
        | Some d => Some d
        | None => search_label false r
        end
    end.
Proof. reflexivity. Qed.



(** *** Labels *)

Lemma match_number_digits s d :
  match_number s = Some d -> d <> "" /\ all_chars is_digit d = true.
Proof.
  rewrite match_number_unfold. cbv zeta.
  destruct (String.eqb (fst (span_digits _)) "") eqn:E; [done|].
  destruct (tail_ok _); [|done]. intros [= <-].
  apply String.eqb_neq in E. split; [done | apply span_digits_fst].
Qed.

Lemma match_label_digits s d :
  match_label s = Some d -> d <> "" /\ all_chars is_digit d = true.
Proof.
  unfold match_label. intros H.
  destruct (match_word "chapter" s ≫= match_number) as [d1|] eqn:E1.
  { injection H as <-. destruct (match_word "chapter" s); [|done].
    by apply match_number_digits in E1. }
  destruct (match_word "chap" s ≫= match_number) as [d2|] eqn:E2.
  { injection H as <-. destruct (match_word "chap" s); [|done].
    by apply match_number_digits in E2. }
  destruct (match_word "ch" s); [|done]. by apply match_number_digits in H.
Qed.

Lemma search_label_digits s : forall b d,
  search_label b s = Some d -> d <> "" /\ all_chars is_digit d = true.
Proof.
  induction s as [|c s IH]; intros b d H.
  - destruct b; by vm_compute in H.
  - rewrite search_label_cons in H.
    destruct (if b then match_label (String c s) else None) as [d1|] eqn:E1.
    { injection H as <-. destruct b; [by apply match_label_digits in E1 | done]. }
    destruct (if Ascii.eqb c "/" then match_label s else None) as [d2|] eqn:E2.
    { injection H as <-. destruct (Ascii.eqb c "/"); [by apply match_label_digits in E2 | done]. }
    by apply IH in H.
Qed.

(** *** Addresses of ASCII characters *)





Section Labels.
Context (O : Oracle).

Lemma chapter_label_ascii url :
  is_ascii url = true -> chapter_label_from_url O url = search_label true url.
Proof. intros H. unfold chapter_label_from_url. by rewrite H. Qed.

(** X22: the label of a single chapter is never empty.  A chapter number
    that is given and not empty is the label; without one the label is
    what the pattern finds in the address, or ["custom"] when it finds
    nothing.  In an address of ASCII characters what the pattern finds is
    a run of one or more of the digits [0] to [9]. *)
Theorem single_label_shape (chapter_num : option string) (chapter_url : string) :
  single_label O chapter_num chapter_url <> ""
  /\ (forall l, chapter_num = Some l -> l <> "" ->
                single_label O chapter_num chapter_url = l)
  /\ (nonempty chapter_num = None ->
      match nonempty (chapter_label_from_url O chapter_url) with
      | Some d => single_label O chapter_num chapter_url = d
      | None => single_label O chapter_num chapter_url = "custom"
      end)
  /\ (is_ascii chapter_url = true ->
      forall d, chapter_label_from_url O chapter_url = Some d ->
                d <> "" /\ all_chars is_digit d = true).
Proof.
  assert (H3 : nonempty chapter_num = None ->
            match nonempty (chapter_label_from_url O chapter_url) with
            | Some d => single_label O chapter_num chapter_url = d
            | None => single_label O chapter_num chapter_url = "custom"
            end).
  { intros Hn. unfold single_label. rewrite Hn.
    by destruct (nonempty (chapter_label_from_url O chapter_url)). }
  split; [|split; [|split; [exact H3|]]].
  - destruct (nonempty chapter_num) as [l|] eqn:Hn.
    + unfold single_label. rewrite Hn. destruct chapter_num as [[|c l']|]; try done.
      by injection Hn as <-.
    + specialize (H3 eq_refl).
      destruct (chapter_label_from_url O chapter_url) as [[|c d]|]; cbn [nonempty] in H3;
        by rewrite H3.
  - intros l -> Hne. unfold single_label. by destruct l.
  - intros Ha d Hd. rewrite (chapter_label_ascii _ Ha) in Hd.
    by apply search_label_digits in Hd.
Qed.


End Labels.


End LabelFacts.

(** ** The order of the pages *)

Module PageOrderFacts.
Import PyStr Env Url Net Downloader Assembler.
Import StrFacts DownloaderFacts RunFacts AssemblerFacts.
#[local] Arguments String.append !_ _ / : simpl nomatch.

(** *** Sorting a part of a list that is in strict order *)

Lemma compare_refl s : String.compare s s = Eq.
Proof. induction s as [|c s IH]; simpl; [done|]. by rewrite ascii_compare_refl. Qed.

Lemma str_lt_irrefl x : ~ str_lt x x.
Proof. unfold str_lt, str_ltb, String.ltb. by rewrite compare_refl. Qed.

Lemma str_lt_not_leb x y : str_lt y x -> str_leb x y = false.
Proof.
  unfold str_lt, str_ltb, str_leb, String.ltb, String.leb.
  rewrite (String.compare_antisym x y). by destruct (String.compare y x).
Qed.

Lemma str_in_In x l : str_in x l = true <-> In x l.
Proof.
  unfold str_in. rewrite existsb_exists. split.
  - intros (y & Hy & E). apply String.eqb_eq in E. by subst.
  - intros H. exists x. split; [done | apply String.eqb_refl].
Qed.

Lemma str_in_not x l : ~ In x l -> str_in x l = false.
Proof.
  intros H. destruct (str_in x l) eqn:E; [|done]. by apply str_in_In in E.
Qed.

Lemma insert_filter D :
  StronglySorted str_lt D -> forall x L,
  In x D -> ~ In x L ->
  insert_by str_leb x (List.filter (fun d => str_in d L) D)
  = List.filter (fun d => str_in d (x :: L)) D.
Proof.
  induction 1 as [|y D HD IH Hy]; intros x L Hin Hnot; [destruct Hin|].
  rewrite Forall_forall in Hy. cbn [List.filter str_in existsb].
  destruct (String.eqb_spec y x) as [-> | Hne].
  - rewrite (str_in_not _ _ Hnot). cbn [orb].
    rewrite insert_by_head.
    + f_equal. apply filter_ext_in. intros d Hd.
      destruct (String.eqb_spec d x) as [-> | _]; [|done].
      destruct (str_lt_irrefl x). apply Hy. by apply list_elem_of_In.
    + apply Forall_forall. intros d Hd. apply Hy.
      apply list_elem_of_In in Hd. apply list_elem_of_In.
      by apply filter_In in Hd as [Hd _].
  - destruct Hin as [-> | Hin]; [done|]. cbn [orb].
    assert (Hyx : str_lt y x) by (apply Hy; by apply list_elem_of_In).
    fold (str_in y L). destruct (str_in y L).
    + cbn [insert_by]. rewrite (str_lt_not_leb _ _ Hyx). f_equal. by apply IH.
    + by apply IH.
Qed.

Lemma py_sorted_filter D :
  StronglySorted str_lt D -> forall L,
  List.NoDup L -> (forall x, In x L -> In x D) ->
  py_sorted L = List.filter (fun d => str_in d L) D.
Proof.
  intros HD. induction L as [|x L IH]; intros Hnd Hsub.
  - unfold py_sorted. simpl. clear. induction D as [|d D IH]; [done|]. exact IH.
  - apply List.NoDup_cons_iff in Hnd as [Hx Hnd].
    unfold py_sorted in *. cbn [sort_by].
    rewrite IH by (done || (intros; apply Hsub; by right)).
    apply insert_filter; [done | apply Hsub; by left | done].
Qed.

Lemma filter_sublist {A} (f : A -> bool) (l : list A) : sublist (List.filter f l) l.
Proof.
  induction l as [|x l IH]; simpl; [constructor|].
  destruct (f x); by constructor.
Qed.

(** *** What a folder lists *)

(** The file [p] lies in [folder] and has an image extension. *)
Definition listed_image (folder p : string) : bool :=
  match child_name folder p with
  | Some name => has_image_ext name
  | None => false
  end.

Lemma src_candidates (files : gmap string content) folder :
  map (path_join folder) (List.filter has_image_ext (listdir files folder))
  = List.filter (listed_image folder) (elements (dom files)).
Proof.
  unfold listdir. induction (elements (dom files)) as [|p l IH]; [done|].
  cbn [omap list_omap List.filter]. unfold listed_image at 1.
  destruct (child_name folder p) as [name|] eqn:E; [|exact IH].
  cbn [List.filter]. destruct (has_image_ext name); [|exact IH].
  cbn [map]. by rewrite IH, (child_name_join _ _ _ E).
Qed.

Lemma src_candidates_NoDup (files : gmap string content) folder :
  List.NoDup (map (path_join folder) (List.filter has_image_ext (listdir files folder))).
Proof.
  rewrite src_candidates. apply List.NoDup_filter, NoDup_ListNoDup, NoDup_elements.
Qed.

Lemma src_candidates_In (files : gmap string content) folder p :
  In p (map (path_join folder) (List.filter has_image_ext (listdir files folder)))
  <-> is_Some (files !! p) /\ listed_image folder p = true.
Proof.
  rewrite src_candidates, filter_In, <- list_elem_of_In, elem_of_elements, elem_of_dom.
  done.
Qed.

Lemma listed_image_listdir (files : gmap string content) folder p :
  is_Some (files !! p) -> listed_image folder p = true ->
  exists name, In name (listdir files folder) /\ has_image_ext name = true.
Proof.
  intros Hp Hl. unfold listed_image in Hl.
  destruct (child_name folder p) as [name|] eqn:E; [|done].
  exists name. split; [|done]. unfold listdir.
  apply list_elem_of_In, list_elem_of_omap. exists p. split; [|done].
  by apply elem_of_elements, elem_of_dom.
Qed.

(** *** The names of the destination files *)

Lemma strip_prefix_append pre name : strip_prefix pre (pre +:+ name) = Some name.
Proof. induction pre as [|a pre IH]; simpl; [done|]. by rewrite Ascii.eqb_refl. Qed.

Lemma has_char_app c a b : has_char c (a +:+ b) = has_char c a || has_char c b.
Proof. induction a as [|x a IH]; simpl; [done|]. by rewrite IH, orb_assoc. Qed.

Lemma lower_app a b : lower (a +:+ b) = lower a +:+ lower b.
Proof. induction a as [|x a IH]; simpl; [done|]. by rewrite IH. Qed.

Lemma rev_string_app a b : rev_string (a +:+ b) = rev_string b +:+ rev_string a.
Proof.
  induction a as [|x a IH]; simpl; [by rewrite append_nil_r|].
  by rewrite IH, append_assoc.
Qed.

Lemma prefix_append p q : String.prefix p (p +:+ q) = true.
Proof.
  induction p as [|x p IH]; simpl; [by destruct q|].
  destruct (ascii_dec x x); [exact IH | done].
Qed.

Lemma endswith_append x e : endswith (x +:+ e) e = true.
Proof. unfold endswith. rewrite rev_string_app. apply prefix_append. Qed.

Lemma stems_no_slash : forallb (fun s => negb (has_char "/" s)) stems = true.
Proof. vm_compute. reflexivity. Qed.

Lemma fmt_03d_no_slash k : 1 <= k <= 999 -> has_char "/" (fmt_03d (Z.of_nat k)) = false.
Proof.
  intros Hk. pose proof stems_no_slash as H. rewrite forallb_forall in H.
  apply negb_true_iff, H, list_elem_of_In.
  eapply list_elem_of_lookup_2. by apply stems_lookup.
Qed.

Lemma image_name stem e :
  In e [".jpg"; ".jpeg"; ".png"; ".webp"] -> has_image_ext (stem +:+ e) = true.
Proof.
  intros He. unfold has_image_ext, endswith_any. rewrite lower_app.
  cbn [existsb]. simpl in He.
  destruct He as [<- | [<- | [<- | [<- | []]]]].
  - change (lower ".jpg") with ".jpg". by rewrite endswith_append.
  - change (lower ".jpeg") with ".jpeg". by rewrite endswith_append, orb_true_r.
  - change (lower ".png") with ".png". by rewrite endswith_append, !orb_true_r.
  - change (lower ".webp") with ".webp". by rewrite endswith_append, !orb_true_r.
Qed.

Section Order.
Context (O : Oracle).

Lemma job_filename_shape j :
  1 <= job_idx j <= 999 ->
  job_filename O j <> "" /\ has_char "/" (job_filename O j) = false
  /\ has_image_ext (job_filename O j) = true.
Proof.
  intros Hk. unfold job_filename.
  assert (He : In (match urlparse O (job_url j) with
                   | Some parsed => dest_ext (path parsed)
                   | None => ".jpg"
                   end) [".jpg"; ".jpeg"; ".png"; ".webp"]).
  { destruct (urlparse O (job_url j)); [apply dest_ext_cases | by left]. }
  split; [|split].
  - pose proof (fmt_03d_ok _ Hk) as Hok. unfold stem_ok in Hok.
    apply andb_prop in Hok as [Hl _]. apply Nat.eqb_eq in Hl.
    destruct (fmt_03d (Z.of_nat (job_idx j))); [discriminate | done].
  - rewrite has_char_app, fmt_03d_no_slash by done.
    simpl in He. by destruct He as [<- | [<- | [<- | [<- | []]]]].
  - by apply image_name.
Qed.

Lemma job_dest_listed out_dir j :
  1 <= job_idx j <= 999 -> names_job O out_dir j ->
  listed_image out_dir (job_dest j) = true.
Proof.
  intros Hk Hn. destruct (job_filename_shape j Hk) as (Hne & Hns & Himg).
  rewrite (job_dest_prefix O out_dir j Hk Hn).
  unfold listed_image, child_name. rewrite strip_prefix_append, Hns.
  destruct (job_filename O j); [done | exact Himg].
Qed.

(** The source files of the document, after the jobs have run into a
    folder that held no image: the destinations at which a file lies, in
    the order of the jobs. *)
Lemma src_files_after_jobs out_dir image_urls jobs max_retries w results w1 :
  build_jobs O out_dir 0 image_urls = Some jobs ->
  length jobs <= 999 ->
  (forall name, In name (listdir (fs w) out_dir) -> has_image_ext name = false) ->
  run_jobs O max_retries jobs w = (Ok results, w1) ->
  src_files_of (fs w1) out_dir
  = List.filter (fun d => bool_decide (is_Some (fs w1 !! d))) (map job_dest jobs).
Proof.
  intros Hb Hlen Hclean Hrun.
  destruct (build_jobs_spec O _ _ _ _ Hb) as (_ & Hi & Hn).
  rewrite Forall_forall in Hn.
  assert (Hrange : forall j, In j jobs -> 1 <= job_idx j <= 999).
  { intros j Hin. assert (Hin' : In (job_idx j) (seq 1 (length jobs))).
    { rewrite <- Hi. by apply in_map. }
    apply in_seq in Hin'. lia. }
  assert (Hsorted : StronglySorted str_lt (map job_dest jobs)).
  { replace (map job_dest jobs)
      with (map (String.append (folder_prefix out_dir)) (map (job_filename O) jobs)).
    - apply StronglySorted_map_prefix, (filenames_sorted O jobs 1); auto with lia.
    - rewrite map_map. apply map_ext_in. intros j Hin. symmetry.
      apply job_dest_prefix; [by apply Hrange | apply Hn; by apply list_elem_of_In]. }
  destruct (run_jobs_returns O max_retries jobs w) as (rs & w1' & Hrun' & _ & _ & Hsame).
  rewrite Hrun in Hrun'. injection Hrun' as <- <-.
  assert (Hsub : forall p,
            In p (map (path_join out_dir)
                    (List.filter has_image_ext (listdir (fs w1) out_dir))) ->
            In p (map job_dest jobs)).
  { intros p Hp. apply src_candidates_In in Hp as [Hex Hl].
    destruct (in_dec string_dec p (map job_dest jobs)) as [Hin | Hout]; [done|].
    rewrite (Hsame p Hout) in Hex.
    destruct (listed_image_listdir _ _ _ Hex Hl) as (name & Hname & Himg).
    rewrite (Hclean name Hname) in Himg. discriminate. }
  unfold src_files_of.
  rewrite (py_sorted_filter _ Hsorted _ (src_candidates_NoDup _ _) Hsub).
  apply filter_ext_in. intros d Hd. apply in_map_iff in Hd as (j & <- & Hj).
  apply eq_true_iff_eq. rewrite str_in_In, src_candidates_In, bool_decide_eq_true.
  split; [by intros [? _]|]. intros Hex. split; [done|].
  apply job_dest_listed; [by apply Hrange | apply Hn; by apply list_elem_of_In].
Qed.

(** *** From the source files to the pages *)

Lemma normalize_order convert_dir src_files : forall w,
  returns (normalize O convert_dir src_files) w
    (fun out _ => exists kept,
                    sublist kept src_files /\ Forall2 (made_from convert_dir) kept out).
Proof.
  induction src_files as [|p src_files IH]; intros w; cbn [normalize].
  - apply returns_mret. exists []. split; constructor.
  - destruct (str_in (lower (snd (splitext p))) [".jpg"; ".jpeg"; ".png"]).
    + apply returns_bind. eapply returns_weaken; [apply IH|].
      intros out w1 (kept & Hs & Hf). apply returns_mret.
      exists (p :: kept). split; [by constructor|]. constructor; [by left | done].
    + apply returns_bind. exists (fs w), w. split; [done|].
      destruct (match fs w !! p with Some (Raw b) => pil_to_jpeg O b | _ => None end).
      * apply returns_bind, returns_put_file, returns_bind.
        eapply returns_weaken; [apply IH|].
        intros out w1 (kept & Hs & Hf). apply returns_mret.
        exists (p :: kept). split; [by constructor|]. constructor; [by right | done].
      * eapply returns_weaken; [apply IH|].
        intros out w1 (kept & Hs & Hf). exists kept. split; [by constructor | done].
Qed.

(** X24: when the jobs of a page have run into a folder that held no
    image, with at most 999 jobs, the source files of the document are the
    destinations at which a file lies, in the order of the jobs; and the
    pages of the document that [images_to_pdf] then writes follow that
    order: each page is made from one of these files (the file itself, or
    its conversion), no file gives two pages, and no page comes before a
    page of an earlier job. *)
Theorem pages_follow_job_order (out_dir pdf : string) (image_urls : list string)
    (jobs : list job) (max_retries : Z) (w : world) :
  build_jobs O out_dir 0 image_urls = Some jobs ->
  length jobs <= 999 ->
  (forall name, In name (listdir (fs w) out_dir) -> has_image_ext name = false) ->
  exists results w1,
    run_jobs O max_retries jobs w = (Ok results, w1)
    /\ src_files_of (fs w1) out_dir
       = List.filter (fun d => bool_decide (is_Some (fs w1 !! d))) (map job_dest jobs)
    /\ forall w1' w2,
         fs w1' = fs w1 -> images_to_pdf O out_dir pdf w1' = (Ok true, w2) ->
         exists pages kept,
           fs w2 !! pdf = Some (Pdf pages)
           /\ sublist kept (map job_dest jobs)
           /\ Forall2 (made_from (path_join out_dir "_converted")) kept
                (map page_file pages).
Proof.
  intros Hb Hlen Hclean.
  destruct (run_jobs_returns O max_retries jobs w) as (results & w1 & Hrun & _).
  exists results, w1. split; [done|].
  pose proof (src_files_after_jobs _ _ _ _ _ _ _ Hb Hlen Hclean Hrun) as Hsrc.
  split; [done|]. intros w1' w2 Hfs Hpdf.
  unfold images_to_pdf, mbind, M_bind, bind, get_fs in Hpdf.
  destruct (bool_decide (src_files_of (fs w1') out_dir = [])).
  { unfold print, emit, mret, M_ret, ret in Hpdf. simpl in Hpdf. congruence. }
  destruct (normalize_order (path_join out_dir "_converted")
              (src_files_of (fs w1') out_dir) w1') as (out & w1'' & Hn & kept & Hs & Hf).
  rewrite Hn in Hpdf. destruct (bool_decide (out = [])).
  { unfold print, emit, mret, M_ret, ret in Hpdf. simpl in Hpdf. congruence. }
  unfold print, emit, put_file in Hpdf. simpl in Hpdf.
  destruct (img2pdf_convert O _ out) as [pages|] eqn:Hc; [|unfold raise in Hpdf; congruence].
  unfold mret, M_ret, ret in Hpdf. injection Hpdf as <-. simpl.
  exists pages, kept. split; [by rewrite lookup_insert_eq|]. split.
  - rewrite Hfs, Hsrc in Hs. etrans; [exact Hs | apply filter_sublist].
  - by rewrite (img2pdf_convert_files _ _ _ _ Hc).
Qed.

End Order.

Lemma pages_follow_job_order_witness :
  build_jobs Scenario.oracle "out" 0 Scenario.image_urls = Some scenario_jobs
  /\ length scenario_jobs <= 999
  /\ (forall name, In name (listdir (fs Scenario.empty_world) "out") ->
                   has_image_ext name = false)
  /\ exists results w1,
       run_jobs Scenario.oracle 3 scenario_jobs Scenario.empty_world = (Ok results, w1)
       /\ src_files_of (fs w1) "out" = ["out/001.png"; "out/002.jpg"].
Proof.
  assert (H1 : build_jobs Scenario.oracle "out" 0 Scenario.image_urls = Some scenario_jobs)
    by reflexivity.
  assert (H2 : length scenario_jobs <= 999) by (simpl; lia).
  assert (H3 : forall name, In name (listdir (fs Scenario.empty_world) "out") ->
                            has_image_ext name = false).
  { intros name Hin. vm_compute in Hin. destruct Hin. }
  split; [exact H1|]. split; [exact H2|]. split; [exact H3|].
  destruct (pages_follow_job_order Scenario.oracle "out" "out.pdf" Scenario.image_urls
              scenario_jobs 3 Scenario.empty_world H1 H2 H3)
    as (results & w1 & Hrun & Hsrc & _).
  exists results, w1. split; [exact Hrun|].
  assert (Hw : w1 = snd (run_jobs Scenario.oracle 3 scenario_jobs Scenario.empty_world))
    by (by rewrite Hrun).
  rewrite Hsrc, Hw. vm_compute. reflexivity.
Defined.

End PageOrderFacts.

(** ** Files of the jobs that succeeded *)

Module OutcomeFacts.
Import PyStr Env Url Net Downloader Assembler.
Import StrFacts DownloaderFacts RunFacts JobFacts.
#[local] Arguments String.append !_ _ / : simpl nomatch.

Section Outcome.
Context (O : Oracle).

(** The file that a job recorded as succeeded has left: the body of the
    first attempt that arrived whole. *)
Definition delivered (max_retries : nat) (j : job) (r : job_result) (w' : world) : Prop :=
  res_dest r = job_dest j
  /\ (res_ok r = true ->
      exists k cs,
        1 <= k <= max_retries /\ attempt_body O j k = Some cs
        /\ (forall i, 1 <= i < k -> attempt_body O j i = None)
        /\ fs w' !! job_dest j = Some (Raw (body_of cs))).

Lemma wrap_download_delivered (max_retries : nat) (j : job) (w : world) :
  returns (_wrap_download O (Z.of_nat max_retries) j) w
    (fun r w' => delivered max_retries j r w' /\ same_except (job_dest j) w w').
Proof.
  destruct (first_whole_attempt O j max_retries) as [Hnone | (k & cs & Hk & Hcs & Hpre)].
  - apply returns_conj.
    + apply returns_conj.
      * eapply returns_weaken; [apply wrap_download_returns|]. by intros r w' (_ & H & _).
      * unfold _wrap_download. rewrite Nat2Z.id. apply returns_bind.
        eapply returns_weaken.
        { apply attempt_loop_no_success. intros i Hi. apply in_seq in Hi. apply Hnone. lia. }
        intros [[ok n] le] w' (Hok & _). simpl in *. subst ok.
        apply returns_mret. simpl. done.
    + eapply returns_weaken; [apply wrap_download_returns|]. by intros r w' (_ & _ & H).
  - eapply returns_weaken.
    { apply returns_conj;
        [apply (wrap_download_success_returns O max_retries k j cs w Hk Hpre Hcs)
        |apply wrap_download_returns]. }
    intros r w' (((Hok & _ & Hf) & Hsame) & _ & Hd & _).
    split; [|done]. split; [done|]. intros _. by exists k, cs.
Qed.

(** X25: when the destinations of the jobs differ, every job that
    [run_jobs] records as succeeded has left, at its destination, exactly
    the body of its first attempt that arrived whole, whatever the other
    jobs did. *)
Theorem successful_jobs_leave_files (max_retries : nat) (jobs : list job)
    (results : list job_result) (w w' : world) :
  List.NoDup (map job_dest jobs) ->
  run_jobs O (Z.of_nat max_retries) jobs w = (Ok results, w') ->
  Forall2 (fun j r => delivered max_retries j r w') jobs results.
Proof.
  revert results w. induction jobs as [|j jobs IH]; intros results w Hnd Hrun.
  - injection Hrun as <- <-. constructor.
  - apply List.NoDup_cons_iff in Hnd as [Hnot Hnd]. cbn [run_jobs] in Hrun.
    unfold mbind at 1, M_bind at 1, bind at 1 in Hrun.
    destruct (wrap_download_delivered max_retries j w)
      as (r & w1 & Hw & (Hd & Hok) & _).
    rewrite Hw in Hrun. unfold mbind at 1, M_bind at 1, bind at 1 in Hrun.
    destruct (run_jobs_returns O (Z.of_nat max_retries) jobs w1)
      as (rs & w2 & Hrest & _ & _ & Hsame).
    rewrite Hrest in Hrun. injection Hrun as <- <-.
    constructor; [|by apply (IH rs w1)].
    split; [done|]. intros H. destruct (Hok H) as (k & cs & Hk & Hcs & Hpre & Hf).
    exists k, cs. repeat split; try done; try lia.
    by rewrite (Hsame _ Hnot).
Qed.

End Outcome.

Lemma successful_jobs_leave_files_witness :
  List.NoDup (map job_dest scenario_jobs)
  /\ run_jobs Scenario.oracle (Z.of_nat 3) scenario_jobs Scenario.empty_world
     = (Ok [JobResult 1 "out/001.png" true 22 None;
            JobResult 2 "out/002.jpg" false 42 (Some "Connection broken");
            JobResult 3 "out/003.jpg" false 0 (Some "Read timed out")],
        snd (run_jobs Scenario.oracle (Z.of_nat 3) scenario_jobs Scenario.empty_world))
  /\ Forall2 (fun j r =>
                delivered Scenario.oracle 3 j r
                  (snd (run_jobs Scenario.oracle (Z.of_nat 3) scenario_jobs
                          Scenario.empty_world)))
       scenario_jobs
       [JobResult 1 "out/001.png" true 22 None;
        JobResult 2 "out/002.jpg" false 42 (Some "Connection broken");
        JobResult 3 "out/003.jpg" false 0 (Some "Read timed out")].
Proof.
  assert (H1 : List.NoDup (map job_dest scenario_jobs)).
  { simpl. repeat constructor; simpl; intuition discriminate. }
  assert (H2 : run_jobs Scenario.oracle (Z.of_nat 3) scenario_jobs Scenario.empty_world
               = (Ok [JobResult 1 "out/001.png" true 22 None;
                      JobResult 2 "out/002.jpg" false 42 (Some "Connection broken");
                      JobResult 3 "out/003.jpg" false 0 (Some "Read timed out")],
                  snd (run_jobs Scenario.oracle (Z.of_nat 3) scenario_jobs
                         Scenario.empty_world))).
  { vm_compute. reflexivity. }
  split; [exact H1|]. split; [exact H2|].
  exact (successful_jobs_leave_files Scenario.oracle 3 scenario_jobs _ _ _ H1 H2).
Defined.

End OutcomeFacts.

(** ** One chapter, in either mode *)

Module SingleFacts.
Import PyStr Env Url Net Names Enumerator Downloader Assembler Orchestrator.
#[local] Arguments String.append !_ _ / : simpl nomatch.

(** *** Computations that do not read the trace *)

(** [m] does not look at the trace: from the files [f] it returns the
    same value, leaves the same files and adds the same events, whatever
    happened before. *)
Definition oblivious {A} (m : M A) : Prop :=
  forall f t,
    m (World f t)
    = (fst (m (World f [])),
       World (fs (snd (m (World f [])))) (t ++ trace (snd (m (World f []))))).

Lemma oblivious_match {A B} (m : M A) (k : A -> M B) (h : exn -> M B) :
  oblivious m -> (forall a, oblivious (k a)) -> (forall e, oblivious (h e)) ->
  oblivious (fun w => match m w with
                      | (Ok a, w') => k a w'
                      | (Exc e, w') => h e w'
                      end).
Proof.
  intros Hm Hk Hh f t. cbv beta. rewrite (Hm f t).
  destruct (m (World f [])) as [[a|e] [f0 t0]]; cbn [fst snd fs trace].
  - rewrite (Hk a f0 (t ++ t0)), (Hk a f0 t0). cbn [fst snd fs trace].
    by rewrite app_assoc.
  - rewrite (Hh e f0 (t ++ t0)), (Hh e f0 t0). cbn [fst snd fs trace].
    by rewrite app_assoc.
Qed.

Lemma oblivious_ext {A} (m m' : M A) :
  (forall w, m w = m' w) -> oblivious m -> oblivious m'.
Proof. intros H Hm f t. rewrite <- !H. apply Hm. Qed.

Lemma oblivious_ret {A} (a : A) : oblivious (mret a).
Proof. intros f t. cbn. by rewrite app_nil_r. Qed.

Lemma oblivious_raise {A} (e : exn) : oblivious (@raise A e).
Proof. intros f t. cbn. by rewrite app_nil_r. Qed.

Lemma oblivious_bind {A B} (m : M A) (k : A -> M B) :
  oblivious m -> (forall a, oblivious (k a)) -> oblivious (m ≫= k).
Proof.
  intros Hm Hk. apply (oblivious_match m k (fun e => raise e)); try done.
  intros e. apply oblivious_raise.
Qed.

Lemma oblivious_try_except {A} (m : M A) handled (h : exn -> M A) :
  oblivious m -> (forall e, oblivious (h e)) -> oblivious (try_except m handled h).
Proof.
  intros Hm Hh.
  apply (oblivious_ext
           (fun w => match m w with
                     | (Ok a, w') => ret a w'
                     | (Exc e, w') => (if handled e then h e else raise e) w'
                     end)).
  { intros w. unfold try_except. destruct (m w) as [[a|e] w']; [done|].
    by destruct (handled e). }
  apply (oblivious_match m (fun a => ret a)
           (fun e => if handled e then h e else raise e)); try done.
  - intros a. apply (oblivious_ret a).
  - intros e. destruct (handled e); [apply Hh | apply oblivious_raise].
Qed.

Lemma oblivious_emit e : oblivious (emit e).
Proof. by intros f t. Qed.

Lemma oblivious_put_file p c : oblivious (put_file p c).
Proof. intros f t. cbn. by rewrite app_nil_r. Qed.

Lemma oblivious_get_fs : oblivious get_fs.
Proof. intros f t. cbn. by rewrite app_nil_r. Qed.

Lemma oblivious_path_exists p : oblivious (path_exists p).
Proof. intros f t. cbn. by rewrite app_nil_r. Qed.

Lemma oblivious_append_file d c : oblivious (append_file d c).
Proof. intros f t. cbn. by rewrite app_nil_r. Qed.

(** Break a computation into its steps. *)
Ltac steps :=
  repeat lazymatch goal with
  | |- oblivious (_ ≫= _) => apply oblivious_bind
  | |- oblivious (try_except _ _ _) => apply oblivious_try_except
  | |- oblivious (mret _) => apply oblivious_ret
  | |- oblivious (raise _) => apply oblivious_raise
  | |- oblivious (emit _) => apply oblivious_emit
  | |- oblivious (print _) => apply oblivious_emit
  | |- oblivious (sleep _) => apply oblivious_emit
  | |- oblivious (put_file _ _) => apply oblivious_put_file
  | |- oblivious get_fs => apply oblivious_get_fs
  | |- oblivious (path_exists _) => apply oblivious_path_exists
  | |- oblivious (append_file _ _) => apply oblivious_append_file
  | |- forall _, _ => intro
  end.

Section Steps.
Context (O : Oracle).

Lemma oblivious_request_once get url attempt : oblivious (request_once get url attempt).
Proof.
  unfold request_once. steps.
  destruct (get attempt) as [resp|e]; [|steps].
  destruct (raise_for_status url resp); steps.
Qed.

Lemma oblivious_retry_loop get url attempts : forall last_err,
  oblivious (retry_loop get url attempts last_err).
Proof.
  induction attempts as [|a attempts IH]; intros last_err; cbn [retry_loop].
  - destruct last_err; steps.
  - apply oblivious_try_except; [apply oblivious_request_once|].
    intros e. unfold sleep. steps. apply IH.
Qed.

Lemma oblivious_get_with_retries get url retries :
  oblivious (get_with_retries get url retries).
Proof. apply oblivious_retry_loop. Qed.

Lemma oblivious_response_text resp : oblivious (response_text resp).
Proof. unfold response_text. destruct (stream_error resp); steps. Qed.

Lemma oblivious_fetch_page url : oblivious (fetch_page O url).
Proof.
  unfold fetch_page, print. apply oblivious_try_except.
  - steps. apply oblivious_get_with_retries.
  - steps.
Qed.

Lemma oblivious_extract url : oblivious (extract_chapter_images O url).
Proof.
  unfold extract_chapter_images. apply oblivious_bind; [apply oblivious_fetch_page|].
  intros [resp|]; [|steps].
  apply oblivious_bind; [apply oblivious_response_text|]. intros html.
  unfold print. destruct (soup_content_imgs O html); steps.
Qed.

Lemma oblivious_estimate workers jobs : oblivious (estimate_total O workers jobs).
Proof.
  unfold estimate_total. apply oblivious_bind.
  - unfold new_pool. destruct (workers <=? 0)%Z; steps.
  - intros _ f t. reflexivity.
Qed.

Lemma oblivious_write_chunks dest cs : forall written,
  oblivious (write_chunks dest cs written).
Proof.
  induction cs as [|c cs IH]; intros written; cbn [write_chunks]; [steps|].
  destruct (String.eqb c ""); [apply IH|]. steps. apply IH.
Qed.

Lemma oblivious_download_attempt j attempt written :
  oblivious (download_attempt O j attempt written).
Proof.
  pose (get := get_with_retries (fun k => session_get O (job_url j) (attempt + k - 1))
                 (job_url j) 1).
  pose (body := fun resp : Response =>
                  put_file (job_dest j) (Raw "");;
                  written' ← write_chunks (job_dest j) (chunks resp) written;
                  mret (written', stream_error resp)).
  pose (failed := fun e : exn => @ret (nat * option exn) (written, Some e)).
  apply (oblivious_ext (fun w => match get w with
                                 | (Ok resp, w') => body resp w'
                                 | (Exc e, w') => failed e w'
                                 end)).
  { intros w. unfold download_attempt. fold get. by destruct (get w) as [[resp|e] w1]. }
  apply (oblivious_match get body failed).
  - apply oblivious_get_with_retries.
  - intros resp. unfold body. steps. apply oblivious_write_chunks.
  - intros e. apply (oblivious_ret (written, Some e)).
Qed.

Lemma oblivious_attempt_loop j attempts : forall written last_err,
  oblivious (attempt_loop O j attempts written last_err).
Proof.
  induction attempts as [|a attempts IH]; intros written last_err; cbn [attempt_loop];
    [steps|].
  apply oblivious_bind; [apply oblivious_download_attempt|]. intros r.
  destruct (snd r); [|steps]. unfold sleep. steps. apply IH.
Qed.

Lemma oblivious_wrap_download max_retries j : oblivious (_wrap_download O max_retries j).
Proof.
  unfold _wrap_download. apply oblivious_bind; [apply oblivious_attempt_loop|].
  intros [[ok written] last_err]. steps.
Qed.

Lemma oblivious_run_jobs max_retries jobs : oblivious (run_jobs O max_retries jobs).
Proof.
  induction jobs as [|j jobs IH]; cbn [run_jobs]; [steps|].
  apply oblivious_bind; [apply oblivious_wrap_download|]. intros r.
  apply oblivious_bind; [apply IH|]. steps.
Qed.

Lemma oblivious_download image_urls out_dir workers max_retries verbose :
  oblivious (download_images_threaded O image_urls out_dir workers max_retries verbose).
Proof.
  unfold download_images_threaded, print.
  apply oblivious_bind; [destruct (build_jobs O out_dir 0 image_urls); steps|].
  intros jobs. apply oblivious_bind; [destruct (verbose && _); steps|]. intros _.
  apply oblivious_bind; [apply oblivious_estimate|]. intros total_est.
  apply oblivious_bind; [apply oblivious_run_jobs|]. intros results.
  apply oblivious_bind; [destruct (verbose && _); steps|]. steps.
Qed.

Lemma oblivious_normalize convert_dir src_files :
  oblivious (normalize O convert_dir src_files).
Proof.
  induction src_files as [|p src_files IH]; cbn [normalize]; [steps|].
  destruct (str_in _ _).
  - apply oblivious_bind; [apply IH | steps].
  - apply oblivious_bind; [steps|]. intros files.
    destruct (match files !! p with Some (Raw b) => pil_to_jpeg O b | _ => None end);
      [|apply IH].
    apply oblivious_bind; [steps|]. intros _.
    apply oblivious_bind; [apply IH | steps].
Qed.

Lemma oblivious_images_to_pdf image_folder output_pdf :
  oblivious (images_to_pdf O image_folder output_pdf).
Proof.
  unfold images_to_pdf, print. apply oblivious_bind; [steps|]. intros files.
  destruct (bool_decide _); [steps|].
  apply oblivious_bind; [apply oblivious_normalize|]. intros out.
  destruct (bool_decide _); [steps|].
  apply oblivious_bind; [steps|]. intros _.
  apply oblivious_bind; [steps|]. intros _.
  apply oblivious_bind; [steps|]. intros files'.
  destruct (img2pdf_convert O files' out); steps.
Qed.

End Steps.

(** *** The two modes *)

Definition is_print (e : event) : bool :=
  match e with
  | EvPrint _ => true
  | _ => false
  end.

(** What happens off the console: the requests, the sleeps and the
    progress of the downloads. *)
Definition off_console (t : list event) : list event :=
  List.filter (fun e => negb (is_print e)) t.

Lemma off_console_app t1 t2 : off_console (t1 ++ t2) = off_console t1 ++ off_console t2.
Proof. apply List.filter_app. Qed.

Section Single.
Context (O : Oracle).

(** What both modes do with a chapter once its header is printed;
    [warning] is the line for a page that gives no image. *)
Definition chapter_body (series_dir label chapter_url : string) (workers max_retries : Z)
    (verbose : bool) (warning : message) : M unit :=
  images ← extract_chapter_images O chapter_url;
  if bool_decide (images = []) then print warning
  else
    download_images_threaded O images (chapter_dir series_dir label)
      workers max_retries verbose;;
    images_to_pdf O (chapter_dir series_dir label) (chapter_pdf series_dir label);;
    mret tt.

Lemma oblivious_chapter_body series_dir label chapter_url workers max_retries verbose
    warning :
  oblivious (chapter_body series_dir label chapter_url workers max_retries verbose warning).
Proof.
  unfold chapter_body. apply oblivious_bind; [apply oblivious_extract|]. intros images.
  destruct (bool_decide (images = [])); [steps|].
  apply oblivious_bind; [apply oblivious_download|]. intros _.
  apply oblivious_bind; [apply oblivious_images_to_pdf|]. steps.
Qed.

(** From the same files, two runs of the body that differ in the warning
    return alike, leave the same files and do the same off the console. *)
Lemma chapter_body_alike series_dir label chapter_url workers max_retries verbose
    warning1 warning2 w :
  let r1 := chapter_body series_dir label chapter_url workers max_retries verbose
              warning1 w in
  let r2 := chapter_body series_dir label chapter_url workers max_retries verbose
              warning2 w in
  fst r1 = fst r2 /\ fs (snd r1) = fs (snd r2)
  /\ off_console (trace (snd r1)) = off_console (trace (snd r2)).
Proof.
  unfold chapter_body, mbind, M_bind, bind.
  destruct (extract_chapter_images O chapter_url w) as [[images|e] w1]; [|done].
  destruct (bool_decide (images = [])); [|done].
  unfold print, emit. cbn [fst snd fs trace]. split; [done|]. split; [done|].
  rewrite !off_console_app. cbn. done.
Qed.

Lemma run_single_unfold chapter_url series_name chapter_num force workers max_retries
    verbose series_dir w :
  derive_series_name O chapter_url series_name = Some series_dir ->
  let label := single_label O chapter_num chapter_url in
  run_single O chapter_url series_name chapter_num force workers max_retries verbose w
  = if bool_decide (is_Some (fs w !! chapter_pdf series_dir label)) && negb force
    then print (MsgSkipExists label (chapter_pdf series_dir label)) w
    else chapter_body series_dir label chapter_url workers max_retries verbose
           MsgNoImagesFound
           (World (fs w) (trace w ++ [EvPrint (MsgProcessingSingle label chapter_url)])).
Proof.
  intros Hd label. unfold run_single, derive_series_name_M. rewrite Hd.
  unfold mbind at 1 2, M_bind at 1 2, bind at 1 2, mret, M_ret, ret, path_exists.
  fold label. by destruct (bool_decide _ && negb force).
Qed.

Lemma bulk_chapter_unfold series_dir force workers max_retries verbose idx chapter_url w :
  bulk_chapter O series_dir force workers max_retries verbose idx chapter_url w
  = if bool_decide (is_Some (fs w !! chapter_pdf series_dir (str_nat idx))) && negb force
    then print (MsgSkipExists (str_nat idx) (chapter_pdf series_dir (str_nat idx))) w
    else chapter_body series_dir (str_nat idx) chapter_url workers max_retries verbose
           (MsgNoImagesForChapter (str_nat idx))
           (World (fs w) (trace w ++ [EvPrint (MsgProcessing (str_nat idx) chapter_url)])).
Proof.
  unfold bulk_chapter. unfold mbind at 1, M_bind at 1, bind at 1, path_exists.
  by destruct (bool_decide _ && negb force).
Qed.

(** X26: [run_single] treats its chapter as the loop of [run_bulk] treats
    the chapter with the same label: both return or raise alike, leave the
    same files, and make the same requests, sleeps and progress steps in
    the same order.  On the console they differ: the header line of the
    chapter is another, and so is the line printed when the page gives no
    image. *)
Theorem run_single_as_bulk_chapter (chapter_url : string)
    (series_name chapter_num : option string) (force : bool) (workers max_retries : Z)
    (verbose : bool) (series_dir : string) (idx : nat) (w : world) :
  derive_series_name O chapter_url series_name = Some series_dir ->
  single_label O chapter_num chapter_url = str_nat idx ->
  let single := run_single O chapter_url series_name chapter_num force workers
                  max_retries verbose w in
  let bulk := bulk_chapter O series_dir force workers max_retries verbose idx
                chapter_url w in
  fst single = fst bulk
  /\ fs (snd single) = fs (snd bulk)
  /\ off_console (trace (snd single)) = off_console (trace (snd bulk)).
Proof.
  intros Hd Hl single bulk. subst single bulk.
  rewrite (run_single_unfold _ _ _ _ _ _ _ _ _ Hd), bulk_chapter_unfold. cbv zeta.
  rewrite Hl.
  destruct (bool_decide (is_Some (fs w !! chapter_pdf series_dir (str_nat idx)))
            && negb force); [done|].
  rewrite (oblivious_chapter_body _ _ _ _ _ _ MsgNoImagesFound).
  rewrite (oblivious_chapter_body _ _ _ _ _ _ (MsgNoImagesForChapter (str_nat idx))).
  destruct (chapter_body_alike series_dir (str_nat idx) chapter_url workers max_retries
              verbose MsgNoImagesFound (MsgNoImagesForChapter (str_nat idx))
              (World (fs w) [])) as (H1 & H2 & H3).
  cbn [fst snd fs trace]. split; [exact H1|]. split; [exact H2|].
  rewrite !off_console_app, H3. done.
Qed.

End Single.

Lemma run_single_as_bulk_chapter_witness :
  derive_series_name Scenario.oracle Scenario.chapter_url (Some "one") = Some "one"
  /\ single_label Scenario.oracle None Scenario.chapter_url = str_nat 5
  /\ fs (snd (run_single Scenario.oracle Scenario.chapter_url (Some "one") None false 6 3
                false Scenario.empty_world))
     = fs (snd (bulk_chapter Scenario.oracle "one" false 6 3 false 5 Scenario.chapter_url
                  Scenario.empty_world))
  /\ trace (snd (run_single Scenario.oracle Scenario.chapter_url (Some "one") None false
                   6 3 false Scenario.empty_world))
     <> trace (snd (bulk_chapter Scenario.oracle "one" false 6 3 false 5
                      Scenario.chapter_url Scenario.empty_world)).
Proof.
  assert (H1 : derive_series_name Scenario.oracle Scenario.chapter_url (Some "one")
               = Some "one") by reflexivity.
  assert (H2 : single_label Scenario.oracle None Scenario.chapter_url = str_nat 5)
    by reflexivity.
  split; [exact H1|]. split; [exact H2|]. split.
  - exact (proj1 (proj2 (run_single_as_bulk_chapter Scenario.oracle Scenario.chapter_url
                           (Some "one") None false 6 3 false "one" 5 Scenario.empty_world
                           H1 H2))).
  - vm_compute. discriminate.
Defined.

End SingleFacts.
